(** * dipy.reconst.dki: diffusion kurtosis imaging

    A shallow embedding of [dipy/reconst/dki.py] and the properties of its
    specification.  numpy's [float64] is the kernel's binary64 [float], so
    nan, the infinities and the signed zeros behave as they do in numpy;
    arrays are lists, one element per voxel.  Python exceptions, the
    warnings numpy emits for zero divisors (under its default error state,
    which warns and does not raise) and the two [while] loops, run on
    fuel, live in one monad [M]. *)

From Stdlib Require Import ZArith List Floats Lia String.
From stdpp Require Import base option list gmap strings pretty.

Set Warnings "-inexact-float".
Local Open Scope float_scope.

(** ** Python run-time model *)

Module Py.

(** The exceptions the module can raise, with the message where two
    sites raise the same class. *)
Inductive exn : Type :=
| TypeError (msg : string)
| ValueError (msg : string)
| IndexError
| KeyError (key : Z)
| LinAlgError.

Inductive outcome (A : Type) : Type :=
| Ret (a : A)
| Raise (e : exn)
| OutOfFuel.
Arguments Ret {A} a.
Arguments Raise {A} e.
Arguments OutOfFuel {A}.

(** numpy does not raise on a zero divisor: it emits a RuntimeWarning and
    goes on with inf or nan.  The state counts the array elements that
    were divided by zero so far. *)
Record errstate : Type := ErrState { zero_divisors : nat }.

Definition M (A : Type) : Type := errstate -> outcome A * errstate.

Definition ret {A} (a : A) : M A := fun s => (Ret a, s).
Definition raise {A} (e : exn) : M A := fun s => (Raise e, s).
Definition out_of_fuel {A} : M A := fun s => (OutOfFuel, s).
Definition bind {A B} (m : M A) (k : A -> M B) : M B :=
  fun s => match m s with
           | (Ret a, s') => k a s'
           | (Raise e, s') => (Raise e, s')
           | (OutOfFuel, s') => (OutOfFuel, s')
           end.
Definition warn_zero_divisors (n : nat) : M unit :=
  fun s => (Ret tt, ErrState (zero_divisors s + n)).

(** A fresh interpreter: no warning emitted yet. *)
Definition s0 : errstate := ErrState 0.
Definition run {A} (m : M A) : outcome A := fst (m s0).
Definition warnings {A} (m : M A) : nat := zero_divisors (snd (m s0)).

Definition raises {A} (o : outcome A) : bool :=
  match o with Raise _ => true | _ => false end.

End Py.
Import Py.

#[global] Instance M_ret : MRet M := @Py.ret.
#[global] Instance M_bind : MBind M := fun A B k m => Py.bind m k.

(** [for x in xs: acc = body(acc, x)] *)
Fixpoint for_each {A B} (xs : list A) (body : B -> A -> M B) (acc : B) : M B :=
  match xs with
  | [] => mret acc
  | x :: xs' => acc' ← body acc x; for_each xs' body acc'
  end.

(** [xs[i]] for a non-negative index. *)
Definition getitem {A} (xs : list A) (i : nat) : M A :=
  match xs !! i with
  | Some x => mret x
  | None => raise IndexError
  end.

(** ** numpy arrays of float64 *)

Module Np.

Abbreviation arr := (list float).
Abbreviation mask := (list bool).

Definition zeros (n : nat) : arr := replicate n 0.
Definition ones (n : nat) : arr := replicate n 1.

(** Element-wise arithmetic of arrays of one shape, and scalar
    broadcasting. *)
Definition add (a b : arr) : arr := zip_with PrimFloat.add a b.
Definition sub (a b : arr) : arr := zip_with PrimFloat.sub a b.
Definition mul (a b : arr) : arr := zip_with PrimFloat.mul a b.
Definition scale (k : float) (a : arr) : arr := map (PrimFloat.mul k) a.
Definition times (a : arr) (k : float) : arr := map (fun x => x * k) a.
Definition plus (a : arr) (k : float) : arr := map (fun x => x + k) a.
Definition minus (a : arr) (k : float) : arr := map (fun x => x - k) a.
Definition rminus (k : float) (a : arr) : arr := map (PrimFloat.sub k) a.
Definition rplus (k : float) (a : arr) : arr := map (PrimFloat.add k) a.
(** [a**2] on an array, which numpy computes as [a*a]. *)
Definition square (a : arr) : arr := map (fun x => x * x) a.
Definition sqrt (a : arr) : arr := map PrimFloat.sqrt a.
Definition abs (a : arr) : arr := map PrimFloat.abs a.

Definition count_zeros (a : arr) : nat :=
  sum_list (map (fun x => if x =? 0 then 1%nat else 0%nat) a).

(** [a / b]: IEEE division, the zero divisors recorded. *)
Definition div (a b : arr) : M arr :=
  _ ← warn_zero_divisors (count_zeros b);
  mret (zip_with PrimFloat.div a b).
(** [a / k] and [k / a] with a scalar [k]. *)
Definition div_scalar (a : arr) (k : float) : M arr :=
  _ ← warn_zero_divisors (if k =? 0 then length a else 0%nat);
  mret (map (fun x => x / k) a).
Definition scalar_div (k : float) (a : arr) : M arr :=
  _ ← warn_zero_divisors (count_zeros a);
  mret (map (PrimFloat.div k) a).
(** Division of two scalars. *)
Definition fdiv (x y : float) : M float :=
  _ ← warn_zero_divisors (if y =? 0 then 1%nat else 0%nat);
  mret (x / y).

(** [np.maximum]: a nan operand wins. *)
Definition maximum (x y : float) : float :=
  if is_nan x then x else if is_nan y then y else if x <? y then y else x.
Definition minimum (x y : float) : float :=
  if is_nan x then x else if is_nan y then y else if y <? x then y else x.

(** [np.max] of all the elements; numpy refuses an empty array. *)
Definition max (a : arr) : M float :=
  match a with
  | [] => raise (ValueError "zero-size array to reduction operation maximum which has no identity")
  | x :: a' => mret (fold_left maximum a' x)
  end.
Definition min (a : arr) : M float :=
  match a with
  | [] => raise (ValueError "zero-size array to reduction operation minimum which has no identity")
  | x :: a' => mret (fold_left minimum a' x)
  end.

(** Comparisons with a scalar and between arrays. *)
Definition gt0 (a : arr) : mask := map (fun x => 0 <? x) a.
Definition le0 (a : arr) : mask := map (fun x => x <=? 0) a.
Definition eq (a b : arr) : mask := zip_with PrimFloat.eqb a b.
Definition ne (a b : arr) : mask := zip_with (fun x y => negb (x =? y)) a b.
Definition logical_and (p q : mask) : mask := zip_with andb p q.
Definition logical_or (p q : mask) : mask := zip_with orb p q.
(** [np.sum(m) != 0] *)
Definition any (m : mask) : bool := existsb id m.

(** [a[m]]: the elements selected by a boolean mask. *)
Fixpoint take (m : mask) (a : arr) : arr :=
  match m, a with
  | true :: m', x :: a' => x :: take m' a'
  | false :: m', _ :: a' => take m' a'
  | _, _ => []
  end.

(** [a[m] = v]: the selected elements replaced, in order, by those of [v]. *)
Fixpoint put (m : mask) (a v : arr) : arr :=
  match m, a with
  | true :: m', x :: a' =>
      match v with
      | y :: v' => y :: put m' a' v'
      | [] => x :: put m' a' []
      end
  | false :: m', x :: a' => x :: put m' a' v
  | _, _ => a
  end.

(** [a[m] = k] with a scalar [k]. *)
Definition fill (m : mask) (a : arr) (k : float) : arr :=
  zip_with (fun (b : bool) x => if b then k else x) m a.

End Np.

Declare Scope arr_scope.
Delimit Scope arr_scope with arr.
(** array with array *)
Infix "+^" := Np.add (at level 50, left associativity) : arr_scope.
Infix "-^" := Np.sub (at level 50, left associativity) : arr_scope.
Infix "*^" := Np.mul (at level 40, left associativity) : arr_scope.
(** scalar with array, array with scalar *)
Infix ".+" := Np.rplus (at level 50, left associativity) : arr_scope.
Infix ".-" := Np.rminus (at level 50, left associativity) : arr_scope.
Infix ".*" := Np.scale (at level 40, left associativity) : arr_scope.
Infix "+." := Np.plus (at level 50, left associativity) : arr_scope.
Infix "-." := Np.minus (at level 50, left associativity) : arr_scope.
Infix "*." := Np.times (at level 40, left associativity) : arr_scope.
Local Open Scope arr_scope.

(** ** Carlson's elliptic integrals *)

(** The C library behind [**] on scalars, [np.log], [np.exp] and
    [np.arctan].  Its functions are not operations of binary64, so the
    module is read over any such library. *)
Record libm : Type := Libm {
  pow : float -> float -> float;
  log : float -> float;
  exp : float -> float;
  arctan : float -> float
}.

Section Carlson.

Context (L : libm).

(** [d1mach[2] = 0.22204460*10**(-15)] and
    [errtol = (d1mach[2]/3.0)**(1.0/6.0)]; the other entries of [d1mach]
    and [lolim], [tuplim], [uplim] are assigned and never read. *)
Definition d1mach2 : float := 0.22204460 * pow L 10 (-15).
Definition errtol : float := pow L (d1mach2 / 3.0) (1.0 / 6.0).
Definition c1 : float := 3.0 / 14.0.
Definition c2 : float := 1.0 / 6.0.
Definition c3 : float := 9.0 / 22.0.
Definition c4 : float := 3.0 / 26.0.

(** The variables the loop of [rfpython] carries. *)
Record rf_vars : Type := RfVars {
  rf_xn : Np.arr; rf_yn : Np.arr; rf_zn : Np.arr;
  rf_mu : Np.arr;
  rf_xndev : Np.arr; rf_yndev : Np.arr; rf_zndev : Np.arr;
  rf_epslon : float
}.

(** [mu = (xn+yn+zn)/3.0] down to [epslon = np.max([...])]: the five lines
    that stand before the loop and again at the end of its body. *)
Definition rf_deviations (xn yn zn : Np.arr) : M rf_vars :=
  mu ← Np.div_scalar (xn +^ yn +^ zn) 3.0;
  qx ← Np.div (mu +^ xn) mu;
  let xndev := 2.0 .- qx in
  qy ← Np.div (mu +^ yn) mu;
  let yndev := 2.0 .- qy in
  qz ← Np.div (mu +^ zn) mu;
  let zndev := 2.0 .- qz in
  epslon ← Np.max (Np.abs xndev ++ Np.abs yndev ++ Np.abs zndev);
  mret (RfVars xn yn zn mu xndev yndev zndev epslon).

(** [while (epslon >= errtol): ...] *)
Fixpoint rf_while (fuel : nat) (v : rf_vars) : M rf_vars :=
  if errtol <=? rf_epslon v then
    match fuel with
    | O => out_of_fuel
    | S fuel' =>
        let xnroot := Np.sqrt (rf_xn v) in
        let ynroot := Np.sqrt (rf_yn v) in
        let znroot := Np.sqrt (rf_zn v) in
        let lamda := xnroot *^ (ynroot +^ znroot) +^ ynroot *^ znroot in
        let xn := (rf_xn v +^ lamda) *. 0.250 in
        let yn := (rf_yn v +^ lamda) *. 0.250 in
        let zn := (rf_zn v +^ lamda) *. 0.250 in
        v' ← rf_deviations xn yn zn;
        rf_while fuel' v'
    end
  else mret v.

Definition rfpython (fuel : nat) (x y z : Np.arr) : M Np.arr :=
  v ← rf_deviations x y z;
  v ← rf_while fuel v;
  let e2 := rf_xndev v *^ rf_yndev v -^ rf_zndev v *^ rf_zndev v in
  let e3 := rf_xndev v *^ rf_yndev v *^ rf_zndev v in
  let s := 1.0 .+ (c1 .* e2 -. 0.10 -^ c2 .* e3) *^ e2 +^ c3 .* e3 in
  Np.div s (Np.sqrt (rf_mu v)).

(** The variables the loop of [rdpython] carries.  [sigma] starts as the
    scalar [0.0] and is broadcast by its first use; it is kept as the array
    of zeros that broadcasting makes of it. *)
Record rd_vars : Type := RdVars {
  rd_xn : Np.arr; rd_yn : Np.arr; rd_zn : Np.arr;
  rd_sigma : Np.arr; rd_power4 : float;
  rd_mu : Np.arr;
  rd_xndev : Np.arr; rd_yndev : Np.arr; rd_zndev : Np.arr;
  rd_epslon : float
}.

(** [mu = (xn+yn+3.0*zn)*0.20] down to [epslon = np.max([...])]. *)
Definition rd_deviations (xn yn zn sigma : Np.arr) (power4 : float) : M rd_vars :=
  let mu := (xn +^ yn +^ 3.0 .* zn) *. 0.20 in
  xndev ← Np.div (mu -^ xn) mu;
  yndev ← Np.div (mu -^ yn) mu;
  zndev ← Np.div (mu -^ zn) mu;
  epslon ← Np.max (Np.abs xndev ++ Np.abs yndev ++ Np.abs zndev);
  mret (RdVars xn yn zn sigma power4 mu xndev yndev zndev epslon).

Fixpoint rd_while (fuel : nat) (v : rd_vars) : M rd_vars :=
  if errtol <=? rd_epslon v then
    match fuel with
    | O => out_of_fuel
    | S fuel' =>
        let xnroot := Np.sqrt (rd_xn v) in
        let ynroot := Np.sqrt (rd_yn v) in
        let znroot := Np.sqrt (rd_zn v) in
        let lamda := xnroot *^ (ynroot +^ znroot) +^ ynroot *^ znroot in
        q ← Np.scalar_div (rd_power4 v) (znroot *^ (rd_zn v +^ lamda));
        let sigma := rd_sigma v +^ q in
        let power4 := rd_power4 v * 0.250 in
        let xn := (rd_xn v +^ lamda) *. 0.250 in
        let yn := (rd_yn v +^ lamda) *. 0.250 in
        let zn := (rd_zn v +^ lamda) *. 0.250 in
        v' ← rd_deviations xn yn zn sigma power4;
        rd_while fuel' v'
    end
  else mret v.

Definition rdpython (fuel : nat) (x y z : Np.arr) : M Np.arr :=
  v ← rd_deviations x y z (Np.zeros (length x)) 1.0;
  v ← rd_while fuel v;
  let zndev := rd_zndev v in
  let ea := rd_xndev v *^ rd_yndev v in
  let eb := zndev *^ zndev in
  let ec := ea -^ eb in
  let ed := ea -^ 6.0 .* eb in
  let ef := ed +^ ec +^ ec in
  let s1 := ed *^ ((- c1) .+ (0.250 * c3) .* ed -^ (1.50 * c4) .* zndev *^ ef) in
  let s2 := zndev *^ (c2 .* ef +^ zndev *^ ((- c3) .* ec +^ zndev *. c4 *^ ea)) in
  q ← Np.div (rd_power4 v .* (1.0 .+ s1 +^ s2)) (rd_mu v *^ Np.sqrt (rd_mu v));
  mret (3.0 .* rd_sigma v +^ q).

End Carlson.

(** ** Closed-form coefficients of the kurtosis measures *)

Section Coefficients.

Context (L : libm).

(** [np.logical_and.reduce(abc>0)] and [np.logical_or.reduce(abc<=0)] for
    [abc = np.array((a, b, c))]. *)
Definition all_positive (a b c : Np.arr) : Np.mask :=
  Np.logical_and (Np.logical_and (Np.gt0 a) (Np.gt0 b)) (Np.gt0 c).
Definition some_nonpositive (a b c : Np.arr) : Np.mask :=
  Np.logical_or (Np.logical_or (Np.le0 a) (Np.le0 b)) (Np.le0 c).

Definition alpha (a : Np.arr) : M Np.arr :=
  r ← Np.scalar_div 1.0 (Np.sqrt (Np.abs a));
  mret (r *^ map (arctan L) (Np.sqrt (Np.abs a))).

Definition A2233 (fuel : nat) (a b c : Np.arr) : M Np.arr :=
  let n := length a in
  Aarray ← Np.div_scalar (Np.ones n *. 1) 15.0;
  let indexesxcond1 := Np.logical_and (all_positive a b c) (Np.ne b c) in
  Aarray ←
    (if Np.any indexesxcond1 then
       let m := indexesxcond1 in
       let am := Np.take m a in
       let bm := Np.take m b in
       let cm := Np.take m c in
       q ← Np.div (Np.square (am +^ bm +^ cm)) (3 .* Np.square (bm -^ cm));
       let d := Np.put m (Np.zeros n) q in
       q ← Np.div (bm +^ cm) (Np.sqrt (bm *^ cm));
       let e := Np.put m (Np.zeros n) q in
       x ← Np.div am bm;
       y ← Np.div am cm;
       q ← rfpython L fuel x y (Np.ones (length am));
       let f := Np.put m (Np.zeros n) q in
       q ← Np.div (2 .* am -^ bm -^ cm) (3 .* Np.sqrt (bm *^ cm));
       let g := Np.put m (Np.zeros n) q in
       x ← Np.div am bm;
       y ← Np.div am cm;
       q ← rdpython L fuel x y (Np.ones (length am));
       let h := Np.put m (Np.zeros n) q in
       mret (Np.put m Aarray
               ((1 / 6.0) .* Np.take m d
                *^ (Np.take m e *^ Np.take m f +^ Np.take m g *^ Np.take m h -. 2)))
     else mret Aarray);
  let indexesxcond2 :=
    Np.logical_and (all_positive a b c) (Np.logical_and (Np.eq b c) (Np.ne a b)) in
  Aarray ←
    (if Np.any indexesxcond2 then
       let m := indexesxcond2 in
       let am := Np.take m a in
       let cm := Np.take m c in
       q ← Np.div (Np.square (am +^ 2.0 .* cm))
                  (144.0 .* Np.square cm *^ Np.square (am -^ cm));
       let d := Np.put m (Np.zeros n) q in
       let e := Np.put m (Np.zeros n) (cm *^ (am +^ 2.0 .* cm)) in
       let f := Np.put m (Np.zeros n) (am *^ (am -^ 4.0 .* cm)) in
       q ← Np.div am cm;
       q ← alpha (1.0 .- q);
       let g := Np.put m (Np.zeros n) q in
       mret (Np.put m Aarray
               (Np.take m d *^ (Np.take m e +^ Np.take m f *^ Np.take m g)))
     else mret Aarray);
  let indexesxcond3 := some_nonpositive a b c in
  mret (Np.fill indexesxcond3 Aarray 0).

Definition A1111 (fuel : nat) (a b c : Np.arr) : M Np.arr :=
  let n := length a in
  Aarray ← Np.div_scalar (Np.ones n *. 1) 5.0;
  let indexesxcond1 :=
    Np.logical_and (all_positive a b c) (Np.logical_and (Np.ne a b) (Np.ne b c)) in
  Aarray ←
    (if Np.any indexesxcond1 then
       let m := indexesxcond1 in
       let am := Np.take m a in
       let bm := Np.take m b in
       let cm := Np.take m c in
       q ← Np.div (Np.square (am +^ bm +^ cm)) (18 .* (am -^ bm) *^ (am -^ cm));
       let d := Np.put m (Np.zeros n) q in
       q ← Np.div (Np.sqrt (bm *^ cm)) am;
       let e := Np.put m (Np.zeros n) q in
       x ← Np.div am bm;
       y ← Np.div am cm;
       q ← rfpython L fuel x y (Np.ones (length am));
       let f := Np.put m (Np.zeros n) q in
       q ← Np.div (3 .* Np.square am -^ am *^ bm -^ am *^ cm -^ bm *^ cm)
                  (3 .* am *^ Np.sqrt (bm *^ cm));
       let g := Np.put m (Np.zeros n) q in
       x ← Np.div am bm;
       y ← Np.div am cm;
       q ← rdpython L fuel x y (Np.ones (length am));
       let h := Np.put m (Np.zeros n) q in
       mret (Np.put m Aarray
               (Np.take m d
                *^ (Np.take m e *^ Np.take m f +^ Np.take m g *^ Np.take m h -. 1)))
     else mret Aarray);
  let indexesxcond2 :=
    Np.logical_and (all_positive a b c) (Np.logical_and (Np.eq a b) (Np.ne b c)) in
  Aarray ←
    (if Np.any indexesxcond2 then
       dummy2 ← A2233 fuel c a a;
       mret (Np.put indexesxcond2 Aarray (3 .* Np.take indexesxcond2 dummy2))
     else mret Aarray);
  let indexesxcond3 :=
    Np.logical_and (all_positive a b c) (Np.logical_and (Np.eq a c) (Np.ne a b)) in
  Aarray ←
    (if Np.any indexesxcond3 then
       dummy3 ← A2233 fuel b a a;
       mret (Np.put indexesxcond3 Aarray (3 .* Np.take indexesxcond3 dummy3))
     else mret Aarray);
  let indexesxcond4 := some_nonpositive a b c in
  mret (Np.fill indexesxcond4 Aarray 0).

Definition C2222 (a b c : Np.arr) : M Np.arr :=
  let n := length a in
  let Carray := Np.zeros n in
  let indexesxcond1 := all_positive a b c in
  Carray ←
    (if Np.any indexesxcond1 then
       let m := indexesxcond1 in
       let am := Np.take m a in
       let bm := Np.take m b in
       q ← Np.div (Np.square (am +^ 2.0 .* bm)) (24.0 .* Np.square bm);
       mret (Np.put m Carray q)
     else mret Carray);
  let indexesxcond2 := Np.logical_and (all_positive a b c) (Np.ne b c) in
  Carray ←
    (if Np.any indexesxcond2 then
       let m := indexesxcond2 in
       let am := Np.take m a in
       let bm := Np.take m b in
       let cm := Np.take m c in
       q1 ← Np.div (Np.square (am +^ bm +^ cm))
                   (18.0 .* bm *^ Np.square (bm -^ cm));
       q2 ← Np.div (Np.square cm -^ 3.0 .* bm *^ cm) (Np.sqrt (bm *^ cm));
       mret (Np.put m Carray (q1 *^ (2.0 .* bm +^ q2)))
     else mret Carray);
  let indexesxcond3 := some_nonpositive a b c in
  mret (Np.fill indexesxcond3 Carray 0).

Definition C2233 (a b c : Np.arr) : M Np.arr :=
  let n := length a in
  let Carray := Np.zeros n in
  let indexesxcond1 := all_positive a b c in
  Carray ←
    (if Np.any indexesxcond1 then
       let m := indexesxcond1 in
       let am := Np.take m a in
       let bm := Np.take m b in
       q ← Np.div (Np.square (am +^ 2.0 .* bm)) (12.0 .* Np.square bm);
       mret (Np.put m Carray q)
     else mret Carray);
  let indexesxcond2 := Np.logical_and (all_positive a b c) (Np.ne b c) in
  Carray ←
    (if Np.any indexesxcond2 then
       let m := indexesxcond2 in
       let am := Np.take m a in
       let bm := Np.take m b in
       let cm := Np.take m c in
       q1 ← Np.div (Np.square (am +^ bm +^ cm)) (3.0 .* Np.square (bm -^ cm));
       q2 ← Np.div (bm +^ cm) (Np.sqrt (bm *^ cm));
       mret (Np.put m Carray (q1 *^ (q2 -. 2.0)))
     else mret Carray);
  let indexesxcond3 := some_nonpositive a b c in
  mret (Np.fill indexesxcond3 Carray 0).

Definition F1m (fuel : nat) (a b c : Np.arr) : M Np.arr :=
  A1111 fuel a b c.

Definition F2m (fuel : nat) (a b c : Np.arr) : M Np.arr :=
  A ← A2233 fuel a b c; mret (6 .* A).

Definition G1m (a b c : Np.arr) : M Np.arr :=
  C2222 a b c.

Definition G2m (a b c : Np.arr) : M Np.arr :=
  C ← C2233 a b c; mret (6 .* C).

End Coefficients.

(** ** The kurtosis tensor *)

(** A dense 3 x 3 x 3 x 3 array and its element access. *)
Abbreviation tensor4 := (list (list (list (list float)))).

Definition zeros4 : tensor4 :=
  replicate 3 (replicate 3 (replicate 3 (replicate 3 0))).

(** [W[i][j][k][l]] *)
Definition getitem4 (W : tensor4) (i j k l : nat) : M float :=
  Wi ← getitem W i; Wij ← getitem Wi j; Wijk ← getitem Wij k; getitem Wijk l.

(** [W[i][j][k][l] = v], for indices in range. *)
Definition setitem4 (W : tensor4) (i j k l : nat) (v : float) : tensor4 :=
  alter (alter (alter (<[l := v]>) k) j) i W.

(** The dictionary of [Wcons]: every key is given [k_elements[0]]. *)
Definition indep_ele (k_elements : Np.arr) : M (gmap nat float) :=
  e1 ← getitem k_elements 0;
  e16 ← getitem k_elements 0;
  e81 ← getitem k_elements 0;
  e2 ← getitem k_elements 0;
  e3 ← getitem k_elements 0;
  e8 ← getitem k_elements 0;
  e24 ← getitem k_elements 0;
  e27 ← getitem k_elements 0;
  e54 ← getitem k_elements 0;
  e4 ← getitem k_elements 0;
  e9 ← getitem k_elements 0;
  e36 ← getitem k_elements 0;
  e6 ← getitem k_elements 0;
  e12 ← getitem k_elements 0;
  e18 ← getitem k_elements 0;
  mret (<[18%nat := e18]> (<[12%nat := e12]> (<[6%nat := e6]>
       (<[36%nat := e36]> (<[9%nat := e9]> (<[4%nat := e4]>
       (<[54%nat := e54]> (<[27%nat := e27]> (<[24%nat := e24]>
       (<[8%nat := e8]> (<[3%nat := e3]> (<[2%nat := e2]>
       (<[81%nat := e81]> (<[16%nat := e16]> (<[1%nat := e1]> ∅))))))))))))))).

(** [d[key]] *)
Definition dict_get (d : gmap nat float) (key : nat) : M float :=
  match d !! key with
  | Some v => mret v
  | None => raise (KeyError (Z.of_nat key))
  end.

Definition xyz : list nat := [0; 1; 2]%nat.

Definition Wcons (k_elements : Np.arr) : M tensor4 :=
  indep_ele ← indep_ele k_elements;
  let W := zeros4 in
  for_each xyz (fun W ind_i =>
    for_each xyz (fun W ind_j =>
      for_each xyz (fun W ind_k =>
        for_each xyz (fun W ind_l =>
          let key := ((ind_i + 1) * (ind_j + 1) * (ind_k + 1) * (ind_l + 1))%nat in
          v ← dict_get indep_ele key;
          mret (setitem4 W ind_i ind_j ind_k ind_l v)) W) W) W) W.

(** The accumulator of [_Wrotate_element]: the integer [0] at first, an
    array as soon as a row of the basis has been added to it. *)
Inductive value : Type :=
| Scalar (x : float)
| Vector (xs : Np.arr).

Definition value_add (w : value) (v : Np.arr) : value :=
  match w with
  | Scalar x => Vector (x .+ v)
  | Vector xs => Vector (xs +^ v)
  end.

(** [xs * x] for a Python list [xs] and a float [x]: a list is repeated
    by an integer only. *)
Definition list_times_float (xs : list nat) (x : float) : M Np.arr :=
  raise (TypeError "can't multiply sequence by non-int of type 'numpy.float64'").

(** The statement of the innermost loop is broken over two lines without a
    continuation: the first line adds a multiple of the whole row
    [Basis[ind_k]], the second is an expression of its own, which starts
    with the list [[kl]] times the float [Basis[ind_l][ll]] and raises. *)
Definition _Wrotate_element (W4D : tensor4) (ind_i ind_j ind_k ind_l : nat)
    (Basis : list Np.arr) : M value :=
  let Wre := Scalar 0 in
  for_each (seq 0 3) (fun Wre il =>
    for_each (seq 0 3) (fun Wre jl =>
      for_each (seq 0 3) (fun Wre kl =>
        for_each (seq 0 3) (fun Wre ll =>
          Bi ← getitem Basis ind_i; bi ← getitem Bi il;
          Bj ← getitem Basis ind_j; bj ← getitem Bj jl;
          Bk ← getitem Basis ind_k;
          let Wre := value_add Wre ((bi * bj) .* Bk) in
          Bl ← getitem Basis ind_l; bl ← getitem Bl ll;
          p ← list_times_float [kl] bl;
          w ← getitem4 W4D ind_i ind_j ind_k ind_l;
          let _ := p *. w in
          mret Wre) Wre) Wre) Wre) Wre.

(** The [inds] argument of [Wrotate]: the callers pass a Python list of
    four indices, the default is an integer array of quadruples. *)
Inductive inds_arg : Type :=
| IndsList (q : list nat)
| IndsArray (rows : list (list nat)).

Definition default_inds : inds_arg :=
  IndsArray [[0; 0; 0; 0]; [1; 1; 1; 1]; [2; 2; 2; 2];
             [0; 0; 0; 1]; [0; 0; 0; 2]; [0; 1; 1; 1];
             [1; 1; 1; 2]; [0; 2; 2; 2]; [1; 2; 2; 2];
             [0; 0; 1; 1]; [0; 0; 2; 2]; [1; 1; 2; 2];
             [0; 0; 1; 2]; [0; 1; 1; 2]; [0; 1; 2; 2]]%nat.

Definition inds_len (inds : inds_arg) : nat :=
  match inds with
  | IndsList q => length q
  | IndsArray rows => length rows
  end.

(** [range(inds)]: [range] wants an integer and is given the index set. *)
Definition inds_range (inds : inds_arg) : M (list nat) :=
  match inds with
  | IndsList _ => raise (TypeError "'list' object cannot be interpreted as an integer")
  | IndsArray _ => raise (TypeError "only integer scalar arrays can be converted to a scalar index")
  end.

(** [inds[e][p]] *)
Definition inds_get (inds : inds_arg) (e p : nat) : M nat :=
  match inds with
  | IndsList q => _ ← getitem q e; raise (TypeError "'int' object is not subscriptable")
  | IndsArray rows => row ← getitem rows e; getitem row p
  end.

(** [Wrot[e] = w] *)
Definition setitem_value (Wrot : Np.arr) (e : nat) (w : value) : M Np.arr :=
  match w with
  | Scalar x | Vector [x] =>
      if decide (e < length Wrot)%nat then mret (<[e := x]> Wrot) else raise IndexError
  | Vector _ => raise (ValueError "setting an array element with a sequence.")
  end.

Definition Wrotate (kt : Np.arr) (Basis : list Np.arr) (inds : option inds_arg)
    : M Np.arr :=
  let inds := match inds with None => default_inds | Some i => i end in
  let Wrot := Np.zeros (inds_len inds) in
  W4D ← Wcons kt;
  es ← inds_range inds;
  for_each es (fun Wrot e =>
    i ← inds_get inds e 0; j ← inds_get inds e 1;
    k ← inds_get inds e 2; l ← inds_get inds e 3;
    w ← _Wrotate_element W4D i j k l Basis;
    setitem_value Wrot e w) Wrot.

(** ** Kurtosis measures *)

(** What the measures are handed at run time: arrays of one, two or three
    dimensions, and the strings [split_dki_param] puts in their place. *)
Inductive pyval : Type :=
| PStr (s : string)
| PVec (v : Np.arr)
| PMat (rows : list Np.arr)
| PTen (mats : list (list Np.arr)).

(** [len(v)] *)
Definition py_len (v : pyval) : nat :=
  match v with
  | PStr s => String.length s
  | PVec v => length v
  | PMat rows => length rows
  | PTen mats => length mats
  end.

(** [v[i]] read as the 15 kurtosis elements and as a 3 x 3 basis. *)
Definition py_row (v : pyval) (i : nat) : M Np.arr :=
  match v with
  | PMat rows => getitem rows i
  | PStr _ => raise (ValueError "could not convert string to float")
  | _ => raise (TypeError "object has no len()")
  end.
Definition py_basis (v : pyval) (i : nat) : M (list Np.arr) :=
  match v with
  | PTen mats => getitem mats i
  | PStr _ => raise (TypeError "string indices must be integers")
  | _ => raise (IndexError)
  end.

(** [v[..., k]]: column [k] of an array with one row per voxel. *)
Definition py_col (v : pyval) (k : nat) : M Np.arr :=
  match v with
  | PMat rows => for_each rows (fun acc row => x ← getitem row k; mret (acc ++ [x])) []
  | PVec v => x ← getitem v k; mret [x]
  | PStr _ => raise (TypeError "string indices must be integers")
  | PTen _ => raise (ValueError "operands could not be broadcast together")
  end.

(** [np.zeros(shape, dtype)]: the second positional argument is the data
    type, and an integer is none. *)
Inductive dtype_arg : Type :=
| Float64
| IntObject (n : Z).

Definition np_zeros (n : nat) (dtype : dtype_arg) : M Np.arr :=
  match dtype with
  | Float64 => mret (Np.zeros n)
  | IntObject _ => raise (TypeError "Cannot interpret '15' as a data type")
  end.

Definition split_dki_param (dki_params : pyval) : pyval * pyval * pyval :=
  let evals := PStr "WIP1" in
  let evecs := PStr "WIP2" in
  let kt := PStr "WIP3" in
  (evals, evecs, kt).

(** [Wxxxx[vox] = Wrotate(...)]: an array stored into one element. *)
Definition setitem_array (W : Np.arr) (vox : nat) (w : Np.arr) : M Np.arr :=
  setitem_value W vox (Vector w).

Section Measures.

Context (L : libm).

(** The statements under [# Compute MK].  The sum of the docstring is
    written over six lines with no continuation: the assignment ends on
    its first line, and each further line is an expression statement,
    evaluated and dropped. *)
Definition mean_kurtosis_MK (fuel : nat) (evals : pyval)
    (Wxxxx Wyyyy Wzzzz Wxxyy Wxxzz Wyyzz : Np.arr) : M Np.arr :=
  e0 ← py_col evals 0; e1 ← py_col evals 1; e2 ← py_col evals 2;
  F ← F1m L fuel e0 e1 e2;
  let MeanKurt := F *^ Wxxxx in
  e1 ← py_col evals 1; e0 ← py_col evals 0; e2 ← py_col evals 2;
  F ← F1m L fuel e1 e0 e2;
  let _ := F *^ Wyyyy in
  e2 ← py_col evals 2; e1 ← py_col evals 1; e0 ← py_col evals 0;
  F ← F1m L fuel e2 e1 e0;
  let _ := F *^ Wzzzz in
  e0 ← py_col evals 0; e1 ← py_col evals 1; e2 ← py_col evals 2;
  F ← F2m L fuel e0 e1 e2;
  let _ := F *^ Wyyzz in
  e1 ← py_col evals 1; e0 ← py_col evals 0; e2 ← py_col evals 2;
  F ← F2m L fuel e1 e0 e2;
  let _ := F *^ Wxxzz in
  e2 ← py_col evals 2; e1 ← py_col evals 1; e0 ← py_col evals 0;
  F ← F2m L fuel e2 e1 e0;
  let _ := F *^ Wxxyy in
  mret MeanKurt.

(** One pass of [for vox in range(len(kt))]. *)
Definition mean_kurtosis_vox (evecs kt : pyval)
    (W : Np.arr * Np.arr * Np.arr * Np.arr * Np.arr * Np.arr) (vox : nat)
    : M (Np.arr * Np.arr * Np.arr * Np.arr * Np.arr * Np.arr) :=
  let '(Wxxxx, Wyyyy, Wzzzz, Wxxyy, Wxxzz, Wyyzz) := W in
  let rotate (q : list nat) : M Np.arr :=
    k ← py_row kt vox; B ← py_basis evecs vox; Wrotate k B (Some (IndsList q)) in
  w ← rotate [0; 0; 0; 0]%nat; Wxxxx ← setitem_array Wxxxx vox w;
  w ← rotate [1; 1; 1; 1]%nat; Wyyyy ← setitem_array Wyyyy vox w;
  w ← rotate [2; 2; 2; 2]%nat; Wzzzz ← setitem_array Wzzzz vox w;
  w ← rotate [0; 0; 1; 1]%nat; Wxxyy ← setitem_array Wxxyy vox w;
  w ← rotate [0; 0; 2; 2]%nat; Wxxzz ← setitem_array Wxxzz vox w;
  w ← rotate [1; 1; 2; 2]%nat; Wyyzz ← setitem_array Wyyzz vox w;
  mret (Wxxxx, Wyyyy, Wzzzz, Wxxyy, Wxxzz, Wyyzz).

(** [split_dki_param] hands back its three placeholder strings, and the
    first [np.zeros(len(kt), 15)] raises: the statements after it are
    written out as the source has them and are never reached. *)
Definition mean_kurtosis (fuel : nat) (dki_params : pyval) : M Np.arr :=
  let '(evals, evecs, kt) := split_dki_param dki_params in
  Wxxxx ← np_zeros (py_len kt) (IntObject 15);
  Wyyyy ← np_zeros (py_len kt) (IntObject 15);
  Wzzzz ← np_zeros (py_len kt) (IntObject 15);
  Wxxyy ← np_zeros (py_len kt) (IntObject 15);
  Wxxzz ← np_zeros (py_len kt) (IntObject 15);
  Wyyzz ← np_zeros (py_len kt) (IntObject 15);
  '(Wxxxx, Wyyyy, Wzzzz, Wxxyy, Wxxzz, Wyyzz) ←
    for_each (seq 0 (py_len kt)) (mean_kurtosis_vox evecs kt)
             (Wxxxx, Wyyyy, Wzzzz, Wxxyy, Wxxzz, Wyyzz);
  mean_kurtosis_MK fuel evals Wxxxx Wyyyy Wzzzz Wxxyy Wxxzz Wyyzz.

(** [Wrotat[..., 1]] is read twice: [W_zzzz] is given the element at
    position 1 and position 2 is not read. *)
Definition radial_kurtosis (evals Wrotat : pyval) : M Np.arr :=
  W_xxxx ← py_col Wrotat 0;
  W_yyyy ← py_col Wrotat 1;
  W_zzzz ← py_col Wrotat 1;
  W_xxyy ← py_col Wrotat 3;
  W_xxzz ← py_col Wrotat 4;
  W_yyzz ← py_col Wrotat 5;
  e0 ← py_col evals 0; e1 ← py_col evals 1; e2 ← py_col evals 2;
  G1 ← G1m e0 e1 e2;
  e0 ← py_col evals 0; e2 ← py_col evals 2; e1 ← py_col evals 1;
  G1' ← G1m e0 e2 e1;
  e0 ← py_col evals 0; e1 ← py_col evals 1; e2 ← py_col evals 2;
  G2 ← G2m e0 e1 e2;
  let RadKurt := G1 *^ W_yyyy +^ G1' *^ W_zzzz +^ G2 *^ W_yyzz in
  mret RadKurt.

End Measures.

(** ** Least-squares fits *)

(** Matrices are lists of rows. *)
Module Linalg.

Abbreviation matrix := (list Np.arr).

Fixpoint map_M {A B} (f : A -> M B) (xs : list A) : M (list B) :=
  match xs with
  | [] => mret []
  | x :: xs' => y ← f x; ys ← map_M f xs'; mret (y :: ys)
  end.

Definition shape_error {A} : M A :=
  raise (ValueError "shapes not aligned").

(** [np.dot] of two vectors, of a matrix and a vector, of two matrices. *)
Definition dot_vv (u v : Np.arr) : M float :=
  if decide (length u = length v)
  then mret (fold_left PrimFloat.add (zip_with PrimFloat.mul u v) 0)
  else shape_error.
Definition dot_mv (A : matrix) (v : Np.arr) : M Np.arr :=
  map_M (fun row => dot_vv row v) A.
Definition transpose (A : matrix) : matrix :=
  match A with
  | [] => []
  | r :: _ => map (fun j => map (fun row => nth j row 0) A) (seq 0 (length r))
  end.
Definition dot_mm (A B : matrix) : M matrix :=
  map_M (fun row => dot_mv (transpose B) row) A.

(** [np.diag] of a vector. *)
Definition diag (v : Np.arr) : matrix :=
  imap (fun i x => <[i := x]> (Np.zeros (length v))) v.

(** [a.mean(0)] of a vector: the sum from its first element on, over the
    number of elements. *)
Definition mean (a : Np.arr) : M float :=
  Np.fdiv (match a with [] => 0 | x :: a' => fold_left PrimFloat.add a' x end)
          (PrimFloat.of_uint63 (Uint63.of_Z (Z.of_nat (length a)))).

(** [a[i:j]] for [0 <= i <= j]. *)
Definition slice {A} (i j : nat) (a : list A) : list A :=
  take (j - i) (drop i a).

End Linalg.

Section Fits.

Import Linalg.

Context (L : libm).

(** What the fits call outside this module: [np.linalg.pinv], and
    [from_lower_triangular] and [decompose_tensor] of [dipy.reconst.dti]
    ([None] when the call fails: the eigensolver and the singular value
    decomposition raise [LinAlgError], the index map an [IndexError]). *)
Context (pinv : matrix -> option matrix).
Context (from_lower_triangular : Np.arr -> option matrix).
Context (decompose_tensor : matrix -> float -> option (Np.arr * matrix)).

Definition external {A} (e : exn) (r : option A) : M A :=
  match r with
  | Some a => mret a
  | None => raise e
  end.

(** [MD_square = (evals.mean(0))**2] raises a numpy scalar to the power 2,
    which goes through the C library. *)
Definition _ols_iter (inv_design : matrix) (sig : Np.arr)
    (min_signal min_diffusivity : float) : M Np.arr :=
  let sig := map (fun x => Np.maximum x min_signal) sig in
  let log_s := map (log L) sig in
  result ← dot_mv inv_design log_s;
  let DT_elements := slice 0 6 result in
  tensor ← external IndexError (from_lower_triangular DT_elements);
  '(evals, evecs) ← external LinAlgError (decompose_tensor tensor min_diffusivity);
  m ← mean evals;
  let MD_square := pow L m 2 in
  KT_elements ← Np.div_scalar (slice 6 21 result) MD_square;
  evecs0 ← getitem evecs 0;
  evecs1 ← getitem evecs 1;
  evecs2 ← getitem evecs 2;
  let dki_params := evals ++ evecs0 ++ evecs1 ++ evecs2 ++ KT_elements in
  mret dki_params.

Definition _wls_iter (design_matrix inv_design : matrix) (sig : Np.arr)
    (min_signal min_diffusivity : float) : M Np.arr :=
  let A := design_matrix in
  let sig := map (fun x => Np.maximum x min_signal) sig in
  let log_s := map (log L) sig in
  ols_result ← dot_mv inv_design log_s;
  y ← dot_mv A ols_result;
  let W := diag (map (exp L) (2 .* y)) in
  ATW ← dot_mm (transpose A) W;
  ATWA ← dot_mm ATW A;
  inv_AT_W_A ← external LinAlgError (pinv ATWA);
  ATW ← dot_mm (transpose A) W;
  AT_W_LS ← dot_mv ATW log_s;
  wls_result ← dot_mv inv_AT_W_A AT_W_LS;
  let DT_elements := slice 0 6 wls_result in
  tensor ← external IndexError (from_lower_triangular DT_elements);
  '(evals, evecs) ← external LinAlgError (decompose_tensor tensor min_diffusivity);
  m ← mean evals;
  let MD_square := pow L m 2 in
  KT_elements ← Np.div_scalar (slice 6 21 wls_result) MD_square;
  evecs0 ← getitem evecs 0;
  evecs1 ← getitem evecs 1;
  evecs2 ← getitem evecs 2;
  let dki_params := evals ++ evecs0 ++ evecs1 ++ evecs2 ++ KT_elements in
  mret dki_params.

(** [dki_params[vox] = row] into the [(n, 27)] array of the result: a row
    of 27, or of one element that numpy repeats. *)
Definition store_row (dki_params : matrix) (row : Np.arr) : M matrix :=
  match row with
  | [x] => mret (dki_params ++ [replicate 27 x])
  | _ => if decide (length row = 27%nat) then mret (dki_params ++ [row])
         else raise (ValueError "could not broadcast input array")
  end.

(** [data] is taken flat, one row of signals per voxel, as
    [data.reshape((-1, data.shape[-1]))] makes it.  The rows stand for an
    array of at least one dimension whose last axis is not empty: on any
    other array the reshape, which comes after the guard on [min_signal]
    and before [design_matrix.min()], raises, and the fits are not
    described by these definitions. *)
Definition ols_fit_dki (design_matrix data_flat : matrix) (min_signal : float)
    : M matrix :=
  let tol := 1e-6 in
  if min_signal <=? 0 then raise (ValueError "min_signal must be > 0") else
  m ← Np.min (concat design_matrix);
  min_diffusivity ← Np.fdiv tol (- m);
  inv_design ← external LinAlgError (pinv design_matrix);
  for_each data_flat (fun dki_params sig =>
    row ← _ols_iter inv_design sig min_signal min_diffusivity;
    store_row dki_params row) [].

Definition wls_fit_dki (design_matrix data_flat : matrix) (min_signal : float)
    : M matrix :=
  let tol := 1e-6 in
  if min_signal <=? 0 then raise (ValueError "min_signal must be > 0") else
  m ← Np.min (concat design_matrix);
  min_diffusivity ← Np.fdiv tol (- m);
  inv_design ← external LinAlgError (pinv design_matrix);
  for_each data_flat (fun dki_params sig =>
    row ← _wls_iter design_matrix inv_design sig min_signal min_diffusivity;
    store_row dki_params row) [].

End Fits.

(** ** The rest of the module *)

(** The key of [Wcons]: [(ind_i+1) * (ind_j+1) * (ind_k+1) * (ind_l+1)]. *)
Definition index_key (ind_i ind_j ind_k ind_l : nat) : nat :=
  ((ind_i + 1) * (ind_j + 1) * (ind_k + 1) * (ind_l + 1))%nat.

(** [axial_kurtosis], for [evals] and [Wrotat] with one row per voxel.  The
    six elements are unpacked as in [radial_kurtosis]; only [W_xxxx] is
    used. *)
Definition axial_kurtosis (evals Wrotat : Linalg.matrix) : M Np.arr :=
  W_xxxx ← py_col (PMat Wrotat) 0;
  W_yyyy ← py_col (PMat Wrotat) 1;
  W_zzzz ← py_col (PMat Wrotat) 1;
  W_xxyy ← py_col (PMat Wrotat) 3;
  W_xxzz ← py_col (PMat Wrotat) 4;
  W_yyzz ← py_col (PMat Wrotat) 5;
  e0 ← py_col (PMat evals) 0;
  e1 ← py_col (PMat evals) 1;
  e2 ← py_col (PMat evals) 2;
  e0' ← py_col (PMat evals) 0;
  q ← Np.div (Np.square (e0 +^ e1 +^ e2)) (9 .* Np.square e0');
  let AxialKurt := q *^ W_xxxx in
  mret AxialKurt.

(** One measurement of a gradient table: its b-value and the three
    components of its b-vector.  The table of [dipy.core.gradients] keeps
    [bvals] of shape (N,) and [bvecs] of shape (N, 3). *)
Record measurement : Type := Measurement {
  bval : float;
  bvec0 : float;
  bvec1 : float;
  bvec2 : float
}.

Abbreviation gradient_table := (list measurement).

(** [B[:, k] = v] *)
Definition set_col (B : Linalg.matrix) (k : nat) (v : Np.arr) : Linalg.matrix :=
  zip_with (fun row x => <[k := x]> row) B v.

(** [-b] *)
Definition np_neg (a : Np.arr) : Np.arr := map PrimFloat.opp a.

Section DesignMatrix.

Context (L : libm).

(** [a**3] and [a**4] on an array: the power of the C library, element by
    element. *)
Definition np_power (a : Np.arr) (n : float) : Np.arr :=
  map (fun x => pow L x n) a.

Definition dki_design_matrix (gtab : gradient_table) : M Linalg.matrix :=
  let b := map bval gtab in
  let bvec_0 := map bvec0 gtab in
  let bvec_1 := map bvec1 gtab in
  let bvec_2 := map bvec2 gtab in
  let B := replicate (length b) (Np.zeros 22) in
  let B := set_col B 0 (np_neg b *^ bvec_0 *^ bvec_0) in
  let B := set_col B 1 ((-2) .* b *^ bvec_0 *^ bvec_1) in
  let B := set_col B 2 (np_neg b *^ bvec_1 *^ bvec_1) in
  let B := set_col B 3 ((-2) .* b *^ bvec_0 *^ bvec_2) in
  let B := set_col B 4 ((-2) .* b *^ bvec_1 *^ bvec_2) in
  let B := set_col B 5 (np_neg b *^ bvec_2 *^ bvec_2) in
  q ← Np.div_scalar (b *^ b *^ np_power bvec_0 4) 6;
  let B := set_col B 6 q in
  q ← Np.div_scalar (b *^ b *^ np_power bvec_1 4) 6;
  let B := set_col B 7 q in
  q ← Np.div_scalar (b *^ b *^ np_power bvec_2 4) 6;
  let B := set_col B 8 q in
  q ← Np.div_scalar (4 .* b *^ b *^ np_power bvec_0 3 *^ bvec_1) 6;
  let B := set_col B 9 q in
  q ← Np.div_scalar (4 .* b *^ b *^ np_power bvec_0 3 *^ bvec_2) 6;
  let B := set_col B 10 q in
  q ← Np.div_scalar (4 .* b *^ b *^ np_power bvec_1 3 *^ bvec_0) 6;
  let B := set_col B 11 q in
  q ← Np.div_scalar (4 .* b *^ b *^ np_power bvec_1 3 *^ bvec_2) 6;
  let B := set_col B 12 q in
  q ← Np.div_scalar (4 .* b *^ b *^ np_power bvec_2 3 *^ bvec_0) 6;
  let B := set_col B 13 q in
  q ← Np.div_scalar (4 .* b *^ b *^ np_power bvec_2 3 *^ bvec_1) 6;
  let B := set_col B 14 q in
  let B := set_col B 15 (b *^ b *^ Np.square bvec_0 *^ Np.square bvec_1) in
  let B := set_col B 16 (b *^ b *^ Np.square bvec_0 *^ Np.square bvec_2) in
  let B := set_col B 17 (b *^ b *^ Np.square bvec_1 *^ Np.square bvec_2) in
  let B := set_col B 18 (2 .* b *^ b *^ Np.square bvec_0 *^ bvec_1 *^ bvec_2) in
  let B := set_col B 19 (2 .* b *^ b *^ Np.square bvec_1 *^ bvec_0 *^ bvec_2) in
  let B := set_col B 20 (2 .* b *^ b *^ Np.square bvec_2 *^ bvec_0 *^ bvec_1) in
  let B := set_col B 21 (Np.ones (length b)) in
  mret B.

End DesignMatrix.

(** ** The tensor [ambiguous_function_decompose_tensors] writes out *)

(** Unpacking into a list of names a sequence of another length. *)
Definition unpack_error {A} (expected got : nat) : M A :=
  if decide (got < expected)%nat
  then raise (ValueError ("not enough values to unpack (expected "
                          +:+ pretty expected +:+ ", got " +:+ pretty got +:+ ")"))
  else raise (ValueError ("too many values to unpack (expected "
                          +:+ pretty expected +:+ ")")).

(** [W[q1] = W[q2] = ... = v]: the targets of a chained assignment are
    stored from left to right. *)
Definition setitems4 (W : tensor4) (targets : list (nat * nat * nat * nat))
    (v : float) : tensor4 :=
  fold_left (fun W '(i, j, k, l) => setitem4 W i j k l v) targets W.

(** The statements of [ambiguous_function_decompose_tensors] from the
    unpacking of [K_tensor_elements] to the last assignment into [Wfit].
    (The function goes on to call [rotatew], a name the module does not
    define.) *)
Definition ambiguous_function_decompose_tensors_Wfit
    (K_tensor_elements : Np.arr) : M tensor4 :=
  match K_tensor_elements with
  | [Wxxxx; Wyyyy; Wzzzz; Wxxxy; Wxxxz; Wxyyy; Wyyyz; Wxzzz; Wyzzz;
     Wxxyy; Wxxzz; Wyyzz; Wxxyz; Wxyyz; Wxyzz] =>
    let Wrot := zeros4 in
    let Wfit := zeros4 in
    let Wfit := setitem4 Wfit 0 0 0 0 Wxxxx in
    let Wfit := setitem4 Wfit 1 1 1 1 Wyyyy in
    let Wfit := setitem4 Wfit 2 2 2 2 Wzzzz in
    let Wfit := setitems4 Wfit
      [(0,0,0,1); (0,0,1,0); (0,1,0,0); (1,0,0,0)]%nat Wxxxy in
    let Wfit := setitems4 Wfit
      [(0,0,0,2); (0,0,2,0); (0,2,0,0); (2,0,0,0)]%nat Wxxxz in
    let Wfit := setitems4 Wfit
      [(1,2,2,2); (2,2,2,1); (2,1,2,2); (2,2,1,2)]%nat Wyzzz in
    let Wfit := setitems4 Wfit
      [(0,2,2,2); (2,2,2,0); (2,0,2,2); (2,2,0,2)]%nat Wxzzz in
    let Wfit := setitems4 Wfit
      [(0,1,1,1); (1,0,1,1); (1,1,1,0); (1,1,0,1)]%nat Wxyyy in
    let Wfit := setitems4 Wfit
      [(1,1,1,2); (1,2,1,1); (2,1,1,1); (1,1,2,1)]%nat Wyyyz in
    let Wfit := setitems4 Wfit
      [(0,0,1,1); (0,1,0,1); (0,1,1,0); (1,0,0,1); (1,0,1,0); (1,1,0,0)]%nat
      Wxxyy in
    let Wfit := setitems4 Wfit
      [(0,0,2,2); (0,2,0,2); (0,2,2,0); (2,0,0,2); (2,0,2,0); (2,2,0,0)]%nat
      Wxxzz in
    let Wfit := setitems4 Wfit
      [(1,1,2,2); (1,2,1,2); (1,2,2,1); (2,1,1,2); (2,2,1,1); (2,1,2,1)]%nat
      Wyyzz in
    let Wfit := setitems4 Wfit
      [(0,0,1,2); (0,0,2,1); (0,1,0,2); (0,1,2,0); (0,2,0,1); (0,2,1,0);
       (1,0,0,2); (1,0,2,0); (1,2,0,0); (2,0,0,1); (2,0,1,0); (2,1,0,0)]%nat
      Wxxyz in
    let Wfit := setitems4 Wfit
      [(0,1,1,2); (0,1,2,1); (0,2,1,1); (1,0,1,2); (1,1,0,2); (1,1,2,0);
       (1,2,0,1); (1,2,1,0); (2,0,1,1); (2,1,0,1); (2,1,1,0); (1,0,2,1)]%nat
      Wxyyz in
    let Wfit := setitems4 Wfit
      [(0,1,2,2); (0,2,1,2); (0,2,2,1); (1,0,2,2); (1,2,0,2); (1,2,2,0);
       (2,0,1,2); (2,0,2,1); (2,1,0,2); (2,1,2,0); (2,2,0,1); (2,2,1,0)]%nat
      Wxyzz in
    mret Wfit
  | _ => unpack_error 15 (length K_tensor_elements)
  end.

(** ** Arrays of any shape *)

(** An array as numpy lays it out: the shape, and the elements in
    row-major order ([nd_size] of the shape of them). *)
Record ndarray : Type := NdArray { nd_shape : list nat; nd_data : Np.arr }.

Definition nd_size (sh : list nat) : nat := foldr Nat.mul 1%nat sh.

(** [a.shape[-k]] for [k >= 1]. *)
Definition shape_from_end (a : ndarray) (k : nat) : M nat :=
  match reverse (nd_shape a) !! (k - 1)%nat with
  | Some n => mret n
  | None => raise IndexError
  end.

(** The first [n] runs of [w] elements. *)
Fixpoint chunks {A} (n w : nat) (a : list A) : list (list A) :=
  match n with
  | O => []
  | S n' => take w a :: chunks n' w (drop w a)
  end.

(** [a[..., lo:hi]], with [hi = None] for [a[..., lo:]]; an array of no
    dimension has no axis to slice. *)
Definition slice_last (a : ndarray) (lo : nat) (hi : option nat) : M ndarray :=
  match last (nd_shape a) with
  | None => raise IndexError
  | Some w =>
    let hi := match hi with Some h => Nat.min h w | None => w end in
    let lo := Nat.min lo w in
    let lead := removelast (nd_shape a) in
    mret (NdArray (lead ++ [hi - lo]%nat)
            (concat (map (Linalg.slice lo hi)
                         (chunks (nd_size lead) w (nd_data a)))))
  end.

(** [a.reshape(sh)] and [a.reshape((-1, w))]: numpy infers the unknown
    length only when the known ones have a product that is not zero and
    divides the size. *)
Definition np_reshape (a : ndarray) (sh : list nat) : M ndarray :=
  if decide (nd_size sh = nd_size (nd_shape a))
  then mret (NdArray sh (nd_data a))
  else raise (ValueError "cannot reshape array").
Definition reshape_rows (a : ndarray) (w : nat) : M Linalg.matrix :=
  let n := nd_size (nd_shape a) in
  if decide (w = 0 \/ n mod w <> 0)%nat
  then raise (ValueError "cannot reshape array")
  else mret (chunks (n / w) w (nd_data a)).

(** Position of an index in row-major order, and back. *)
Definition ravel (sh idx : list nat) : nat :=
  fold_left (fun p '(n, i) => (p * n + i)%nat) (zip sh idx) 0%nat.
Fixpoint unravel_from_last (rsh : list nat) (p : nat) : list nat :=
  match rsh with
  | [] => []
  | n :: rsh' => (p mod n)%nat :: unravel_from_last rsh' (p / n)%nat
  end.
Definition unravel (sh : list nat) (p : nat) : list nat :=
  reverse (unravel_from_last (reverse sh) p).

(** [np.rollaxis(a, axis)]: the axis, counted from the end when negative,
    is moved to the front. *)
Definition np_rollaxis (a : ndarray) (axis : Z) : M ndarray :=
  let n := Z.of_nat (length (nd_shape a)) in
  if decide (- n <= axis < n)%Z then
    let ax := Z.to_nat (if decide (axis < 0)%Z then axis + n else axis)%Z in
    let sh := nd_shape a in
    let sh' := nth ax sh 0%nat :: delete ax sh in
    mret (NdArray sh'
            (map (fun p =>
                    match unravel sh' p with
                    | i :: rest =>
                        nth (ravel sh (take ax rest ++ i :: drop ax rest))
                            (nd_data a) 0
                    | [] => 0
                    end)
                 (seq 0 (nd_size sh'))))
  else raise (ValueError "axis is out of bounds for array").

(** The check compares the length of the last axis with 3, the message
    names 6. *)
Definition _roll_Wrotat (Wrotat : ndarray) (axis : Z) : M ndarray :=
  n ← shape_from_end Wrotat 1;
  if decide (n <> 3%nat) then
    let msg := "Expecting 6 W tensor values, got " +:+ pretty n in
    raise (ValueError msg)
  else
    Wrotat ← np_rollaxis Wrotat axis;
    mret Wrotat.

(** ** The predicted signal *)

(** The double quote of Python's messages. *)
Definition dquote : string :=
  String (Ascii.Ascii false true false false false true false false) EmptyString.

(** [t + n] for a tuple [t] and an integer [n]. *)
Definition tuple_add_int (t : list nat) (n : nat) : M (list nat) :=
  raise (TypeError ("can only concatenate tuple (not " +:+ dquote +:+ "int"
                    +:+ dquote +:+ ") to tuple")).

(** [np.dot] of a vector and a matrix. *)
Definition dot_vm (v : Np.arr) (A : Linalg.matrix) : M Np.arr :=
  if decide (length v = length A)
  then Linalg.dot_mv (Linalg.transpose A) v
  else Linalg.shape_error.

(** [a[v] = row]: a row of the length of [a[v]], or of one element that
    numpy repeats. *)
Definition setitem_row (a : Linalg.matrix) (v : nat) (row : Np.arr)
    : M Linalg.matrix :=
  old ← getitem a v;
  match row with
  | [x] => mret (<[v := replicate (length old) x]> a)
  | _ => if decide (length row = length old) then mret (<[v := row]> a)
         else raise (ValueError "could not broadcast input array")
  end.

Section Prediction.

(** What the prediction calls outside this module: [lower_triangular] of
    [dipy.reconst.dti] and [DKI_signal] of [dipy.sims.voxel], which return
    or raise. *)
Context (lower_triangular : float -> exn + Np.arr).
Context (DKI_signal : gradient_table -> Np.arr -> Np.arr -> float
                      -> option float -> exn + Np.arr).

Definition outside {A} (r : exn + A) : M A :=
  match r with
  | inl e => raise e
  | inr a => mret a
  end.

(** [fevecs] is reshaped from [evals], not from [evecs], so [fevecs[v]] is
    a vector, its transpose is itself and [DT] is a number.  The last
    statement adds an integer to the shape. *)
Definition DKI_prediction (dki_params : ndarray) (gtab : gradient_table)
    (S0 : float) (snr : option float) : M ndarray :=
  evals ← slice_last dki_params 0 (Some 3%nat);
  evecs ← slice_last dki_params 3 (Some 12%nat);
  evecs ← np_reshape evecs (removelast (nd_shape dki_params) ++ [3; 3]%nat);
  kt ← slice_last dki_params 12 None;
  w ← shape_from_end evals 1;
  fevals ← reshape_rows evals w;
  w ← shape_from_end evecs 2;
  fevecs ← reshape_rows evals w;
  w ← shape_from_end evals 1;
  fkt ← reshape_rows kt w;
  let pred_sig := replicate (length fevals) (Np.zeros (length gtab)) in
  pred_sig ← for_each (seq 0 (length pred_sig)) (fun pred_sig v =>
    fv ← getitem fevecs v;
    ev ← getitem fevals v;
    d ← dot_vm fv (Linalg.diag ev);
    fvT ← getitem fevecs v;
    DT ← Linalg.dot_vv d fvT;
    lt ← outside (lower_triangular DT);
    kv ← getitem fkt v;
    sig ← outside (DKI_signal gtab lt kv S0 snr);
    setitem_row pred_sig v sig) pred_sig;
  sh ← tuple_add_int (nd_shape dki_params) (length pred_sig);
  pred_sig ← np_reshape (NdArray [length pred_sig; length gtab] (concat pred_sig)) sh;
  mret pred_sig.

End Prediction.

(** ** The model class *)

(** [a[mask]] and [a[mask, :] = v] for a boolean mask with one entry per
    row; numpy refuses a mask of another length. *)
Fixpoint take_rows {A} (mask : Np.mask) (a : list A) : list A :=
  match mask, a with
  | true :: m', x :: a' => x :: take_rows m' a'
  | false :: m', _ :: a' => take_rows m' a'
  | _, _ => []
  end.

Fixpoint put_rows {A} (mask : Np.mask) (a v : list A) : list A :=
  match mask, a with
  | true :: m', x :: a' =>
      match v with
      | y :: v' => y :: put_rows m' a' v'
      | [] => x :: put_rows m' a' []
      end
  | false :: m', x :: a' => x :: put_rows m' a' v
  | _, _ => a
  end.

Definition getitem_mask (a : Linalg.matrix) (mask : Np.mask) : M Linalg.matrix :=
  if decide (length mask = length a) then mret (take_rows mask a)
  else raise IndexError.

(** Broadcasting of a two-dimensional value to [k] rows of [w] entries: an
    axis of length one is repeated. *)
Definition broadcast_row (w : nat) (row : Np.arr) : option Np.arr :=
  if decide (length row = w) then Some row
  else match row with
       | [x] => Some (replicate w x)
       | _ => None
       end.
Definition broadcast_to (k w : nat) (v : Linalg.matrix) : option Linalg.matrix :=
  rows ← mapM (broadcast_row w) v;
  if decide (length rows = k) then Some rows
  else match rows with
       | [row] => Some (replicate k row)
       | _ => None
       end.

Definition setitem_mask (a : Linalg.matrix) (mask : Np.mask) (v : Linalg.matrix)
    : M Linalg.matrix :=
  if decide (length mask = length a) then
    match broadcast_to (length (take_rows mask a)) 27 v with
    | Some rows => mret (put_rows mask a rows)
    | None => raise (ValueError "shape mismatch: value array could not be broadcast to indexing result")
    end
  else raise IndexError.

(** [a.reshape((n, -1))] *)
Definition reshape_first (n : nat) (a : Linalg.matrix) : M Linalg.matrix :=
  let size := length (concat a) in
  if decide (n = 0 \/ size mod n <> 0)%nat
  then raise (ValueError "cannot reshape array")
  else mret (chunks n (size / n) (concat a)).

(** [DKIModel.fit], for data with one row of signals per voxel and a mask
    with one entry per voxel: what it hands to [DKIFit].  [fit_method]
    stands for [self.fit_method] applied to [self.design_matrix] and the
    stored arguments. *)
Definition DKIModel_fit (fit_method : Linalg.matrix -> M Linalg.matrix)
    (data : Linalg.matrix) (mask : option Np.mask) : M Linalg.matrix :=
  data_in_mask ← match mask with
                 | Some mask => getitem_mask data mask
                 | None => mret data
                 end;
  params_in_mask ← fit_method data_in_mask;
  match mask with
  | None => reshape_first (length data) params_in_mask
  | Some mask =>
      let dki_params := replicate (length data) (Np.zeros 27) in
      setitem_mask dki_params mask params_in_mask
  end.

Section FitMethods.

Context (L : libm).
Context (pinv : Linalg.matrix -> option Linalg.matrix).
Context (from_lower_triangular : Np.arr -> option Linalg.matrix).
Context (decompose_tensor : Linalg.matrix -> float
                            -> option (Np.arr * Linalg.matrix)).

(** The fit methods [DKIModel] selects by name. *)
Definition common_fit_methods
    : gmap string (Linalg.matrix -> Linalg.matrix -> float -> M Linalg.matrix) :=
  list_to_map
    [ ("WLS"%string, wls_fit_dki L pinv from_lower_triangular decompose_tensor);
      ("OLS"%string, ols_fit_dki L pinv from_lower_triangular decompose_tensor);
      ("UWLLS"%string, wls_fit_dki L pinv from_lower_triangular decompose_tensor);
      ("ULLS"%string, ols_fit_dki L pinv from_lower_triangular decompose_tensor);
      ("WLS_DKI"%string, wls_fit_dki L pinv from_lower_triangular decompose_tensor);
      ("OLS_DKI"%string, ols_fit_dki L pinv from_lower_triangular decompose_tensor);
      ("UWLLS_DKI"%string, wls_fit_dki L pinv from_lower_triangular decompose_tensor);
      ("ULLS_DKI"%string, ols_fit_dki L pinv from_lower_triangular decompose_tensor) ].

End FitMethods.

(** * Definitions for the statements *)

(** ** The tensor read back and rotated *)

(** The representative index quadruple of each of the 15 symmetry classes,
    in the order of the elements of [kt]. *)
Definition representatives : list (list nat) :=
  match default_inds with
  | IndsArray rows => rows
  | IndsList _ => []
  end.

(** Reading a dense tensor back at the representatives: the "collapse by
    symmetry class" of the specification. *)
Definition read_representatives (W : tensor4) : M Np.arr :=
  Linalg.map_M (fun q =>
    match q with
    | [i; j; k; l] => getitem4 W i j k l
    | _ => raise IndexError
    end) representatives.

(** The dense tensor with one value in all of its 81 entries. *)
Definition constant4 (x : float) : tensor4 :=
  replicate 3 (replicate 3 (replicate 3 (replicate 3 x))).

Definition kt_1_to_15 : Np.arr :=
  [1; 2; 3; 4; 5; 6; 7; 8; 9; 10; 11; 12; 13; 14; 15].

Definition identity_basis : list Np.arr :=
  [[1; 0; 0]; [0; 1; 0]; [0; 0; 1]].

(** The rotated element as the specification words it: the sum over
    [p, q, r, s] of
    [basis[i][p] * basis[j][q] * basis[k][r] * basis[l][s] * W[p][q][r][s]]. *)
Definition rotated_element_spec (W : tensor4) (i j k l : nat)
    (basis : list Np.arr) : M float :=
  for_each (seq 0 3) (fun acc p =>
    for_each (seq 0 3) (fun acc q =>
      for_each (seq 0 3) (fun acc r =>
        for_each (seq 0 3) (fun acc s =>
          Bi ← getitem basis i; bip ← getitem Bi p;
          Bj ← getitem basis j; bjq ← getitem Bj q;
          Bk ← getitem basis k; bkr ← getitem Bk r;
          Bl ← getitem basis l; bls ← getitem Bl s;
          w ← getitem4 W p q r s;
          mret (acc + bip * bjq * bkr * bls * w)) acc) acc) acc) 0.

(** ** The measures and the fits *)

(** The radial kurtosis as the specification words it: [G1] and [G2] on
    the elements at positions 1, 2 and 5 of the rotated array. *)
Definition radial_kurtosis_spec (evals Wrotat : pyval) : M Np.arr :=
  W_yyyy ← py_col Wrotat 1;
  W_zzzz ← py_col Wrotat 2;
  W_yyzz ← py_col Wrotat 5;
  e0 ← py_col evals 0; e1 ← py_col evals 1; e2 ← py_col evals 2;
  G1 ← G1m e0 e1 e2;
  G1' ← G1m e0 e2 e1;
  G2 ← G2m e0 e1 e2;
  mret (G1 *^ W_yyyy +^ G1' *^ W_zzzz +^ G2 *^ W_yyzz).

Definition min_signal_error : exn := ValueError "min_signal must be > 0".

Section Solutions.

Import Linalg.

Context (L : libm).
Context (pinv : matrix -> option matrix).

(** The regression solution of each fit: the statements of [_ols_iter] up
    to [result], and of [_wls_iter] up to [wls_result]. *)
Definition ols_solution (inv_design : matrix) (sig : Np.arr) (min_signal : float)
    : M Np.arr :=
  let sig := map (fun x => Np.maximum x min_signal) sig in
  let log_s := map (log L) sig in
  dot_mv inv_design log_s.

Definition wls_solution (design_matrix inv_design : matrix) (sig : Np.arr)
    (min_signal : float) : M Np.arr :=
  let A := design_matrix in
  let sig := map (fun x => Np.maximum x min_signal) sig in
  let log_s := map (log L) sig in
  ols_result ← dot_mv inv_design log_s;
  y ← dot_mv A ols_result;
  let W := diag (map (exp L) (2 .* y)) in
  ATW ← dot_mm (transpose A) W;
  ATWA ← dot_mm ATW A;
  inv_AT_W_A ← external LinAlgError (pinv ATWA);
  ATW ← dot_mm (transpose A) W;
  AT_W_LS ← dot_mv ATW log_s;
  dot_mv inv_AT_W_A AT_W_LS.

(** The 15 coefficients: entries 6 to 20 of the solution over the square of
    the mean of the three eigenvalues. *)
Definition normalised (result : Np.arr) (l1 l2 l3 : float) : Np.arr :=
  map (fun r => r / pow L ((l1 + l2 + l3) / 3) 2) (slice 6 21 result).

End Solutions.

(** ** Outcomes and warnings *)

(** [safe ok m]: whatever the state, [m] raises only exceptions in [ok]. *)
Definition safe {A} (ok : exn -> Prop) (m : M A) : Prop :=
  forall s, match fst (m s) with Raise e => ok e | _ => True end.

(** [mono m]: [m] never takes a warning back. *)
Definition mono {A} (m : M A) : Prop :=
  forall s, (zero_divisors s <= zero_divisors (snd (m s)))%nat.

(** [reaches n m s]: run from [s], [m] leaves at least [n] zero divisors
    recorded. *)
Definition reaches {A} (n : nat) (m : M A) (s : errstate) : Prop :=
  (n <= zero_divisors (snd (m s)))%nat.

(** ** Closed examples *)

(** A stand-in for the C library in the closed examples: squares are exact,
    every other power answers [2^-9], about the tolerance
    [(2.2e-16 / 3)^(1/6) = 0.00205], and the other functions are cut after
    their first-order term. *)
Definition example_libm : libm :=
  {| pow := fun x y => if y =? 2 then x * x else 0x1p-9;
     log := fun x => x - 1;
     exp := fun x => 1 + x;
     arctan := fun x => x |}.

Module Example.

Import Linalg.

(** Stand-ins for the outside routines: the transpose for the
    pseudo-inverse (as for orthonormal columns), the index map
    [[0, 1, 3], [1, 2, 4], [3, 4, 5]] for [from_lower_triangular], and for
    [decompose_tensor] the diagonal raised to the floor with the identity
    basis (as for a diagonal tensor in decreasing order). *)
Definition pinv (A : matrix) : option matrix := Some (transpose A).

Definition from_lower_triangular (D : Np.arr) : option matrix :=
  match D with
  | [d0; d1; d2; d3; d4; d5] => Some [[d0; d1; d3]; [d1; d2; d4]; [d3; d4; d5]]
  | _ => None
  end.

Definition decompose_tensor (tensor : matrix) (min_diffusivity : float)
    : option (Np.arr * matrix) :=
  match tensor with
  | [[a; _; _]; [_; b; _]; [_; _; c]] =>
      Some (map (fun x => Np.maximum x min_diffusivity) [a; b; c], identity_basis)
  | _ => None
  end.

(** One measurement with [b = 0]: the design row is zero but for the
    constant column. *)
Definition design_matrix : matrix :=
  [[0; 0; 0; 0; 0; 0; 0; 0; 0; 0; 0; 0; 0; 0; 0; 0; 0; 0; 0; 0; 0; 1]].

(** A 22 x 1 matrix for [inv_design], whose product with the log-signal 1
    is the diffusion tensor diag(3, 2, 1) and the kurtosis entries
    4, 8, ..., 60. *)
Definition inv_design : matrix :=
  map (fun x => [x])
      [3; 0; 2; 0; 0; 1; 4; 8; 12; 16; 20; 24; 28; 32; 36; 40; 44; 48; 52; 56; 60; 0].

Definition data_flat : matrix := [[2]].

End Example.

(** ** Definitions for the further properties *)

(** Row of the design matrix for one measurement: the 22 column formulas of
    [dki_design_matrix] at that measurement. *)
Definition design_row (L : libm) (m : measurement) : Np.arr :=
  let b := bval m in
  let x := bvec0 m in
  let y := bvec1 m in
  let z := bvec2 m in
  [ - b * x * x;
    (-2) * b * x * y;
    - b * y * y;
    (-2) * b * x * z;
    (-2) * b * y * z;
    - b * z * z;
    b * b * pow L x 4 / 6;
    b * b * pow L y 4 / 6;
    b * b * pow L z 4 / 6;
    4 * b * b * pow L x 3 * y / 6;
    4 * b * b * pow L x 3 * z / 6;
    4 * b * b * pow L y 3 * x / 6;
    4 * b * b * pow L y 3 * z / 6;
    4 * b * b * pow L z 3 * x / 6;
    4 * b * b * pow L z 3 * y / 6;
    b * b * (x * x) * (y * y);
    b * b * (x * x) * (z * z);
    b * b * (y * y) * (z * z);
    2 * b * b * (x * x) * y * z;
    2 * b * b * (y * y) * x * z;
    2 * b * b * (z * z) * x * y;
    1 ].

(** A direction whose components, and their squares, cubes and fourth
    powers as the design matrix takes them, are all finite numbers. *)
Definition regular_direction (L : libm) (m : measurement) : bool :=
  forallb is_finite
    [ bvec0 m; bvec1 m; bvec2 m;
      bvec0 m * bvec0 m; bvec1 m * bvec1 m; bvec2 m * bvec2 m;
      pow L (bvec0 m) 3; pow L (bvec1 m) 3; pow L (bvec2 m) 3;
      pow L (bvec0 m) 4; pow L (bvec1 m) 4; pow L (bvec2 m) 4 ].

(** The 81 index quadruples over [xyz]. *)
Definition quadruples : list (list nat) :=
  i ← xyz; j ← xyz; k ← xyz; l ← xyz; [[i; j; k; l]].

Definition quadruple_key (q : list nat) : nat :=
  match q with
  | [i; j; k; l] => index_key i j k l
  | _ => 0%nat
  end.

(** [r] has a zero wherever one of the three eigenvalues of the voxel is not
    positive. *)
Definition zero_where_nonpositive (a b c r : Np.arr) : Prop :=
  length r = length a
  /\ forall (i : nat) (x y z : float),
       a !! i = Some x -> b !! i = Some y -> c !! i = Some z ->
       (x <=? 0) || (y <=? 0) || (z <=? 0) = true ->
       r !! i = Some 0.

(** The index quadruple each name unpacked from [K_tensor_elements] stands
    for, in the order of the unpacking, with 0, 1, 2 for x, y, z. *)
Definition Wfit_representatives : list (list nat) :=
  [ [0; 0; 0; 0]; [1; 1; 1; 1]; [2; 2; 2; 2];
    [0; 0; 0; 1]; [0; 0; 0; 2]; [0; 1; 1; 1]; [1; 1; 1; 2]; [0; 2; 2; 2];
    [1; 2; 2; 2];
    [0; 0; 1; 1]; [0; 0; 2; 2]; [1; 1; 2; 2];
    [0; 0; 1; 2]; [0; 1; 1; 2]; [0; 1; 2; 2] ]%nat.

(** Reading a dense tensor at a list of quadruples. *)
Definition read_at (W : tensor4) (qs : list (list nat)) : M Np.arr :=
  Linalg.map_M (fun q =>
    match q with
    | [i; j; k; l] => getitem4 W i j k l
    | _ => raise IndexError
    end) qs.

(** The position in [K_tensor_elements] of the name with as many x, y and
    z as the quadruple has 0, 1 and 2. *)
Definition position_by_counts (q : list nat) : nat :=
  match count_occ Nat.eq_dec q 0, count_occ Nat.eq_dec q 1,
        count_occ Nat.eq_dec q 2 with
  | 4, 0, 0 => 0
  | 0, 4, 0 => 1
  | 0, 0, 4 => 2
  | 3, 1, 0 => 3
  | 3, 0, 1 => 4
  | 1, 3, 0 => 5
  | 0, 3, 1 => 6
  | 1, 0, 3 => 7
  | 0, 1, 3 => 8
  | 2, 2, 0 => 9
  | 2, 0, 2 => 10
  | 0, 2, 2 => 11
  | 2, 1, 1 => 12
  | 1, 2, 1 => 13
  | 1, 1, 2 => 14
  | _, _, _ => 15
  end%nat.

(** [terminates m]: [m] returns or raises, whatever the state. *)
Definition terminates {A} (m : M A) : Prop :=
  forall s, fst (m s) <> OutOfFuel.

(** [never_returns m]: whatever the state, [m] ends in an exception. *)
Definition never_returns {A} (m : M A) : Prop :=
  forall s, exists e s', m s = (Raise e, s').

(** [state_blind m]: what [m] returns or raises does not depend on the
    warnings recorded before it runs. *)
Definition state_blind {A} (m : M A) : Prop :=
  forall s s', fst (m s) = fst (m s').

(** [voxelwise fit]: when [fit] returns on two sets of voxels, it returns
    on the two put end to end, from any state, and the rows are those of
    the first followed by those of the second. *)
Definition voxelwise (fit : Linalg.matrix -> M Linalg.matrix) : Prop :=
  forall (d1 d2 P1 P2 : Linalg.matrix) (s1 s1' s2 s2' s : errstate),
    fit d1 s1 = (Ret P1, s1') ->
    fit d2 s2 = (Ret P2, s2') ->
    exists s', fit (d1 ++ d2) s = (Ret (P1 ++ P2), s').

(** The measurement with the opposite gradient direction. *)
Definition antipode (m : measurement) : measurement :=
  Measurement (bval m) (- bvec0 m) (- bvec1 m) (- bvec2 m).

(** What an odd and an even power do with the sign of [x], as the C
    library's [pow] has it. *)
Definition pow_sign_symmetric (L : libm) (x : float) : Prop :=
  pow L (- x) 3 = - pow L x 3 /\ pow L (- x) 4 = pow L x 4.

(** A stand-in for the C library whose powers are repeated products. *)
Definition product_libm : libm :=
  {| pow := fun x y => if y =? 2 then x * x
                       else if y =? 3 then x * x * x
                       else x * x * x * x;
     log := fun x => x - 1;
     exp := fun x => 1 + x;
     arctan := fun x => x |}.

(** The exceptions of [np.max] and [np.min] on an array without
    elements. *)
Definition max_error : exn :=
  ValueError "zero-size array to reduction operation maximum which has no identity".
Definition min_error : exn :=
  ValueError "zero-size array to reduction operation minimum which has no identity".

(** [returns_with m Q]: whatever the state, [m] returns, and what it
    returns satisfies [Q]. *)
Definition returns_with {A} (m : M A) (Q : A -> Prop) : Prop :=
  forall s, exists a s', m s = (Ret a, s') /\ Q a.

(** A matrix of [m] rows of [k] entries. *)
Definition shaped (m k : nat) (A : Linalg.matrix) : Prop :=
  length A = m /\ Forall (fun row : Np.arr => length row = k) A.

(** The outside routines on the shapes the fits give them: the
    pseudo-inverse of an [m] x [k] matrix is [k] x [m]; six tensor elements
    decompose into three eigenvalues and a 3 x 3 matrix of eigenvectors. *)
Definition pinv_well_shaped (pinv : Linalg.matrix -> option Linalg.matrix)
    : Prop :=
  forall (m k : nat) (A : Linalg.matrix),
    (1 <= m)%nat -> (1 <= k)%nat -> shaped m k A ->
    exists A', pinv A = Some A' /\ shaped k m A'.

Definition decomposition_well_shaped
    (from_lower_triangular : Np.arr -> option Linalg.matrix)
    (decompose_tensor : Linalg.matrix -> float -> option (Np.arr * Linalg.matrix))
    : Prop :=
  forall (D : Np.arr) (min_diffusivity : float),
    length D = 6%nat ->
    exists (T : Linalg.matrix) (l1 l2 l3 : float) (v0 v1 v2 : Np.arr),
      from_lower_triangular D = Some T
      /\ decompose_tensor T min_diffusivity = Some ([l1; l2; l3], [v0; v1; v2])
      /\ length v0 = 3%nat /\ length v1 = 3%nat /\ length v2 = 3%nat.

(** [restricts fit]: when [fit] returns on a set of voxels, it returns on
    the voxels a mask selects, from any state, and the rows are the
    selected rows. *)
Definition restricts (fit : Linalg.matrix -> M Linalg.matrix) : Prop :=
  forall (d P : Linalg.matrix) (mask : Np.mask) (s s' t : errstate),
    fit d s = (Ret P, s') ->
    exists t', fit (take_rows mask d) t = (Ret (take_rows mask P), t').

(** * Properties *)

(** ** Expansion of the kurtosis tensor *)

Lemma Wcons_cons (k0 : float) (rest : Np.arr) (s : errstate) :
  Wcons (k0 :: rest) s = (Ret (constant4 k0), s).
Proof. vm_compute. reflexivity. Qed.

Lemma constant4_entry (x : float) (i j k l : nat) :
  (i < 3)%nat -> (j < 3)%nat -> (k < 3)%nat -> (l < 3)%nat ->
  forall s, getitem4 (constant4 x) i j k l s = (Ret x, s).
Proof.
  intros Hi Hj Hk Hl s.
  destruct i as [|[|[|i]]]; try lia;
    destruct j as [|[|[|j]]]; try lia;
    destruct k as [|[|[|k]]]; try lia;
    destruct l as [|[|[|l]]]; try lia; reflexivity.
Qed.

(** C10: for a vector [kt] of 15 components, [Wcons kt] returns a dense
    tensor whose 81 entries all equal [kt[0]]; nothing of [kt[1]] to
    [kt[14]] reaches it. *)
Theorem Wcons_every_entry_is_first (kt : Np.arr) :
  length kt = 15%nat ->
  exists k0 : float,
    kt !! 0%nat = Some k0 /\
    (forall s, Wcons kt s = (Ret (constant4 k0), s)) /\
    (forall i j k l, (i < 3)%nat -> (j < 3)%nat -> (k < 3)%nat -> (l < 3)%nat ->
       forall s, getitem4 (constant4 k0) i j k l s = (Ret k0, s)).
Proof.
  intros Hlen. destruct kt as [|k0 rest]; [discriminate|].
  exists k0. split; [reflexivity|]. split.
  - apply Wcons_cons.
  - intros. now apply constant4_entry.
Qed.

Lemma Wcons_every_entry_is_first_witness :
  length kt_1_to_15 = 15%nat /\
  exists k0 : float,
    kt_1_to_15 !! 0%nat = Some k0 /\
    (forall s, Wcons kt_1_to_15 s = (Ret (constant4 k0), s)) /\
    (forall i j k l, (i < 3)%nat -> (j < 3)%nat -> (k < 3)%nat -> (l < 3)%nat ->
       forall s, getitem4 (constant4 k0) i j k l s = (Ret k0, s)).
Proof.
  split; [reflexivity|].
  apply (Wcons_every_entry_is_first kt_1_to_15). reflexivity.
Defined.

(** C2 (the code at the failing input): expanding (1, 2, ..., 15) and
    reading the 15 representatives back gives fifteen times 1, not the
    vector that was expanded. *)
Theorem Wcons_read_back_loses_components :
  run (W ← Wcons kt_1_to_15; read_representatives W) = Ret (replicate 15 1)
  /\ replicate 15 1 <> kt_1_to_15.
Proof. split; [vm_compute; reflexivity | discriminate]. Qed.

(** The read-back in general: fifteen copies of the first component. *)
Lemma Wcons_read_back (k0 : float) (rest : Np.arr) (s : errstate) :
  (W ← Wcons (k0 :: rest); read_representatives W) s = (Ret (replicate 15 k0), s).
Proof. vm_compute. reflexivity. Qed.

(** ** Rotation of the kurtosis tensor *)

Lemma Wrotate_default_raises (k0 : float) (rest : Np.arr) (Basis : list Np.arr)
    (s : errstate) :
  Wrotate (k0 :: rest) Basis None s
  = (Raise (TypeError "only integer scalar arrays can be converted to a scalar index"), s).
Proof. unfold Wrotate, mbind, M_bind, Py.bind. rewrite Wcons_cons. reflexivity. Qed.

(** C3 (the code at the failing input): with the identity basis and the
    default index set, [Wrotate] of (1, 2, ..., 15) raises a [TypeError] at
    [range(inds)] and returns no component; and [_Wrotate_element], called
    for the indices (0, 0, 0, 0), computes no element either: it raises a
    [TypeError] in the first pass of its loops, at the list [[kl]] times a
    float, where the quadruple sum of the specification is the number
    1. *)
Theorem Wrotate_identity_raises :
  run (Wrotate kt_1_to_15 identity_basis None)
  = Raise (TypeError "only integer scalar arrays can be converted to a scalar index")
  /\ run (W ← Wcons kt_1_to_15; _Wrotate_element W 0 0 0 0 identity_basis)
     = Raise (TypeError "can't multiply sequence by non-int of type 'numpy.float64'")
  /\ run (W ← Wcons kt_1_to_15; rotated_element_spec W 0 0 0 0 identity_basis)
     = Ret 1.
Proof. repeat split; vm_compute; reflexivity. Qed.

(** ** Mean and radial kurtosis *)

Section MeasureProperties.

Context (L : libm).

(** C1 (the code on every input): [mean_kurtosis] raises a [TypeError] at
    its first [np.zeros(len(kt), 15)], whatever [dki_params] is, and
    returns no sum. *)
Theorem mean_kurtosis_raises (fuel : nat) (dki_params : pyval) (s : errstate) :
  mean_kurtosis L fuel dki_params s
  = (Raise (TypeError "Cannot interpret '15' as a data type"), s).
Proof. reflexivity. Qed.

End MeasureProperties.

(** C5 (the code at the failing input): for the eigenvalues (1, 1, 1) and
    the rotated elements (0, 0, 1, 0, 0, 0) [radial_kurtosis] returns 0,
    the formula of the specification 0.375: the coefficient of [Wzzzz]
    multiplies the element at position 1. *)
Theorem radial_kurtosis_reads_position_1_twice :
  run (radial_kurtosis (PMat [[1; 1; 1]]) (PMat [[0; 0; 1; 0; 0; 0]])) = Ret [0]
  /\ run (radial_kurtosis_spec (PMat [[1; 1; 1]]) (PMat [[0; 0; 1; 0; 0; 0]]))
     = Ret [0.375].
Proof. split; vm_compute; reflexivity. Qed.

(** ** Reasoning about outcomes *)

Section Safe.

Context (ok : exn -> Prop).

Lemma safe_ret {A} (a : A) : safe ok (mret a).
Proof. intros s. exact I. Qed.

Lemma safe_raise {A} (e : exn) : ok e -> safe ok (raise e : M A).
Proof. intros H s. exact H. Qed.

Lemma safe_out_of_fuel {A} : safe ok (out_of_fuel : M A).
Proof. intros s. exact I. Qed.

Lemma safe_bind {A B} (m : M A) (k : A -> M B) :
  safe ok m -> (forall a, safe ok (k a)) -> safe ok (m ≫= k).
Proof.
  intros Hm Hk s. unfold mbind, M_bind, Py.bind.
  specialize (Hm s). destruct (m s) as [[a|e|] s']; simpl in *; auto.
  apply Hk.
Qed.

Lemma safe_warn (n : nat) : safe ok (warn_zero_divisors n).
Proof. intros s. exact I. Qed.

Lemma safe_for_each {A B} (xs : list A) (body : B -> A -> M B) :
  (forall acc x, safe ok (body acc x)) -> forall acc, safe ok (for_each xs body acc).
Proof.
  intros Hbody. induction xs as [|x xs IH]; intros acc; simpl.
  - apply safe_ret.
  - apply safe_bind; auto.
Qed.

Lemma safe_map_M {A B} (f : A -> M B) (xs : list A) :
  (forall x, safe ok (f x)) -> safe ok (Linalg.map_M f xs).
Proof.
  intros Hf. induction xs as [|x xs IH]; simpl.
  - apply safe_ret.
  - apply safe_bind; [apply Hf|]. intros y.
    apply safe_bind; [apply IH|]. intros ys. apply safe_ret.
Qed.

Lemma safe_div (a b : Np.arr) : safe ok (Np.div a b).
Proof. intros s. exact I. Qed.

Lemma safe_div_scalar (a : Np.arr) (k : float) : safe ok (Np.div_scalar a k).
Proof. intros s. exact I. Qed.

Lemma safe_scalar_div (k : float) (a : Np.arr) : safe ok (Np.scalar_div k a).
Proof. intros s. exact I. Qed.

Lemma safe_fdiv (x y : float) : safe ok (Np.fdiv x y).
Proof. intros s. exact I. Qed.

Lemma safe_getitem {A} (xs : list A) (i : nat) :
  ok IndexError -> safe ok (getitem xs i).
Proof. intros H s. unfold getitem. destruct (xs !! i); simpl; auto. Qed.

Lemma safe_external {A} (e : exn) (r : option A) :
  ok e -> safe ok (external e r).
Proof. intros H s. destruct r; simpl; auto. Qed.

End Safe.

Create HintDb safe.

#[local] Hint Resolve safe_ret safe_raise safe_out_of_fuel safe_warn safe_div
  safe_div_scalar safe_scalar_div safe_fdiv safe_getitem safe_external : safe.

(** Splits a sequence of statements into its statements. *)
Ltac safe_steps :=
  repeat first
    [ apply safe_bind; [ | intros ? ]
    | progress auto with safe
    | match goal with
      | |- safe _ (let '(_, _) := ?p in _) => destruct p
      | |- safe _ (match ?x with _ => _ end) => destruct x
      end ].

(** ** Comparisons of binary64 numbers *)

Lemma leb_nan_r (x : float) : (x <=? nan) = false.
Proof. rewrite leb_spec. unfold SFleb. destruct (Prim2SF x); reflexivity. Qed.

Lemma ltb_0_not_leb_0 (x : float) : (0 <? x) = true -> (x <=? 0) = false.
Proof.
  rewrite ltb_spec, leb_spec. unfold SFltb, SFleb.
  change (Prim2SF 0) with (S754_zero false).
  destruct (Prim2SF x) as [sg|sg| |sg m e]; simpl; try discriminate;
    destruct sg; simpl; try discriminate; reflexivity.
Qed.

(** ** The guard on [min_signal] *)

Section FitProperties.

Import Linalg.

Context (L : libm).
Context (pinv : matrix -> option matrix).
Context (from_lower_triangular : Np.arr -> option matrix).
Context (decompose_tensor : matrix -> float -> option (Np.arr * matrix)).

Let other_error (e : exn) : Prop := e <> min_signal_error.

#[local] Hint Extern 1 (other_error _) => unfold other_error, min_signal_error; discriminate : safe.

Lemma safe_dot_vv (u v : Np.arr) : safe other_error (dot_vv u v).
Proof. unfold dot_vv, shape_error. destruct (decide _); auto with safe. Qed.

Lemma safe_dot_mv (A : matrix) (v : Np.arr) : safe other_error (dot_mv A v).
Proof. apply safe_map_M. intros row. apply safe_dot_vv. Qed.

Lemma safe_dot_mm (A B : matrix) : safe other_error (dot_mm A B).
Proof. apply safe_map_M. intros row. apply safe_dot_mv. Qed.

Lemma safe_mean (a : Np.arr) : safe other_error (mean a).
Proof. apply safe_fdiv. Qed.

Lemma safe_min (a : Np.arr) : safe other_error (Np.min a).
Proof. destruct a; simpl; auto with safe. Qed.

Lemma safe_store_row (P : matrix) (row : Np.arr) : safe other_error (store_row P row).
Proof.
  unfold store_row. destruct row as [|x [|y row]]; simpl;
    try destruct (decide _); auto with safe.
Qed.

#[local] Hint Resolve safe_dot_vv safe_dot_mv safe_dot_mm safe_mean safe_min
  safe_store_row : safe.

Lemma safe_ols_iter inv_design sig min_signal min_diffusivity :
  safe other_error
    (_ols_iter L from_lower_triangular decompose_tensor
               inv_design sig min_signal min_diffusivity).
Proof. unfold _ols_iter. safe_steps. Qed.

Lemma safe_wls_iter design_matrix inv_design sig min_signal min_diffusivity :
  safe other_error
    (_wls_iter L pinv from_lower_triangular decompose_tensor
               design_matrix inv_design sig min_signal min_diffusivity).
Proof. unfold _wls_iter. safe_steps. Qed.

(** C6: with [min_signal <= 0] both fits raise the [ValueError] at once, in
    the state they were called in and whatever the design matrix, the data
    and the outside routines are; with [min_signal > 0] neither raises
    it. *)
Theorem min_signal_guard (design_matrix data_flat : matrix) (min_signal : float) :
  ((min_signal <=? 0) = true ->
   forall s,
     ols_fit_dki L pinv from_lower_triangular decompose_tensor
                 design_matrix data_flat min_signal s
     = (Raise min_signal_error, s)
     /\ wls_fit_dki L pinv from_lower_triangular decompose_tensor
                    design_matrix data_flat min_signal s
        = (Raise min_signal_error, s))
  /\
  ((0 <? min_signal) = true ->
   forall s,
     fst (ols_fit_dki L pinv from_lower_triangular decompose_tensor
                      design_matrix data_flat min_signal s)
     <> Raise min_signal_error
     /\ fst (wls_fit_dki L pinv from_lower_triangular decompose_tensor
                         design_matrix data_flat min_signal s)
        <> Raise min_signal_error).
Proof.
  split.
  - intros Hle s. unfold ols_fit_dki, wls_fit_dki. rewrite Hle. split; reflexivity.
  - intros Hpos s. apply ltb_0_not_leb_0 in Hpos.
    assert (Hols : safe other_error
              (ols_fit_dki L pinv from_lower_triangular decompose_tensor
                           design_matrix data_flat min_signal)).
    { unfold ols_fit_dki. rewrite Hpos. safe_steps.
      apply safe_for_each. intros acc sig.
      apply safe_bind; [apply safe_ols_iter | intros row; apply safe_store_row]. }
    assert (Hwls : safe other_error
              (wls_fit_dki L pinv from_lower_triangular decompose_tensor
                           design_matrix data_flat min_signal)).
    { unfold wls_fit_dki. rewrite Hpos. safe_steps.
      apply safe_for_each. intros acc sig.
      apply safe_bind; [apply safe_wls_iter | intros row; apply safe_store_row]. }
    specialize (Hols s). specialize (Hwls s). split.
    + intros E. rewrite E in Hols. now apply Hols.
    + intros E. rewrite E in Hwls. now apply Hwls.
Qed.

End FitProperties.

(** ** Carlson's integrals: values and failures *)

Ltac np_length :=
  unfold Np.add, Np.sub, Np.mul, Np.scale, Np.times, Np.plus, Np.minus,
    Np.rminus, Np.rplus, Np.square, Np.sqrt, Np.abs, Np.zeros, Np.ones in *;
  repeat rewrite ?length_zip_with, ?List.length_map, ?length_replicate,
    ?List.length_app in *;
  try lia.

Lemma max_nonempty (a : Np.arr) (s : errstate) :
  (0 < length a)%nat -> exists e, Np.max a s = (Ret e, s).
Proof. destruct a as [|x a]; simpl; [lia|]. intros _. eexists. reflexivity. Qed.

Section CarlsonProperties.

Context (L : libm).

(** The deviations are computed, for three arrays of one non-zero length,
    without an exception, and carry the arrays on. *)
Lemma rf_deviations_ok (n : nat) (xn yn zn : Np.arr) (s : errstate) :
  length xn = S n -> length yn = S n -> length zn = S n ->
  exists v s', rf_deviations xn yn zn s = (Ret v, s')
               /\ rf_xn v = xn /\ rf_yn v = yn /\ rf_zn v = zn.
Proof.
  intros Hx Hy Hz. unfold rf_deviations, Np.div_scalar, Np.div.
  unfold mbind, M_bind, Py.bind. simpl.
  match goal with
  | |- context [Np.max ?a ?s1] =>
      destruct (max_nonempty a s1) as [e He]; [np_length | rewrite He]
  end.
  eexists _, _. repeat split.
Qed.

Lemma rd_deviations_ok (n : nat) (xn yn zn sigma : Np.arr) (power4 : float)
    (s : errstate) :
  length xn = S n -> length yn = S n -> length zn = S n ->
  exists v s', rd_deviations xn yn zn sigma power4 s = (Ret v, s')
               /\ rd_xn v = xn /\ rd_yn v = yn /\ rd_zn v = zn.
Proof.
  intros Hx Hy Hz. unfold rd_deviations, Np.div.
  unfold mbind, M_bind, Py.bind. simpl.
  match goal with
  | |- context [Np.max ?a ?s1] =>
      destruct (max_nonempty a s1) as [e He]; [np_length | rewrite He]
  end.
  eexists _, _. repeat split.
Qed.

Lemma rf_while_no_exception (n fuel : nat) :
  forall v s,
    length (rf_xn v) = S n -> length (rf_yn v) = S n -> length (rf_zn v) = S n ->
    raises (fst (rf_while L fuel v s)) = false.
Proof.
  induction fuel as [|fuel IH]; intros v s Hx Hy Hz; simpl;
    destruct (errtol L <=? rf_epslon v); try reflexivity.
  unfold mbind, M_bind, Py.bind.
  match goal with
  | |- context [rf_deviations ?x ?y ?z s] =>
      destruct (rf_deviations_ok n x y z s) as (v' & s' & E & Ex & Ey & Ez);
        [np_length .. | rewrite E]
  end.
  apply IH; [rewrite Ex | rewrite Ey | rewrite Ez]; np_length.
Qed.

Lemma rd_while_no_exception (n fuel : nat) :
  forall v s,
    length (rd_xn v) = S n -> length (rd_yn v) = S n -> length (rd_zn v) = S n ->
    raises (fst (rd_while L fuel v s)) = false.
Proof.
  induction fuel as [|fuel IH]; intros v s Hx Hy Hz; simpl;
    destruct (errtol L <=? rd_epslon v); try reflexivity.
  unfold mbind, M_bind, Py.bind, Np.scalar_div. simpl.
  match goal with
  | |- context [rd_deviations ?x ?y ?z ?sg ?p ?s1] =>
      destruct (rd_deviations_ok n x y z sg p s1) as (v' & s' & E & Ex & Ey & Ez);
        [np_length .. | rewrite E]
  end.
  apply IH; [rewrite Ex | rewrite Ey | rewrite Ez]; np_length.
Qed.

Lemma rfpython_no_exception (n fuel : nat) (x y z : Np.arr) (s : errstate) :
  length x = S n -> length y = S n -> length z = S n ->
  raises (fst (rfpython L fuel x y z s)) = false.
Proof.
  intros Hx Hy Hz. unfold rfpython, mbind, M_bind, Py.bind.
  destruct (rf_deviations_ok n x y z s) as (v & s' & E & Ex & Ey & Ez); auto.
  rewrite E.
  pose proof (rf_while_no_exception n fuel v s') as Hw.
  rewrite Ex, Ey, Ez in Hw. specialize (Hw Hx Hy Hz).
  destruct (rf_while L fuel v s') as [[v'|e|] s'']; simpl in *;
    try reflexivity; discriminate.
Qed.

Lemma rdpython_no_exception (n fuel : nat) (x y z : Np.arr) (s : errstate) :
  length x = S n -> length y = S n -> length z = S n ->
  raises (fst (rdpython L fuel x y z s)) = false.
Proof.
  intros Hx Hy Hz. unfold rdpython, mbind, M_bind, Py.bind.
  destruct (rd_deviations_ok n x y z (Np.zeros (length x)) 1.0 s)
    as (v & s' & E & Ex & Ey & Ez); auto.
  rewrite E.
  pose proof (rd_while_no_exception n fuel v s') as Hw.
  rewrite Ex, Ey, Ez in Hw. specialize (Hw Hx Hy Hz).
  destruct (rd_while L fuel v s') as [[v'|e|] s'']; simpl in *;
    try reflexivity; discriminate.
Qed.

End CarlsonProperties.

(** C4, the counterexample: the arguments (0, 0, 0) are invalid for both
    integrals, and both return nan for them, with any C library and any
    fuel; no exception is raised. *)
Lemma carlson_zero_arguments_return_nan :
  (forall L fuel, run (rfpython L fuel [0] [0] [0]) = Ret [nan])
  /\ (forall L fuel, run (rdpython L fuel [0] [0] [0]) = Ret [nan]).
Proof.
  split; intros L fuel.
  - unfold run, rfpython, mbind, M_bind, Py.bind.
    change (rf_deviations [0] [0] [0] s0)
      with (Ret (RfVars [0] [0] [0] [0] [nan] [nan] [nan] nan), ErrState 3).
    cbv beta iota.
    assert (Hw : rf_while L fuel (RfVars [0] [0] [0] [0] [nan] [nan] [nan] nan)
                   (ErrState 3)
                 = (Ret (RfVars [0] [0] [0] [0] [nan] [nan] [nan] nan), ErrState 3)).
    { destruct fuel; simpl; rewrite leb_nan_r; reflexivity. }
    rewrite Hw. reflexivity.
  - unfold run, rdpython, mbind, M_bind, Py.bind.
    change (rd_deviations [0] [0] [0] (Np.zeros (length [0])) 1.0 s0)
      with (Ret (RdVars [0] [0] [0] [0] 1 [0] [nan] [nan] [nan] nan), ErrState 3).
    cbv beta iota.
    assert (Hw : rd_while L fuel (RdVars [0] [0] [0] [0] 1 [0] [nan] [nan] [nan] nan)
                   (ErrState 3)
                 = (Ret (RdVars [0] [0] [0] [0] 1 [0] [nan] [nan] [nan] nan),
                    ErrState 3)).
    { destruct fuel; simpl; rewrite leb_nan_r; reflexivity. }
    rewrite Hw. reflexivity.
Qed.

(** C4, amended: [rfpython] and [rdpython] check nothing.  On three arrays
    of one non-zero length neither raises an exception, for any values of
    the arguments, valid or not. *)
Theorem carlson_raise_nothing (L : libm) (fuel : nat) (x y z : Np.arr) :
  x <> [] -> length y = length x -> length z = length x ->
  forall s,
    raises (fst (rfpython L fuel x y z s)) = false
    /\ raises (fst (rdpython L fuel x y z s)) = false.
Proof.
  intros Hx Hy Hz s. destruct x as [|x0 x]; [congruence|]. simpl in Hy, Hz.
  split.
  - now apply (rfpython_no_exception L (length x)).
  - now apply (rdpython_no_exception L (length x)).
Qed.

Lemma carlson_raise_nothing_witness :
  ([-1] : Np.arr) <> [] /\ length ([1] : Np.arr) = length ([-1] : Np.arr)
  /\ length ([0] : Np.arr) = length ([-1] : Np.arr)
  /\ forall s,
       raises (fst (rfpython example_libm 100 [-1] [1] [0] s)) = false
       /\ raises (fst (rdpython example_libm 100 [-1] [1] [0] s)) = false.
Proof.
  split; [discriminate|]. split; [reflexivity|]. split; [reflexivity|].
  apply (carlson_raise_nothing example_libm 100 [-1] [1] [0]);
    [discriminate | reflexivity | reflexivity].
Defined.

(** C9: [rfpython] of (1, 1, 1) is exactly 1, whatever the fuel: the
    deviations are 0, the loop is not entered once the tolerance is
    positive, the polynomial is 1 and so is [1 / sqrt 1].  No warning is
    emitted. *)
Theorem rfpython_1_1_1 (L : libm) (fuel : nat) :
  (0 <? errtol L) = true ->
  forall s, rfpython L fuel [1] [1] [1] s = (Ret [1], s).
Proof.
  intros Htol s. apply ltb_0_not_leb_0 in Htol.
  unfold rfpython, mbind, M_bind, Py.bind.
  assert (Hd : rf_deviations [1] [1] [1] s
               = (Ret (RfVars [1] [1] [1] [1] [0] [0] [0] 0), s)).
  { destruct s as [n]. unfold rf_deviations, mbind, M_bind, Py.bind. simpl.
    rewrite !Nat.add_0_r. reflexivity. }
  rewrite Hd.
  assert (Hw : rf_while L fuel (RfVars [1] [1] [1] [1] [0] [0] [0] 0) s
               = (Ret (RfVars [1] [1] [1] [1] [0] [0] [0] 0), s)).
  { destruct fuel; simpl; rewrite Htol; reflexivity. }
  rewrite Hw. destruct s as [n]. unfold Np.div, mbind, M_bind, Py.bind. simpl.
  rewrite !Nat.add_0_r. reflexivity.
Qed.

Lemma rfpython_1_1_1_witness :
  (0 <? errtol example_libm) = true
  /\ forall s, rfpython example_libm 0 [1] [1] [1] s = (Ret [1], s).
Proof.
  split; [reflexivity|]. apply (rfpython_1_1_1 example_libm 0). reflexivity.
Defined.

(** ** Normalisation of the kurtosis coefficients *)

Section Normalisation.

Import Linalg.

Context (L : libm).
Context (pinv : matrix -> option matrix).
Context (from_lower_triangular : Np.arr -> option matrix).
Context (decompose_tensor : matrix -> float -> option (Np.arr * matrix)).

Lemma bind_ret_eq {A B} (m : M A) (k : A -> M B) (a : A) (s s' : errstate) :
  m s = (Ret a, s') -> (m ≫= k) s = k a s'.
Proof. intros E. unfold mbind, M_bind, Py.bind. now rewrite E. Qed.

(** The statements after the solution, the same in both fits. *)
Lemma params_of_solution (result : Np.arr) (min_diffusivity : float)
    (tensor : matrix) (l1 l2 l3 : float) (v0 v1 v2 : Np.arr) (s : errstate) :
  from_lower_triangular (slice 0 6 result) = Some tensor ->
  decompose_tensor tensor min_diffusivity = Some ([l1; l2; l3], [v0; v1; v2]) ->
  exists s',
    (tensor ← external IndexError (from_lower_triangular (slice 0 6 result));
     '(evals, evecs) ← external LinAlgError (decompose_tensor tensor min_diffusivity);
     m ← mean evals;
     KT_elements ← Np.div_scalar (slice 6 21 result) (pow L m 2);
     evecs0 ← getitem evecs 0;
     evecs1 ← getitem evecs 1;
     evecs2 ← getitem evecs 2;
     mret (evals ++ evecs0 ++ evecs1 ++ evecs2 ++ KT_elements)) s
    = (Ret ([l1; l2; l3] ++ v0 ++ v1 ++ v2 ++ normalised L result l1 l2 l3), s').
Proof.
  intros Ht Hd. destruct s as [n].
  unfold mbind, M_bind, Py.bind. rewrite Ht. simpl. rewrite Hd. simpl.
  rewrite Nat.add_0_r. eexists. reflexivity.
Qed.

Lemma drop_12_params (l1 l2 l3 : float) (v0 v1 v2 kt : Np.arr) :
  length v0 = 3%nat -> length v1 = 3%nat -> length v2 = 3%nat ->
  drop 12 ([l1; l2; l3] ++ v0 ++ v1 ++ v2 ++ kt) = kt.
Proof.
  intros H0 H1 H2.
  destruct v0 as [|a0 [|a1 [|a2 [|]]]]; try discriminate.
  destruct v1 as [|b0 [|b1 [|b2 [|]]]]; try discriminate.
  destruct v2 as [|c0 [|c1 [|c2 [|]]]]; try discriminate.
  reflexivity.
Qed.

Lemma ols_iter_normalised (inv_design : matrix) (sig : Np.arr)
    (min_signal min_diffusivity : float)
    (result : Np.arr) (tensor : matrix) (l1 l2 l3 : float) (v0 v1 v2 : Np.arr)
    (s s1 : errstate) :
  ols_solution L inv_design sig min_signal s = (Ret result, s1) ->
  from_lower_triangular (slice 0 6 result) = Some tensor ->
  decompose_tensor tensor min_diffusivity = Some ([l1; l2; l3], [v0; v1; v2]) ->
  length v0 = 3%nat -> length v1 = 3%nat -> length v2 = 3%nat ->
  exists params s',
    _ols_iter L from_lower_triangular decompose_tensor
              inv_design sig min_signal min_diffusivity s = (Ret params, s')
    /\ drop 12 params = normalised L result l1 l2 l3.
Proof.
  intros Hsol Ht Hd H0 H1 H2.
  destruct (params_of_solution result min_diffusivity tensor l1 l2 l3 v0 v1 v2 s1
              Ht Hd) as [s' E].
  exists ([l1; l2; l3] ++ v0 ++ v1 ++ v2 ++ normalised L result l1 l2 l3), s'.
  split; [|now apply drop_12_params].
  unfold _ols_iter. unfold ols_solution in Hsol.
  rewrite (bind_ret_eq _ _ _ _ _ Hsol). exact E.
Qed.

Lemma wls_iter_normalised (design_matrix inv_design : matrix) (sig : Np.arr)
    (min_signal min_diffusivity : float)
    (result : Np.arr) (tensor : matrix) (l1 l2 l3 : float) (v0 v1 v2 : Np.arr)
    (s s1 : errstate) :
  wls_solution L pinv design_matrix inv_design sig min_signal s = (Ret result, s1) ->
  from_lower_triangular (slice 0 6 result) = Some tensor ->
  decompose_tensor tensor min_diffusivity = Some ([l1; l2; l3], [v0; v1; v2]) ->
  length v0 = 3%nat -> length v1 = 3%nat -> length v2 = 3%nat ->
  exists params s',
    _wls_iter L pinv from_lower_triangular decompose_tensor
              design_matrix inv_design sig min_signal min_diffusivity s
    = (Ret params, s')
    /\ drop 12 params = normalised L result l1 l2 l3.
Proof.
  intros Hsol Ht Hd H0 H1 H2.
  destruct (params_of_solution result min_diffusivity tensor l1 l2 l3 v0 v1 v2 s1
              Ht Hd) as [s' E].
  exists ([l1; l2; l3] ++ v0 ++ v1 ++ v2 ++ normalised L result l1 l2 l3), s'.
  split; [|now apply drop_12_params].
  rewrite <- E. clear E. revert Hsol.
  unfold _wls_iter, wls_solution, mbind, M_bind, Py.bind.
  repeat match goal with
         | |- context [match ?m ?st with _ => _ end] =>
             lazymatch m with
             | dot_mv _ _ => destruct (m st) as [[?|?|] ?]
             | dot_mm _ _ => destruct (m st) as [[?|?|] ?]
             | external _ (pinv _) => destruct (m st) as [[?|?|] ?]
             end; try discriminate
         end.
  intros Hsol. injection Hsol as -> ->. reflexivity.
Qed.

(** C7: when the outside routines succeed and return three eigenvalues and
    three eigenvectors of three components, each per-voxel fit, OLS and
    WLS, returns its parameters, and what stands in them from position 12
    on is the entries 6 to 20 of its regression solution, each divided by
    the square of the mean of the three eigenvalues. *)
Theorem kurtosis_elements_normalised :
  (forall inv_design sig min_signal min_diffusivity
          result tensor l1 l2 l3 v0 v1 v2 s s1,
     ols_solution L inv_design sig min_signal s = (Ret result, s1) ->
     from_lower_triangular (slice 0 6 result) = Some tensor ->
     decompose_tensor tensor min_diffusivity = Some ([l1; l2; l3], [v0; v1; v2]) ->
     length v0 = 3%nat -> length v1 = 3%nat -> length v2 = 3%nat ->
     exists params s',
       _ols_iter L from_lower_triangular decompose_tensor
                 inv_design sig min_signal min_diffusivity s = (Ret params, s')
       /\ drop 12 params = normalised L result l1 l2 l3)
  /\
  (forall design_matrix inv_design sig min_signal min_diffusivity
          result tensor l1 l2 l3 v0 v1 v2 s s1,
     wls_solution L pinv design_matrix inv_design sig min_signal s = (Ret result, s1) ->
     from_lower_triangular (slice 0 6 result) = Some tensor ->
     decompose_tensor tensor min_diffusivity = Some ([l1; l2; l3], [v0; v1; v2]) ->
     length v0 = 3%nat -> length v1 = 3%nat -> length v2 = 3%nat ->
     exists params s',
       _wls_iter L pinv from_lower_triangular decompose_tensor
                 design_matrix inv_design sig min_signal min_diffusivity s
       = (Ret params, s')
       /\ drop 12 params = normalised L result l1 l2 l3).
Proof.
  split; intros.
  - eapply ols_iter_normalised; eauto.
  - eapply wls_iter_normalised; eauto.
Qed.

End Normalisation.

(** ** Closed examples of the fits *)

Lemma min_signal_guard_witness :
  ((-1 <=? 0) = true
   /\ forall s,
        ols_fit_dki example_libm Example.pinv Example.from_lower_triangular
                    Example.decompose_tensor
                    Example.design_matrix Example.data_flat (-1) s
        = (Raise min_signal_error, s)
        /\ wls_fit_dki example_libm Example.pinv Example.from_lower_triangular
                       Example.decompose_tensor
                       Example.design_matrix Example.data_flat (-1) s
           = (Raise min_signal_error, s))
  /\
  ((0 <? 1) = true
   /\ forall s,
        fst (ols_fit_dki example_libm Example.pinv Example.from_lower_triangular
                         Example.decompose_tensor
                         Example.design_matrix Example.data_flat 1 s)
        <> Raise min_signal_error
        /\ fst (wls_fit_dki example_libm Example.pinv Example.from_lower_triangular
                            Example.decompose_tensor
                            Example.design_matrix Example.data_flat 1 s)
           <> Raise min_signal_error).
Proof.
  split; (split; [reflexivity|]).
  - apply (proj1 (min_signal_guard example_libm Example.pinv
                    Example.from_lower_triangular Example.decompose_tensor
                    Example.design_matrix Example.data_flat (-1))).
    reflexivity.
  - apply (proj2 (min_signal_guard example_libm Example.pinv
                    Example.from_lower_triangular Example.decompose_tensor
                    Example.design_matrix Example.data_flat 1)).
    reflexivity.
Defined.

(** The OLS fit of the example: the eigenvalues (3, 2, 1) have mean 2, and
    the kurtosis entries 4, 8, ..., 60 come out divided by 4. *)
Example ols_iter_example :
  run (_ols_iter example_libm Example.from_lower_triangular
                 Example.decompose_tensor Example.inv_design [2] 1 0.5)
  = Ret ([3; 2; 1] ++ [1; 0; 0] ++ [0; 1; 0] ++ [0; 0; 1]
         ++ [1; 2; 3; 4; 5; 6; 7; 8; 9; 10; 11; 12; 13; 14; 15]).
Proof. vm_compute. reflexivity. Qed.

Lemma kurtosis_elements_normalised_witness :
  (exists params s',
     _ols_iter example_libm Example.from_lower_triangular Example.decompose_tensor
               Example.inv_design [2] 1 0.5 s0 = (Ret params, s')
     /\ drop 12 params
        = normalised example_libm
            [3; 0; 2; 0; 0; 1; 4; 8; 12; 16; 20; 24; 28; 32; 36; 40; 44; 48; 52;
             56; 60; 0] 3 2 1)
  /\
  (exists params s',
     _wls_iter example_libm Example.pinv Example.from_lower_triangular
               Example.decompose_tensor
               Example.design_matrix Example.inv_design [2] 1 0.5 s0
     = (Ret params, s')
     /\ drop 12 params
        = normalised example_libm
            [0; 0; 0; 0; 0; 0; 0; 0; 0; 0; 0; 0; 0; 0; 0; 0; 0; 0; 0; 0; 0; 1]
            0.5 0.5 0.5).
Proof.
  split.
  - apply (proj1 (kurtosis_elements_normalised example_libm Example.pinv
                    Example.from_lower_triangular Example.decompose_tensor)
             Example.inv_design [2] 1 0.5 _
             [[3; 0; 0]; [0; 2; 0]; [0; 0; 1]] 3 2 1
             [1; 0; 0] [0; 1; 0] [0; 0; 1] s0 s0); reflexivity.
  - apply (proj2 (kurtosis_elements_normalised example_libm Example.pinv
                    Example.from_lower_triangular Example.decompose_tensor)
             Example.design_matrix Example.inv_design [2] 1 0.5 _
             [[0; 0; 0]; [0; 0; 0]; [0; 0; 0]] 0.5 0.5 0.5
             [1; 0; 0] [0; 1; 0] [0; 0; 1] s0 s0); reflexivity.
Defined.

(** ** Zero divisors in the closed-form coefficients *)

Lemma mono_ret {A} (a : A) : mono (mret a).
Proof. intros s. simpl. lia. Qed.

Lemma mono_raise {A} (e : exn) : mono (raise e : M A).
Proof. intros s. simpl. lia. Qed.

Lemma mono_out_of_fuel {A} : mono (out_of_fuel : M A).
Proof. intros s. simpl. lia. Qed.

Lemma mono_warn (n : nat) : mono (warn_zero_divisors n).
Proof. intros s. simpl. lia. Qed.

Lemma mono_bind {A B} (m : M A) (k : A -> M B) :
  mono m -> (forall a, mono (k a)) -> mono (m ≫= k).
Proof.
  intros Hm Hk s. unfold mbind, M_bind, Py.bind.
  specialize (Hm s). destruct (m s) as [[a|e|] s']; simpl in *; auto.
  specialize (Hk a s'). lia.
Qed.

Lemma mono_div (a b : Np.arr) : mono (Np.div a b).
Proof. intros s. simpl. lia. Qed.

Lemma mono_div_scalar (a : Np.arr) (k : float) : mono (Np.div_scalar a k).
Proof. intros s. simpl. lia. Qed.

Lemma mono_scalar_div (k : float) (a : Np.arr) : mono (Np.scalar_div k a).
Proof. intros s. simpl. lia. Qed.

Lemma mono_max (a : Np.arr) : mono (Np.max a).
Proof. intros s. destruct a; simpl; lia. Qed.

Lemma reaches_bind_l {A B} (n : nat) (m : M A) (k : A -> M B) (s : errstate) :
  reaches n m s -> (forall a, mono (k a)) -> reaches n (m ≫= k) s.
Proof.
  unfold reaches, mbind, M_bind, Py.bind. intros Hm Hk.
  destruct (m s) as [[a|e|] s']; simpl in *; auto.
  specialize (Hk a s'). lia.
Qed.

Lemma reaches_bind_r {A B} (n : nat) (m : M A) (k : A -> M B) (a : A)
    (s s' : errstate) :
  m s = (Ret a, s') -> reaches n (k a) s' -> reaches n (m ≫= k) s.
Proof. unfold reaches, mbind, M_bind, Py.bind. intros E. now rewrite E. Qed.

Lemma reaches_if_true {A} (n : nat) (b : bool) (m1 m2 : M A) (s : errstate) :
  b = true -> reaches n m1 s -> reaches n (if b then m1 else m2) s.
Proof. now intros ->. Qed.

Create HintDb mono.

#[local] Hint Resolve mono_ret mono_raise mono_out_of_fuel mono_warn mono_div
  mono_div_scalar mono_scalar_div mono_max : mono.

Ltac mono_steps :=
  repeat first
    [ progress auto with mono
    | progress cbv zeta
    | apply mono_bind; [ | intros ? ]
    | match goal with
      | |- mono (if ?b then _ else _) => destruct b
      | |- mono (match ?x with _ => _ end) => destruct x
      end ].

Section ZeroDivisors.

Context (L : libm).

Lemma mono_rf_deviations (xn yn zn : Np.arr) : mono (rf_deviations xn yn zn).
Proof. unfold rf_deviations. mono_steps. Qed.

Lemma mono_rd_deviations (xn yn zn sigma : Np.arr) (power4 : float) :
  mono (rd_deviations xn yn zn sigma power4).
Proof. unfold rd_deviations. mono_steps. Qed.

Lemma mono_rf_while (fuel : nat) : forall v, mono (rf_while L fuel v).
Proof.
  induction fuel as [|fuel IH]; intros v; simpl;
    destruct (errtol L <=? rf_epslon v); auto with mono.
  apply mono_bind; [apply mono_rf_deviations | apply IH].
Qed.

Lemma mono_rd_while (fuel : nat) : forall v, mono (rd_while L fuel v).
Proof.
  induction fuel as [|fuel IH]; intros v; simpl;
    destruct (errtol L <=? rd_epslon v); auto with mono.
  apply mono_bind; [apply mono_scalar_div | intros q].
  apply mono_bind; [apply mono_rd_deviations | apply IH].
Qed.

Lemma mono_rfpython (fuel : nat) (x y z : Np.arr) : mono (rfpython L fuel x y z).
Proof.
  unfold rfpython.
  apply mono_bind; [apply mono_rf_deviations | intros v].
  apply mono_bind; [apply mono_rf_while | intros v']. apply mono_div.
Qed.

Lemma mono_rdpython (fuel : nat) (x y z : Np.arr) : mono (rdpython L fuel x y z).
Proof.
  unfold rdpython.
  apply mono_bind; [apply mono_rd_deviations | intros v].
  apply mono_bind; [apply mono_rd_while | intros v']. mono_steps.
Qed.

Lemma mono_alpha (a : Np.arr) : mono (alpha L a).
Proof. unfold alpha. mono_steps. Qed.

#[local] Hint Resolve mono_rfpython mono_rdpython mono_alpha : mono.

Lemma mono_A2233 (fuel : nat) (a b c : Np.arr) : mono (A2233 L fuel a b c).
Proof. unfold A2233. mono_steps. Qed.

#[local] Hint Resolve mono_A2233 : mono.

(** C8 (the code at the failing input): for the strictly positive
    eigenvalues a = 1, b = 2, c = 1, two of them equal, [A1111] evaluates
    a division by zero, with any C library and any fuel: the mask of the
    general formula tests [a != b] and [b != c] and holds, and the divisor
    [18*(a-b)*(a-c)] is zero. *)
Theorem A1111_divides_by_zero (fuel : nat) :
  (1 <= warnings (A1111 L fuel [1%float] [2%float] [1%float]))%nat.
Proof.
  unfold warnings. change (reaches 1 (A1111 L fuel [1] [2] [1]) s0).
  unfold A1111. cbv zeta.
  eapply reaches_bind_r; [reflexivity|].
  apply reaches_bind_l.
  - apply reaches_if_true; [vm_compute; reflexivity|].
    apply reaches_bind_l.
    + unfold reaches. vm_compute. lia.
    + intros q. mono_steps.
  - intros Aarray. mono_steps.
Qed.

End ZeroDivisors.

(** ** What does hold of the coefficients and of the sum *)

Lemma ltb_0_eqb_refl (x : float) : (0 <? x) = true -> (x =? x) = true.
Proof.
  rewrite ltb_spec, FloatAxioms.eqb_spec. unfold SFltb, SFeqb.
  change (Prim2SF 0) with (S754_zero false).
  destruct (Prim2SF x) as [sg|sg| |sg m e]; simpl; try discriminate;
    destruct sg; simpl; try discriminate; try reflexivity.
  intros _. rewrite Z.compare_refl, Pos.compare_cont_refl. reflexivity.
Qed.

Section Isotropic.

Context (L : libm).

(** Three equal, strictly positive eigenvalues: no mask holds, no division
    by zero is evaluated, and the constants of the first line are
    returned, [1/5] by [A1111] and [1/15] by [A2233]. *)
Lemma A2233_isotropic (fuel : nat) (a : float) (s : errstate) :
  (0 <? a) = true -> A2233 L fuel [a] [a] [a] s = (Ret [1 * 1 / 15], s).
Proof.
  intros Hpos. pose proof (ltb_0_eqb_refl a Hpos) as Heq.
  pose proof (ltb_0_not_leb_0 a Hpos) as Hle. destruct s as [n].
  unfold A2233, all_positive, some_nonpositive, mbind, M_bind, Py.bind. simpl.
  rewrite Hpos, Heq, Hle. simpl. rewrite Nat.add_0_r. reflexivity.
Qed.

Lemma A1111_isotropic (fuel : nat) (a : float) (s : errstate) :
  (0 <? a) = true -> A1111 L fuel [a] [a] [a] s = (Ret [1 * 1 / 5], s).
Proof.
  intros Hpos. pose proof (ltb_0_eqb_refl a Hpos) as Heq.
  pose proof (ltb_0_not_leb_0 a Hpos) as Hle. destruct s as [n].
  unfold A1111, all_positive, some_nonpositive, mbind, M_bind, Py.bind. simpl.
  rewrite Hpos, Heq, Hle. simpl. rewrite Nat.add_0_r. reflexivity.
Qed.

(** Two minor eigenvalues equal, the case of [F1m(l1, l2, l3)] for a
    prolate tensor: no mask of [A1111] holds and the constant [1/5] of the
    isotropic case is returned. *)
Lemma A1111_minor_equal_default (fuel : nat) (s : errstate) :
  A1111 L fuel [2] [1] [1] s = (Ret [1 * 1 / 5], s).
Proof.
  destruct s as [n]. unfold A1111, mbind, M_bind, Py.bind. simpl.
  rewrite Nat.add_0_r. reflexivity.
Qed.

(** The statements under [# Compute MK] return their first product only:
    for the eigenvalues (1, 1, 1) and six rotated elements equal to 1 that
    is [F1m(1, 1, 1) * 1 = 0.2]. *)
Lemma mean_kurtosis_MK_first_product (fuel : nat) (s : errstate) :
  mean_kurtosis_MK L fuel (PMat [[1; 1; 1]]) [1] [1] [1] [1] [1] [1] s
  = (Ret [0.2], s).
Proof.
  destruct s as [n].
  unfold mean_kurtosis_MK, F1m, F2m, mbind, M_bind, Py.bind. simpl.
  rewrite !Nat.add_0_r. reflexivity.
Qed.

End Isotropic.

(** * Further properties *)

(** ** The design matrix *)

Lemma zip_with_map_same {A B C D} (f : B -> C -> D) (g : A -> B) (h : A -> C)
    (l : list A) :
  zip_with f (map g l) (map h l) = map (fun a => f (g a) (h a)) l.
Proof. induction l as [|a l IH]; simpl; [reflexivity | now rewrite IH]. Qed.

Lemma replicate_length_map {A B C} (g : A -> B) (l : list A) (x : C) :
  replicate (length (map g l)) x = map (fun _ => x) l.
Proof. induction l as [|a l IH]; simpl; [reflexivity | now rewrite IH]. Qed.

Lemma design_matrix_rows (L : libm) (gtab : gradient_table) :
  set_col
    (set_col (set_col (set_col (set_col (set_col (set_col (set_col (set_col
    (set_col (set_col (set_col (set_col (set_col (set_col (set_col (set_col
    (set_col (set_col (set_col (set_col (set_col
      (replicate (length (map bval gtab)) (Np.zeros 22))
      0 (np_neg (map bval gtab) *^ map bvec0 gtab *^ map bvec0 gtab))
      1 ((-2) .* map bval gtab *^ map bvec0 gtab *^ map bvec1 gtab))
      2 (np_neg (map bval gtab) *^ map bvec1 gtab *^ map bvec1 gtab))
      3 ((-2) .* map bval gtab *^ map bvec0 gtab *^ map bvec2 gtab))
      4 ((-2) .* map bval gtab *^ map bvec1 gtab *^ map bvec2 gtab))
      5 (np_neg (map bval gtab) *^ map bvec2 gtab *^ map bvec2 gtab))
      6 (map (fun x => x / 6)
           (map bval gtab *^ map bval gtab *^ np_power L (map bvec0 gtab) 4)))
      7 (map (fun x => x / 6)
           (map bval gtab *^ map bval gtab *^ np_power L (map bvec1 gtab) 4)))
      8 (map (fun x => x / 6)
           (map bval gtab *^ map bval gtab *^ np_power L (map bvec2 gtab) 4)))
      9 (map (fun x => x / 6)
           (4 .* map bval gtab *^ map bval gtab *^ np_power L (map bvec0 gtab) 3
            *^ map bvec1 gtab)))
      10 (map (fun x => x / 6)
            (4 .* map bval gtab *^ map bval gtab *^ np_power L (map bvec0 gtab) 3
             *^ map bvec2 gtab)))
      11 (map (fun x => x / 6)
            (4 .* map bval gtab *^ map bval gtab *^ np_power L (map bvec1 gtab) 3
             *^ map bvec0 gtab)))
      12 (map (fun x => x / 6)
            (4 .* map bval gtab *^ map bval gtab *^ np_power L (map bvec1 gtab) 3
             *^ map bvec2 gtab)))
      13 (map (fun x => x / 6)
            (4 .* map bval gtab *^ map bval gtab *^ np_power L (map bvec2 gtab) 3
             *^ map bvec0 gtab)))
      14 (map (fun x => x / 6)
            (4 .* map bval gtab *^ map bval gtab *^ np_power L (map bvec2 gtab) 3
             *^ map bvec1 gtab)))
      15 (map bval gtab *^ map bval gtab *^ Np.square (map bvec0 gtab)
          *^ Np.square (map bvec1 gtab)))
      16 (map bval gtab *^ map bval gtab *^ Np.square (map bvec0 gtab)
          *^ Np.square (map bvec2 gtab)))
      17 (map bval gtab *^ map bval gtab *^ Np.square (map bvec1 gtab)
          *^ Np.square (map bvec2 gtab)))
      18 (2 .* map bval gtab *^ map bval gtab *^ Np.square (map bvec0 gtab)
          *^ map bvec1 gtab *^ map bvec2 gtab))
      19 (2 .* map bval gtab *^ map bval gtab *^ Np.square (map bvec1 gtab)
          *^ map bvec0 gtab *^ map bvec2 gtab))
      20 (2 .* map bval gtab *^ map bval gtab *^ Np.square (map bvec2 gtab)
          *^ map bvec0 gtab *^ map bvec1 gtab))
      21 (Np.ones (length (map bval gtab)))
  = map (design_row L) gtab.
Proof.
  unfold np_neg, np_power, Np.scale, Np.mul, Np.square, Np.ones, Np.zeros, set_col.
  repeat rewrite ?replicate_length_map, ?List.map_map, ?zip_with_map_same.
  apply List.map_ext. intros m. reflexivity.
Qed.

Lemma div_scalar_6 (a : Np.arr) (s : errstate) :
  Np.div_scalar a 6 s = (Ret (map (fun x => x / 6) a), s).
Proof.
  destruct s as [n]. unfold Np.div_scalar, mbind, M_bind, Py.bind. simpl.
  rewrite Nat.add_0_r. reflexivity.
Qed.

Lemma dki_design_matrix_eq (L : libm) (gtab : gradient_table) (s : errstate) :
  dki_design_matrix L gtab s = (Ret (map (design_row L) gtab), s).
Proof.
  unfold dki_design_matrix. cbv zeta.
  do 9 (erewrite bind_ret_eq by apply div_scalar_6).
  unfold mret, M_ret, Py.ret.
  f_equal. f_equal. apply design_matrix_rows.
Qed.

Lemma design_row_length (L : libm) (m : measurement) :
  length (design_row L m) = 22%nat /\ design_row L m !! 21%nat = Some 1.
Proof. split; reflexivity. Qed.

(** X1: [dki_design_matrix] raises nothing and warns of nothing; it returns
    one row per measurement, the row of measurement [j] is made of that
    measurement alone, and every row has 22 entries, the last of them 1. *)
Theorem dki_design_matrix_by_rows (L : libm) (gtab : gradient_table)
    (s : errstate) :
  dki_design_matrix L gtab s = (Ret (map (design_row L) gtab), s)
  /\ length (map (design_row L) gtab) = length gtab
  /\ Forall (fun row => length row = 22%nat /\ row !! 21%nat = Some 1)
            (map (design_row L) gtab).
Proof.
  split; [apply dki_design_matrix_eq|]. split; [apply List.length_map|].
  apply List.Forall_map, Forall_forall. intros m _. apply design_row_length.
Qed.

(** Products and quotients of a zero, in binary64. *)
Lemma eqb_0_inv (z : float) :
  (z =? 0) = true -> exists sg, Prim2SF z = S754_zero sg.
Proof.
  rewrite FloatAxioms.eqb_spec. unfold SFeqb.
  change (Prim2SF 0) with (S754_zero false).
  destruct (Prim2SF z) as [sg|sg| |sg m e]; simpl; try discriminate.
  - intros _. now exists sg.
  - destruct sg; discriminate.
  - destruct sg; discriminate.
Qed.

Lemma eqb_0_intro (z : float) (sg : bool) :
  Prim2SF z = S754_zero sg -> (z =? 0) = true.
Proof.
  intros E. rewrite FloatAxioms.eqb_spec, E. reflexivity.
Qed.

Lemma is_finite_inv (x : float) :
  is_finite x = true ->
  (exists sg, Prim2SF x = S754_zero sg)
  \/ (exists sg m e, Prim2SF x = S754_finite sg m e).
Proof.
  unfold is_finite, is_nan, is_infinity.
  rewrite !FloatAxioms.eqb_spec, abs_spec. unfold SFeqb.
  change (Prim2SF infinity) with (S754_infinity false).
  destruct (Prim2SF x) as [sg|sg| |sg m e]; simpl; try discriminate;
    try (destruct sg; discriminate).
  - intros _. left. now exists sg.
  - intros _. right. now exists sg, m, e.
Qed.

Lemma mul_zero_l (z x : float) :
  (z =? 0) = true -> is_finite x = true -> (z * x =? 0) = true.
Proof.
  intros Hz Hx. destruct (eqb_0_inv z Hz) as [sz Ez].
  destruct (is_finite_inv x Hx) as [[sx Ex]|(sx & m & e & Ex)];
    apply (eqb_0_intro _ (xorb sz sx)); rewrite mul_spec, Ez, Ex; reflexivity.
Qed.

Lemma mul_zero_r (x z : float) :
  is_finite x = true -> (z =? 0) = true -> (x * z =? 0) = true.
Proof.
  intros Hx Hz. destruct (eqb_0_inv z Hz) as [sz Ez].
  destruct (is_finite_inv x Hx) as [[sx Ex]|(sx & m & e & Ex)];
    apply (eqb_0_intro _ (xorb sx sz)); rewrite mul_spec, Ez, Ex; reflexivity.
Qed.

Lemma opp_zero (z : float) : (z =? 0) = true -> (- z =? 0) = true.
Proof.
  intros Hz. destruct (eqb_0_inv z Hz) as [sz Ez].
  apply (eqb_0_intro _ (negb sz)). rewrite opp_spec, Ez. reflexivity.
Qed.

Lemma div_zero_6 (z : float) : (z =? 0) = true -> (z / 6 =? 0) = true.
Proof.
  intros Hz. destruct (eqb_0_inv z Hz) as [sz Ez].
  apply (eqb_0_intro _ (xorb sz false)). rewrite div_spec, Ez. reflexivity.
Qed.

Lemma zero_is_finite (z : float) : (z =? 0) = true -> is_finite z = true.
Proof.
  intros Hz. destruct (eqb_0_inv z Hz) as [sz Ez].
  unfold is_finite, is_nan, is_infinity.
  rewrite !FloatAxioms.eqb_spec, abs_spec, Ez. reflexivity.
Qed.

Lemma design_row_b0 (L : libm) (m : measurement) :
  (bval m =? 0) = true -> regular_direction L m = true ->
  Forall (fun x => (x =? 0) = true) (take 21 (design_row L m)).
Proof.
  intros Hb Hreg. unfold regular_direction in Hreg. simpl in Hreg.
  repeat match goal with
         | H : (_ && _) = true |- _ => apply andb_prop in H; destruct H
         end.
  pose proof (zero_is_finite _ Hb) as Hbf.
  pose proof (opp_zero _ Hb) as Hnb.
  assert (Hbb : (bval m * bval m =? 0) = true) by now apply mul_zero_l.
  assert (H2b : (2 * bval m =? 0) = true) by now apply mul_zero_r.
  assert (H4b : (4 * bval m =? 0) = true) by now apply mul_zero_r.
  assert (Hm2b : ((-2) * bval m =? 0) = true) by now apply mul_zero_r.
  unfold design_row. cbv zeta. simpl take.
  repeat (apply List.Forall_cons;
          [ repeat first [ assumption | apply div_zero_6
                         | apply mul_zero_l; [|assumption] ] | ]).
  apply List.Forall_nil.
Qed.

(** X2: a measurement with [b = 0] and a regular direction gives a row of
    zeros (of either sign) but for the constant column, which is 1. *)
Theorem dki_design_matrix_b0_row (L : libm) (gtab : gradient_table) (i : nat)
    (m : measurement) (s : errstate) :
  gtab !! i = Some m ->
  (bval m =? 0) = true -> regular_direction L m = true ->
  exists B row,
    dki_design_matrix L gtab s = (Ret B, s)
    /\ B !! i = Some row
    /\ Forall (fun x => (x =? 0) = true) (take 21 row)
    /\ row !! 21%nat = Some 1.
Proof.
  intros Hi Hb Hreg.
  exists (map (design_row L) gtab), (design_row L m).
  split; [apply dki_design_matrix_eq|]. split.
  - change (map (design_row L) gtab) with (design_row L <$> gtab).
    rewrite list_lookup_fmap, Hi. reflexivity.
  - split; [now apply design_row_b0 | reflexivity].
Qed.

Lemma dki_design_matrix_b0_row_witness :
  exists B row,
    dki_design_matrix example_libm
      [Measurement 1000 1 0 0; Measurement 0 0 1 0] s0 = (Ret B, s0)
    /\ B !! 1%nat = Some row
    /\ Forall (fun x => (x =? 0) = true) (take 21 row)
    /\ row !! 21%nat = Some 1.
Proof.
  apply (dki_design_matrix_b0_row example_libm
           [Measurement 1000 1 0 0; Measurement 0 0 1 0] 1
           (Measurement 0 0 1 0) s0); reflexivity.
Defined.

(** ** The key of [Wcons] and the rotation *)

Lemma quadruple_keys_separate :
  Forall (fun q => Forall (fun q' =>
            quadruple_key q = quadruple_key q' <-> q ≡ₚ q') quadruples)
         quadruples.
Proof. apply (bool_decide_unpack _). vm_compute. exact I. Qed.

Lemma quadruple_in (i j k l : nat) :
  (i < 3)%nat -> (j < 3)%nat -> (k < 3)%nat -> (l < 3)%nat ->
  [i; j; k; l] ∈ quadruples.
Proof.
  intros Hi Hj Hk Hl.
  destruct i as [|[|[|i]]]; try lia;
    destruct j as [|[|[|j]]]; try lia;
    destruct k as [|[|[|k]]]; try lia;
    destruct l as [|[|[|l]]]; try lia;
    apply list_elem_of_In; vm_compute; tauto.
Qed.

(** X3: the note in [Wcons] holds.  For indices in 0..2 the product
    [(i+1)*(j+1)*(k+1)*(l+1)] is the same for two quadruples exactly when
    one is a permutation of the other, so the key names the symmetry
    class. *)
Theorem index_key_names_symmetry_class (i j k l i' j' k' l' : nat) :
  (i < 3)%nat -> (j < 3)%nat -> (k < 3)%nat -> (l < 3)%nat ->
  (i' < 3)%nat -> (j' < 3)%nat -> (k' < 3)%nat -> (l' < 3)%nat ->
  index_key i j k l = index_key i' j' k' l'
  <-> [i; j; k; l] ≡ₚ [i'; j'; k'; l'].
Proof.
  intros Hi Hj Hk Hl Hi' Hj' Hk' Hl'.
  pose proof quadruple_keys_separate as H.
  rewrite Forall_forall in H.
  specialize (H _ (quadruple_in i j k l Hi Hj Hk Hl)).
  rewrite Forall_forall in H.
  exact (H _ (quadruple_in i' j' k' l' Hi' Hj' Hk' Hl')).
Qed.

Lemma index_key_names_symmetry_class_witness :
  (index_key 0 1 2 2 = index_key 2 0 2 1 <-> [0; 1; 2; 2]%nat ≡ₚ [2; 0; 2; 1]%nat)
  /\ (index_key 0 0 1 1 = index_key 0 0 0 1 <-> [0; 0; 1; 1]%nat ≡ₚ [0; 0; 0; 1]%nat).
Proof.
  split.
  - apply (index_key_names_symmetry_class 0 1 2 2 2 0 2 1); lia.
  - apply (index_key_names_symmetry_class 0 0 1 1 0 0 0 1); lia.
Defined.

(** Every dictionary lookup of [Wcons] uses [index_key]. *)
Lemma Wcons_uses_index_key (k_elements : Np.arr) :
  Wcons k_elements
  = (table ← indep_ele k_elements;
     for_each xyz (fun W ind_i =>
       for_each xyz (fun W ind_j =>
         for_each xyz (fun W ind_k =>
           for_each xyz (fun W ind_l =>
             v ← dict_get table (index_key ind_i ind_j ind_k ind_l);
             mret (setitem4 W ind_i ind_j ind_k ind_l v)) W) W) W) zeros4).
Proof. reflexivity. Qed.

(** X4: [Wrotate] never returns.  With an empty [kt] it raises the
    [IndexError] of [Wcons]; with any other [kt] it raises a [TypeError] at
    [range(inds)], for the default index set and for every index argument
    a caller passes, and for every basis. *)
Theorem Wrotate_never_returns (kt : Np.arr) (Basis : list Np.arr)
    (inds : option inds_arg) (s : errstate) :
  exists e,
    Wrotate kt Basis inds s = (Raise e, s)
    /\ match kt with
       | [] => e = IndexError
       | _ :: _ => exists msg, e = TypeError msg
       end.
Proof.
  destruct kt as [|k0 rest].
  - exists IndexError. split; reflexivity.
  - unfold Wrotate.
    erewrite bind_ret_eq by apply Wcons_cons.
    destruct inds as [[q|rows]|]; eexists; (split; [reflexivity|]);
      eexists; reflexivity.
Qed.


(** ** Coefficients of voxels with an eigenvalue that is not positive *)

Lemma length_put (m : Np.mask) (a v : Np.arr) : length (Np.put m a v) = length a.
Proof.
  revert a v. induction m as [|[|] m IH]; intros [|x a] v; simpl; auto.
  destruct v; simpl; auto.
Qed.

Lemma lookup_map {A B} (f : A -> B) (l : list A) (i : nat) :
  map f l !! i = f <$> (l !! i).
Proof. revert i. induction l as [|x l IH]; intros [|i]; simpl; auto. Qed.

Lemma lookup_some_nonpositive (a b c : Np.arr) (i : nat) (x y z : float) :
  a !! i = Some x -> b !! i = Some y -> c !! i = Some z ->
  some_nonpositive a b c !! i = Some ((x <=? 0) || (y <=? 0) || (z <=? 0)).
Proof.
  intros Ha Hb Hc.
  unfold some_nonpositive, Np.logical_or, Np.le0.
  rewrite !lookup_zip_with, !lookup_map, Ha, Hb, Hc. reflexivity.
Qed.

Lemma fill_zero_where_nonpositive (a b c X : Np.arr) :
  length b = length a -> length c = length a -> length X = length a ->
  zero_where_nonpositive a b c (Np.fill (some_nonpositive a b c) X 0).
Proof.
  intros Hb Hc HX. split.
  - unfold Np.fill, some_nonpositive, Np.logical_or, Np.le0.
    rewrite !length_zip_with, !List.length_map. lia.
  - intros i x y z Ha Hbi Hci Hneg.
    unfold Np.fill. rewrite lookup_zip_with.
    rewrite (lookup_some_nonpositive a b c i x y z Ha Hbi Hci), Hneg.
    destruct (lookup_lt_is_Some_2 X i) as [w Hw].
    { rewrite HX. apply lookup_lt_is_Some_1. eauto. }
    rewrite Hw. reflexivity.
Qed.

Ltac run_branches :=
  cbv beta iota zeta delta [mbind M_bind Py.bind Np.div Np.div_scalar
    warn_zero_divisors mret M_ret Py.ret];
  repeat match goal with
         | |- context [if Np.any ?m then _ else _] => destruct (Np.any m)
         end.

Lemma C2222_vanishes (a b c : Np.arr) (s : errstate) :
  length b = length a -> length c = length a ->
  exists r s', C2222 a b c s = (Ret r, s') /\ zero_where_nonpositive a b c r.
Proof.
  intros Hb Hc. unfold C2222. run_branches;
    (eexists _, _; split; [reflexivity|]);
    apply fill_zero_where_nonpositive; auto;
    rewrite ?length_put; apply length_replicate.
Qed.

Lemma C2233_vanishes (a b c : Np.arr) (s : errstate) :
  length b = length a -> length c = length a ->
  exists r s', C2233 a b c s = (Ret r, s') /\ zero_where_nonpositive a b c r.
Proof.
  intros Hb Hc. unfold C2233. run_branches;
    (eexists _, _; split; [reflexivity|]);
    apply fill_zero_where_nonpositive; auto;
    rewrite ?length_put; apply length_replicate.
Qed.

(** X6: [C2222] and [C2233] (the coefficients [G1] and [G2] over 6) return,
    for arrays of one length, an array of that length with an exact 0 at
    every voxel with an eigenvalue [<= 0]; no exception is raised. *)
Theorem C_coefficients_vanish_where_nonpositive (a b c : Np.arr) (s : errstate) :
  length b = length a -> length c = length a ->
  (exists r s', C2222 a b c s = (Ret r, s') /\ zero_where_nonpositive a b c r)
  /\ (exists r s', C2233 a b c s = (Ret r, s') /\ zero_where_nonpositive a b c r).
Proof.
  intros Hb Hc. split; [now apply C2222_vanishes | now apply C2233_vanishes].
Qed.

Lemma C_coefficients_vanish_where_nonpositive_witness :
  (exists r s', C2222 [3; 2; -1] [2; 0; 1] [1; 1; 1] s0 = (Ret r, s')
                /\ zero_where_nonpositive [3; 2; -1] [2; 0; 1] [1; 1; 1] r)
  /\ (exists r s', C2233 [3; 2; -1] [2; 0; 1] [1; 1; 1] s0 = (Ret r, s')
                   /\ zero_where_nonpositive [3; 2; -1] [2; 0; 1] [1; 1; 1] r).
Proof.
  apply (C_coefficients_vanish_where_nonpositive
           [3; 2; -1] [2; 0; 1] [1; 1; 1] s0); reflexivity.
Defined.

Lemma leb_0_not_ltb_0 (x : float) : (x <=? 0) = true -> (0 <? x) = false.
Proof.
  rewrite ltb_spec, leb_spec. unfold SFltb, SFleb.
  change (Prim2SF 0) with (S754_zero false).
  destruct (Prim2SF x) as [sg|sg| |sg m e]; simpl; try discriminate;
    destruct sg; simpl; try discriminate; reflexivity.
Qed.

Section NonPositive.

Context (L : libm).

Ltac nonpositive_voxel a b c :=
  destruct (0 <? a) eqn:Ga, (0 <? b) eqn:Gb, (0 <? c) eqn:Gc,
           (a <=? 0) eqn:La, (b <=? 0) eqn:Lb, (c <=? 0) eqn:Lc;
  try discriminate;
  try (rewrite (leb_0_not_ltb_0 _ La) in Ga; discriminate);
  try (rewrite (leb_0_not_ltb_0 _ Lb) in Gb; discriminate);
  try (rewrite (leb_0_not_ltb_0 _ Lc) in Gc; discriminate);
  simpl; rewrite ?Nat.add_0_r; reflexivity.

(** X7: for one voxel with an eigenvalue [<= 0], [A1111] and [A2233] (the
    coefficients [F1] and [F2] over 6) enter no branch, call neither
    integral, and return an exact 0, with any fuel and no warning. *)
Theorem A_coefficients_vanish_when_nonpositive (fuel : nat) (a b c : float)
    (s : errstate) :
  (a <=? 0) || (b <=? 0) || (c <=? 0) = true ->
  A1111 L fuel [a] [b] [c] s = (Ret [0], s)
  /\ A2233 L fuel [a] [b] [c] s = (Ret [0], s).
Proof.
  intros Hneg. destruct s as [n]. split.
  - unfold A1111, all_positive, some_nonpositive, mbind, M_bind, Py.bind. simpl.
    nonpositive_voxel a b c.
  - unfold A2233, all_positive, some_nonpositive, mbind, M_bind, Py.bind. simpl.
    nonpositive_voxel a b c.
Qed.

(** X8: for one voxel with three equal, strictly positive eigenvalues,
    [A1111] returns [1/5] and [A2233] returns [1/15], with any fuel: no
    branch is entered, no division by zero is evaluated. *)
Theorem A_coefficients_isotropic (fuel : nat) (a : float) (s : errstate) :
  (0 <? a) = true ->
  A1111 L fuel [a] [a] [a] s = (Ret [1 * 1 / 5], s)
  /\ A2233 L fuel [a] [a] [a] s = (Ret [1 * 1 / 15], s).
Proof.
  intros Hpos. split; [now apply A1111_isotropic | now apply A2233_isotropic].
Qed.

End NonPositive.

Lemma A_coefficients_vanish_when_nonpositive_witness :
  A1111 example_libm 0 [2] [-1] [1] s0 = (Ret [0], s0)
  /\ A2233 example_libm 0 [2] [-1] [1] s0 = (Ret [0], s0).
Proof.
  apply (A_coefficients_vanish_when_nonpositive example_libm 0 2 (-1) 1 s0).
  reflexivity.
Defined.

Lemma A_coefficients_isotropic_witness :
  A1111 example_libm 0 [0.002] [0.002] [0.002] s0 = (Ret [1 * 1 / 5], s0)
  /\ A2233 example_libm 0 [0.002] [0.002] [0.002] s0 = (Ret [1 * 1 / 15], s0).
Proof.
  apply (A_coefficients_isotropic example_libm 0 0.002 s0). reflexivity.
Defined.

(** ** The integrals and the coefficients: exceptions *)

(** X9: on three arrays of one length the integrals raise exactly when
    the arrays are empty, and then it is the [ValueError] of [np.max],
    raised before the loop: the maximum of the deviations has no element
    to start from.  This holds with any fuel. *)
Theorem carlson_raise_exactly_on_empty_arrays (L : libm) (fuel : nat)
    (x y z : Np.arr) (s : errstate) :
  length y = length x -> length z = length x ->
  (x = [] ->
   rfpython L fuel x y z s = (Raise max_error, s)
   /\ rdpython L fuel x y z s = (Raise max_error, s))
  /\ (x <> [] ->
      raises (fst (rfpython L fuel x y z s)) = false
      /\ raises (fst (rdpython L fuel x y z s)) = false).
Proof.
  intros Hy Hz. split.
  - intros ->. destruct y; [|discriminate Hy]. destruct z; [|discriminate Hz].
    destruct s as [n].
    split; unfold rfpython, rdpython, rf_deviations, rd_deviations,
             mbind, M_bind, Py.bind; simpl; rewrite ?Nat.add_0_r; reflexivity.
  - intros Hx. destruct x as [|x0 x]; [congruence|]. simpl in Hy, Hz. split.
    + now apply (rfpython_no_exception L (length x)).
    + now apply (rdpython_no_exception L (length x)).
Qed.

Lemma carlson_raise_exactly_on_empty_arrays_witness :
  (rfpython example_libm 100 [] [] [] s0 = (Raise max_error, s0)
   /\ rdpython example_libm 100 [] [] [] s0 = (Raise max_error, s0))
  /\ (raises (fst (rfpython example_libm 100 [3] [2] [1] s0)) = false
      /\ raises (fst (rdpython example_libm 100 [3] [2] [1] s0)) = false).
Proof.
  split.
  - apply (proj1 (carlson_raise_exactly_on_empty_arrays example_libm 100
                    [] [] [] s0 eq_refl eq_refl)). reflexivity.
  - apply (proj2 (carlson_raise_exactly_on_empty_arrays example_libm 100
                    [3] [2] [1] s0 eq_refl eq_refl)). discriminate.
Defined.

Lemma length_take_eq (m : Np.mask) (a b : Np.arr) :
  length a = length b -> length (Np.take m a) = length (Np.take m b).
Proof.
  revert a b. induction m as [|[|] m IH]; intros [|x a] [|y b] H;
    simpl in *; try discriminate; auto.
Qed.

Lemma take_any_nonempty (m : Np.mask) (a : Np.arr) :
  Np.any m = true -> (length m <= length a)%nat ->
  exists n, length (Np.take m a) = S n.
Proof.
  revert a. induction m as [|[|] m IH]; intros a Hany Hlen.
  - discriminate.
  - destruct a as [|x a]; simpl in *; [lia|]. eauto.
  - destruct a as [|x a]; simpl in *; [lia|]. apply IH; [exact Hany | lia].
Qed.

Section CoefficientExceptions.

Context (L : libm).

Lemma carlson_masked_no_exception (fuel : nat) (m : Np.mask) (a b c : Np.arr)
    (s : errstate) :
  Np.any m = true -> (length m <= length a)%nat ->
  length b = length a -> length c = length a ->
  raises (fst (rfpython L fuel (zip_with PrimFloat.div (Np.take m a) (Np.take m b))
                 (zip_with PrimFloat.div (Np.take m a) (Np.take m c))
                 (Np.ones (length (Np.take m a))) s)) = false
  /\ raises (fst (rdpython L fuel (zip_with PrimFloat.div (Np.take m a) (Np.take m b))
                    (zip_with PrimFloat.div (Np.take m a) (Np.take m c))
                    (Np.ones (length (Np.take m a))) s)) = false.
Proof.
  intros Hany Hm Hb Hc.
  destruct (take_any_nonempty m a Hany Hm) as [n Hn].
  pose proof (length_take_eq m a b (eq_sym Hb)) as Hnb.
  pose proof (length_take_eq m a c (eq_sym Hc)) as Hnc.
  split; [apply (rfpython_no_exception L n) | apply (rdpython_no_exception L n)];
    unfold Np.ones; rewrite ?length_zip_with, ?length_replicate; lia.
Qed.

Ltac crunch :=
  cbv beta iota zeta delta [mbind M_bind Py.bind Np.div Np.div_scalar
    Np.scalar_div warn_zero_divisors mret M_ret Py.ret alpha].

Ltac branch :=
  match goal with
  | |- context [if Np.any ?m then _ else _] => destruct (Np.any m) eqn:?
  end; crunch.

Ltac mask_length :=
  unfold all_positive, Np.logical_and, Np.logical_or, Np.gt0, Np.le0, Np.eq, Np.ne;
  rewrite ?length_zip_with, ?List.length_map; lia.

Ltac call_integral :=
  match goal with
  | E : Np.any ?m = true
    |- context [rfpython L ?f (zip_with PrimFloat.div (Np.take ?m ?a) (Np.take ?m ?b))
                  (zip_with PrimFloat.div (Np.take ?m ?a) (Np.take ?m ?c)) ?o ?st] =>
      let H := fresh "H" in
      assert (H := proj1 (carlson_masked_no_exception f m a b c st E
                            ltac:(mask_length) ltac:(lia) ltac:(lia)));
      destruct (rfpython L f (zip_with PrimFloat.div (Np.take m a) (Np.take m b))
                  (zip_with PrimFloat.div (Np.take m a) (Np.take m c)) o st)
        as [[?|?|] ?]; [clear H | discriminate H | reflexivity]
  | E : Np.any ?m = true
    |- context [rdpython L ?f (zip_with PrimFloat.div (Np.take ?m ?a) (Np.take ?m ?b))
                  (zip_with PrimFloat.div (Np.take ?m ?a) (Np.take ?m ?c)) ?o ?st] =>
      let H := fresh "H" in
      assert (H := proj2 (carlson_masked_no_exception f m a b c st E
                            ltac:(mask_length) ltac:(lia) ltac:(lia)));
      destruct (rdpython L f (zip_with PrimFloat.div (Np.take m a) (Np.take m b))
                  (zip_with PrimFloat.div (Np.take m a) (Np.take m c)) o st)
        as [[?|?|] ?]; [clear H | discriminate H | reflexivity]
  end.

Lemma A2233_no_exception (fuel : nat) (a b c : Np.arr) (s : errstate) :
  length b = length a -> length c = length a ->
  raises (fst (A2233 L fuel a b c s)) = false.
Proof.
  intros Hb Hc. unfold A2233. crunch. branch.
  - call_integral; crunch. call_integral; crunch. branch; reflexivity.
  - branch; reflexivity.
Qed.

Ltac call_A2233 :=
  match goal with
  | |- context [A2233 L ?f ?x ?y ?z ?st] =>
      let H := fresh "H" in
      assert (H := A2233_no_exception f x y z st ltac:(lia) ltac:(lia));
      destruct (A2233 L f x y z st) as [[?|?|] ?];
        [clear H | discriminate H | reflexivity]
  end.

Lemma A1111_no_exception (fuel : nat) (a b c : Np.arr) (s : errstate) :
  length b = length a -> length c = length a ->
  raises (fst (A1111 L fuel a b c s)) = false.
Proof.
  intros Hb Hc. unfold A1111. crunch. branch.
  - call_integral; crunch. call_integral; crunch.
    branch; [call_A2233; crunch|]; (branch; [call_A2233; crunch|]); reflexivity.
  - branch; [call_A2233; crunch|]; (branch; [call_A2233; crunch|]); reflexivity.
Qed.

(** X10: on arrays of one length the coefficients [F1m] and [F2m] raise no
    exception, whatever the eigenvalues and the fuel: the integrals are
    called only on the voxels a mask selects, and only when it selects
    one. *)
Theorem F_coefficients_raise_nothing (fuel : nat) (a b c : Np.arr)
    (s : errstate) :
  length b = length a -> length c = length a ->
  raises (fst (F1m L fuel a b c s)) = false
  /\ raises (fst (F2m L fuel a b c s)) = false.
Proof.
  intros Hb Hc. split.
  - now apply A1111_no_exception.
  - unfold F2m. crunch.
    assert (H := A2233_no_exception fuel a b c s Hb Hc).
    destruct (A2233 L fuel a b c s) as [[?|?|] ?]; [reflexivity | discriminate H | reflexivity].
Qed.

End CoefficientExceptions.

Lemma F_coefficients_raise_nothing_witness :
  raises (fst (F1m example_libm 50 [3; 1; 0; 1] [2; 2; 1; 1] [1; 1; 1; 1] s0)) = false
  /\ raises (fst (F2m example_libm 50 [3; 1; 0; 1] [2; 2; 1; 1] [1; 1; 1; 1] s0)) = false.
Proof.
  apply (F_coefficients_raise_nothing example_libm 50
           [3; 1; 0; 1] [2; 2; 1; 1] [1; 1; 1; 1] s0); reflexivity.
Defined.

(** ** The measures on arrays with one row per voxel *)

Lemma py_col_loop (k : nat) (rows : list Np.arr) :
  forall (acc : Np.arr) (s : errstate),
    for_each rows (fun acc row => x ← getitem row k; mret (acc ++ [x])) acc s
    = if forallb (fun row : Np.arr => k <? length row)%nat rows
      then (Ret (acc ++ map (fun row => nth k row 0) rows), s)
      else (Raise IndexError, s).
Proof.
  induction rows as [|row rows IH]; intros acc s; simpl.
  - rewrite app_nil_r. reflexivity.
  - unfold mbind, M_bind, Py.bind, getitem.
    destruct (row !! k) as [x|] eqn:E.
    + assert (Hk : (k < length row)%nat) by (apply lookup_lt_is_Some; eauto).
      apply Nat.ltb_lt in Hk. rewrite Hk. simpl.
      unfold mret at 1, M_ret at 1, Py.ret at 1. cbv beta iota.
      rewrite IH. rewrite <- app_assoc. simpl.
      rewrite (nth_lookup_Some _ _ 0 _ E). reflexivity.
    + assert (Hk : (k <? length row)%nat = false).
      { apply Nat.ltb_ge. now apply lookup_ge_None. }
      rewrite Hk. reflexivity.
Qed.

Lemma py_col_matrix (rows : list Np.arr) (k : nat) (s : errstate) :
  py_col (PMat rows) k s
  = if forallb (fun row : Np.arr => k <? length row)%nat rows
    then (Ret (map (fun row => nth k row 0) rows), s)
    else (Raise IndexError, s).
Proof. unfold py_col. now rewrite py_col_loop. Qed.

Lemma forallb_wider (rows : list Np.arr) (k k' : nat) :
  (k <= k')%nat ->
  forallb (fun row : Np.arr => k' <? length row)%nat rows = true ->
  forallb (fun row : Np.arr => k <? length row)%nat rows = true.
Proof.
  intros Hk. rewrite !forallb_forall. intros H row Hin.
  specialize (H row Hin). apply Nat.ltb_lt in H. apply Nat.ltb_lt. lia.
Qed.

Ltac read_col W k :=
  rewrite (py_col_matrix W k);
  let E := fresh "E" in
  destruct (forallb (fun row : Np.arr => k <? length row)%nat W) eqn:E;
  [cbv beta iota | try reflexivity].

(** X11: both measures unpack the six elements of [Wrotat] before anything
    else, so a row of [Wrotat] with fewer than six entries makes them raise
    an [IndexError], whatever the eigenvalues; [axial_kurtosis] does so
    although it uses the first element only. *)
Theorem kurtosis_measures_need_six_elements (evals : pyval)
    (evals' Wrotat : Linalg.matrix) (s : errstate) :
  forallb (fun row : Np.arr => 5 <? length row)%nat Wrotat = false ->
  radial_kurtosis evals (PMat Wrotat) s = (Raise IndexError, s)
  /\ axial_kurtosis evals' Wrotat s = (Raise IndexError, s).
Proof.
  intros Hshort. split.
  - unfold radial_kurtosis, mbind, M_bind, Py.bind.
    read_col Wrotat 0%nat. read_col Wrotat 1%nat. read_col Wrotat 1%nat.
    read_col Wrotat 3%nat.
    read_col Wrotat 4%nat. rewrite (py_col_matrix Wrotat 5), Hshort. reflexivity.
  - unfold axial_kurtosis, mbind, M_bind, Py.bind.
    read_col Wrotat 0%nat. read_col Wrotat 1%nat. read_col Wrotat 1%nat.
    read_col Wrotat 3%nat.
    read_col Wrotat 4%nat. rewrite (py_col_matrix Wrotat 5), Hshort. reflexivity.
Qed.

Lemma kurtosis_measures_need_six_elements_witness :
  radial_kurtosis (PMat [[3; 2; 1]]) (PMat [[1; 1; 1; 1; 1]]) s0
  = (Raise IndexError, s0)
  /\ axial_kurtosis [[3; 2; 1]] [[1; 1; 1; 1; 1]] s0 = (Raise IndexError, s0).
Proof.
  apply (kurtosis_measures_need_six_elements (PMat [[3; 2; 1]]) [[3; 2; 1]]
           [[1; 1; 1; 1; 1]] s0). reflexivity.
Defined.

Lemma py_col_ok (rows : list Np.arr) (k k' : nat) (s : errstate) :
  (k <= k')%nat ->
  forallb (fun row : Np.arr => k' <? length row)%nat rows = true ->
  py_col (PMat rows) k s = (Ret (map (fun row => nth k row 0) rows), s).
Proof.
  intros Hk H. rewrite py_col_matrix, (forallb_wider rows k k' Hk H). reflexivity.
Qed.

Lemma radial_kurtosis_returns (evals Wrotat : Linalg.matrix) (s : errstate) :
  length Wrotat = length evals ->
  forallb (fun row : Np.arr => 2 <? length row)%nat evals = true ->
  forallb (fun row : Np.arr => 5 <? length row)%nat Wrotat = true ->
  exists r s',
    radial_kurtosis (PMat evals) (PMat Wrotat) s = (Ret r, s')
    /\ length r = length evals.
Proof.
  intros Hlen He HW. unfold radial_kurtosis, G1m, G2m.
  repeat (erewrite bind_ret_eq by (eapply py_col_ok; [|eassumption]; lia)).
  set (e0 := map (fun row => nth 0 row 0) evals).
  set (e1 := map (fun row => nth 1 row 0) evals).
  set (e2 := map (fun row => nth 2 row 0) evals).
  assert (L0 : length e0 = length evals) by apply List.length_map.
  assert (L1 : length e1 = length evals) by apply List.length_map.
  assert (L2 : length e2 = length evals) by apply List.length_map.
  destruct (C2222_vanishes e0 e1 e2 s) as (G1 & s1 & E1 & H1 & _); [lia | lia |].
  erewrite bind_ret_eq by exact E1.
  repeat (erewrite bind_ret_eq by (eapply py_col_ok; [|eassumption]; lia)).
  fold e0 e1 e2.
  destruct (C2222_vanishes e0 e2 e1 s1) as (G1' & s2 & E2 & H2 & _); [lia | lia |].
  erewrite bind_ret_eq by exact E2.
  repeat (erewrite bind_ret_eq by (eapply py_col_ok; [|eassumption]; lia)).
  fold e0 e1 e2.
  destruct (C2233_vanishes e0 e1 e2 s2) as (G2 & s3 & E3 & H3 & _); [lia | lia |].
  unfold mbind at 1, M_bind at 1, Py.bind at 1.
  unfold mbind at 1, M_bind at 1, Py.bind at 1. rewrite E3.
  eexists _, _. split; [reflexivity|].
  unfold Np.add, Np.mul, Np.scale.
  repeat rewrite ?length_zip_with, ?List.length_map. lia.
Qed.

Lemma axial_kurtosis_returns (evals Wrotat : Linalg.matrix) (s : errstate) :
  length Wrotat = length evals ->
  forallb (fun row : Np.arr => 2 <? length row)%nat evals = true ->
  forallb (fun row : Np.arr => 5 <? length row)%nat Wrotat = true ->
  exists r s',
    axial_kurtosis evals Wrotat s = (Ret r, s') /\ length r = length evals.
Proof.
  intros Hlen He HW. unfold axial_kurtosis.
  repeat (erewrite bind_ret_eq by (eapply py_col_ok; [|eassumption]; lia)).
  unfold Np.div, mbind, M_bind, Py.bind, warn_zero_divisors.
  eexists _, _. split; [reflexivity|].
  unfold Np.add, Np.mul, Np.scale, Np.square.
  repeat rewrite ?length_zip_with, ?List.length_map. lia.
Qed.

(** X12: given one row of at least three eigenvalues and one row of at
    least six rotated elements per voxel, [radial_kurtosis] and
    [axial_kurtosis] raise nothing and return one value per voxel,
    whatever the values are (zero or negative eigenvalues included). *)
Theorem kurtosis_measures_return_per_voxel (evals Wrotat : Linalg.matrix)
    (s : errstate) :
  length Wrotat = length evals ->
  forallb (fun row : Np.arr => 2 <? length row)%nat evals = true ->
  forallb (fun row : Np.arr => 5 <? length row)%nat Wrotat = true ->
  (exists r s',
     radial_kurtosis (PMat evals) (PMat Wrotat) s = (Ret r, s')
     /\ length r = length evals)
  /\ (exists r s',
        axial_kurtosis evals Wrotat s = (Ret r, s') /\ length r = length evals).
Proof.
  intros Hlen He HW. split;
    [now apply radial_kurtosis_returns | now apply axial_kurtosis_returns].
Qed.

Lemma kurtosis_measures_return_per_voxel_witness :
  (exists r s',
     radial_kurtosis (PMat [[3; 2; 1]; [0; 0; -1]])
       (PMat [[1; 2; 3; 4; 5; 6]; [1; 1; 1; 1; 1; 1]]) s0 = (Ret r, s')
     /\ length r = length [[3; 2; 1]; [0; 0; -1]])
  /\ (exists r s',
        axial_kurtosis [[3; 2; 1]; [0; 0; -1]]
          [[1; 2; 3; 4; 5; 6]; [1; 1; 1; 1; 1; 1]] s0 = (Ret r, s')
        /\ length r = length [[3; 2; 1]; [0; 0; -1]]).
Proof.
  apply (kurtosis_measures_return_per_voxel [[3; 2; 1]; [0; 0; -1]]
           [[1; 2; 3; 4; 5; 6]; [1; 1; 1; 1; 1; 1]] s0); reflexivity.
Defined.

(** ** The tensor written out entry by entry *)

Lemma Wfit_entry_by_counts (K : Np.arr) (i j k l : nat) (s : errstate) :
  length K = 15%nat ->
  (i < 3)%nat -> (j < 3)%nat -> (k < 3)%nat -> (l < 3)%nat ->
  (W ← ambiguous_function_decompose_tensors_Wfit K; getitem4 W i j k l) s
  = (Ret (nth (position_by_counts [i; j; k; l]) K 0), s).
Proof.
  intros HK Hi Hj Hk Hl.
  do 15 (destruct K as [|? K]; [discriminate HK|]).
  destruct K; [|discriminate HK]. clear HK.
  destruct i as [|[|[|i]]]; try lia;
    destruct j as [|[|[|j]]]; try lia;
    destruct k as [|[|[|k]]]; try lia;
    destruct l as [|[|[|l]]]; try lia;
    reflexivity.
Qed.

(** X13: the tensor [Wfit] that [ambiguous_function_decompose_tensors]
    fills assignment by assignment is fully symmetric, and none of its 81
    entries is left at its initial 0: two entries whose indices are
    permutations of each other hold the same element of
    [K_tensor_elements]. *)
Theorem Wfit_fully_symmetric (K : Np.arr) (i j k l i' j' k' l' : nat)
    (s : errstate) :
  length K = 15%nat ->
  (i < 3)%nat -> (j < 3)%nat -> (k < 3)%nat -> (l < 3)%nat ->
  [i; j; k; l] ≡ₚ [i'; j'; k'; l'] ->
  exists n,
    (n < 15)%nat
    /\ (W ← ambiguous_function_decompose_tensors_Wfit K; getitem4 W i j k l) s
       = (Ret (nth n K 0), s)
    /\ (W ← ambiguous_function_decompose_tensors_Wfit K; getitem4 W i' j' k' l') s
       = (Ret (nth n K 0), s).
Proof.
  intros HK Hi Hj Hk Hl Hperm.
  assert (Hall : Forall (fun n => n < 3)%nat [i'; j'; k'; l']).
  { rewrite <- Hperm.
    repeat (apply List.Forall_cons; [assumption|]). apply List.Forall_nil. }
  inversion Hall as [|? ? Hi' Hall1]; subst.
  inversion Hall1 as [|? ? Hj' Hall2]; subst.
  inversion Hall2 as [|? ? Hk' Hall3]; subst.
  inversion Hall3 as [|? ? Hl' _]; subst.
  exists (position_by_counts [i; j; k; l]). split; [|split].
  - clear - Hi Hj Hk Hl.
    destruct i as [|[|[|i]]]; try lia;
      destruct j as [|[|[|j]]]; try lia;
      destruct k as [|[|[|k]]]; try lia;
      destruct l as [|[|[|l]]]; try lia;
      vm_compute; lia.
  - apply Wfit_entry_by_counts; assumption.
  - rewrite Wfit_entry_by_counts by assumption.
    unfold position_by_counts.
    rewrite !(proj1 (Permutation_count_occ Nat.eq_dec _ _) Hperm).
    reflexivity.
Qed.

Lemma Wfit_fully_symmetric_witness :
  exists n,
    (n < 15)%nat
    /\ (W ← ambiguous_function_decompose_tensors_Wfit kt_1_to_15;
        getitem4 W 0 1 1 2) s0
       = (Ret (nth n kt_1_to_15 0), s0)
    /\ (W ← ambiguous_function_decompose_tensors_Wfit kt_1_to_15;
        getitem4 W 2 1 0 1) s0
       = (Ret (nth n kt_1_to_15 0), s0).
Proof.
  apply (Wfit_fully_symmetric kt_1_to_15 0 1 1 2 2 1 0 1 s0);
    try reflexivity; try lia.
  apply (bool_decide_unpack _). vm_compute. exact I.
Defined.

(** X14: read back at the quadruples its names stand for, [Wfit] gives
    the 15 elements of [K_tensor_elements] in their order: the expansion
    that [Wcons] misses is done here. *)
Theorem Wfit_reads_back (K : Np.arr) (s : errstate) :
  length K = 15%nat ->
  (W ← ambiguous_function_decompose_tensors_Wfit K;
   read_at W Wfit_representatives) s
  = (Ret K, s).
Proof.
  intros HK.
  do 15 (destruct K as [|? K]; [discriminate HK|]).
  destruct K; [|discriminate HK].
  reflexivity.
Qed.

Lemma Wfit_reads_back_witness :
  (W ← ambiguous_function_decompose_tensors_Wfit kt_1_to_15;
   read_at W Wfit_representatives) s0
  = (Ret kt_1_to_15, s0).
Proof. apply (Wfit_reads_back kt_1_to_15 s0). reflexivity. Defined.

(** ** The shape check of [_roll_Wrotat] *)

Lemma shape_from_end_last (lead : list nat) (n : nat) (data : Np.arr)
    (s : errstate) :
  shape_from_end (NdArray (lead ++ [n]) data) 1 s = (Ret n, s).
Proof.
  unfold shape_from_end. simpl. rewrite reverse_app. reflexivity.
Qed.

(** Positions and indices in row-major order. *)
Lemma nd_size_snoc (sh : list nat) (n : nat) :
  nd_size (sh ++ [n]) = (nd_size sh * n)%nat.
Proof.
  unfold nd_size. induction sh as [|a sh IH]; simpl; [lia|].
  rewrite IH. lia.
Qed.

Lemma ravel_snoc (sh idx : list nat) (n i : nat) :
  length sh = length idx ->
  ravel (sh ++ [n]) (idx ++ [i]) = (ravel sh idx * n + i)%nat.
Proof.
  intros Hlen. unfold ravel.
  rewrite zip_with_app by exact Hlen.
  rewrite fold_left_app. reflexivity.
Qed.

Lemma unravel_snoc (sh : list nat) (n p : nat) :
  unravel (sh ++ [n]) p = unravel sh (p / n) ++ [(p mod n)%nat].
Proof.
  unfold unravel. rewrite reverse_app. simpl. rewrite reverse_cons.
  reflexivity.
Qed.

Lemma ravel_in_range (sh : list nat) :
  forall idx : list nat,
    Forall2 (fun n i => (i < n)%nat) sh idx ->
    (ravel sh idx < nd_size sh)%nat /\ unravel sh (ravel sh idx) = idx.
Proof.
  induction sh as [|n sh IH] using rev_ind; intros idx H.
  - apply Forall2_nil_inv_l in H as ->. split; [cbv; lia|reflexivity].
  - apply Forall2_app_inv_l in H as (idx1 & idx2 & H1 & H2 & ->).
    apply Forall2_cons_inv_l in H2 as (i & idx3 & Hi & H3 & ->).
    apply Forall2_nil_inv_l in H3 as ->.
    destruct (IH idx1 H1) as [Hlt Hinv].
    rewrite ravel_snoc by (eapply Forall2_length; exact H1).
    rewrite nd_size_snoc, unravel_snoc.
    assert (Hn : n <> 0%nat) by lia.
    split; [nia|].
    rewrite (Nat.add_comm _ i), Nat.div_add, Nat.Div0.mod_add by exact Hn.
    rewrite Nat.div_small, Nat.mod_small by exact Hi.
    simpl. rewrite Hinv. reflexivity.
Qed.

(** [np.rollaxis(a, -1)] on an array whose last axis has [n] entries. *)
Lemma np_rollaxis_last (lead : list nat) (n : nat) (data : Np.arr)
    (s : errstate) :
  np_rollaxis (NdArray (lead ++ [n]) data) (-1) s
  = (Ret (NdArray (n :: lead)
            (map (fun p =>
                    match unravel (n :: lead) p with
                    | i :: rest =>
                        nth (ravel (lead ++ [n])
                                   (take (length lead) rest
                                    ++ i :: drop (length lead) rest))
                            data 0
                    | [] => 0
                    end)
                 (seq 0 (nd_size (n :: lead))))), s).
Proof.
  unfold np_rollaxis. cbn [nd_shape nd_data].
  rewrite length_app. cbn [length].
  destruct (decide (_ <= _ < _)%Z) as [_|Hn]; [|lia].
  destruct (decide (-1 < 0)%Z) as [_|Hn]; [|lia].
  replace (Z.to_nat (-1 + Z.of_nat (length lead + 1))) with (length lead) by lia.
  rewrite (delete_middle lead [] n), app_nil_r, nth_middle. reflexivity.
Qed.

(** X15: [_roll_Wrotat] raises its [ValueError] on every array whose last
    axis holds the six values it documents; on an array whose last axis
    holds three values it returns, with the default axis, the array with
    that axis moved to the front: the shape is 3 followed by the leading
    lengths, and the element at [(i, j1, ..., jn)] is the element the
    argument has at [(j1, ..., jn, i)]. *)
Theorem roll_Wrotat_takes_three_values (lead : list nat) (data data' : Np.arr)
    (axis : Z) (s : errstate) :
  _roll_Wrotat (NdArray (lead ++ [6%nat]) data) axis s
  = (Raise (ValueError "Expecting 6 W tensor values, got 6"), s)
  /\ exists r,
       _roll_Wrotat (NdArray (lead ++ [3%nat]) data') (-1) s = (Ret r, s)
       /\ nd_shape r = 3%nat :: lead
       /\ length (nd_data r) = nd_size (3%nat :: lead)
       /\ forall (i : nat) (idx : list nat),
            (i < 3)%nat -> Forall2 (fun n j => (j < n)%nat) lead idx ->
            nth (ravel (3%nat :: lead) (i :: idx)) (nd_data r) 0
            = nth (ravel (lead ++ [3%nat]) (idx ++ [i])) data' 0.
Proof.
  split.
  - unfold _roll_Wrotat.
    erewrite bind_ret_eq by apply shape_from_end_last. reflexivity.
  - unfold _roll_Wrotat.
    erewrite bind_ret_eq by apply shape_from_end_last.
    destruct (decide (3%nat <> 3%nat)) as [Hn|_]; [congruence|].
    erewrite bind_ret_eq by apply np_rollaxis_last.
    eexists. split; [reflexivity|]. cbn [nd_shape nd_data].
    split; [reflexivity|].
    split; [now rewrite List.length_map, List.length_seq|].
    intros i idx Hi Hidx.
    assert (Hall : Forall2 (fun n j => (j < n)%nat) (3%nat :: lead) (i :: idx))
      by (apply Forall2_cons; split; assumption).
    destruct (ravel_in_range _ _ Hall) as [Hlt Hinv].
    apply nth_lookup_Some.
    rewrite list_lookup_fmap, lookup_seq_lt by exact Hlt.
    simpl. rewrite Hinv.
    pose proof (Forall2_length _ _ _ Hidx) as Hlen.
    rewrite take_ge, drop_ge by lia.
    reflexivity.
Qed.

(** ** The prediction *)

Lemma terminates_ret {A} (a : A) : terminates (mret a).
Proof. intros s. discriminate. Qed.

Lemma terminates_raise {A} (e : exn) : terminates (raise e : M A).
Proof. intros s. discriminate. Qed.

Lemma terminates_bind {A B} (m : M A) (k : A -> M B) :
  terminates m -> (forall a, terminates (k a)) -> terminates (m ≫= k).
Proof.
  intros Hm Hk s. unfold mbind, M_bind, Py.bind.
  specialize (Hm s). destruct (m s) as [[a|e|] s']; simpl in *;
    [apply Hk | discriminate | congruence].
Qed.

Lemma terminates_for_each {A B} (xs : list A) (body : B -> A -> M B) :
  (forall acc x, terminates (body acc x)) ->
  forall acc, terminates (for_each xs body acc).
Proof.
  intros Hbody. induction xs as [|x xs IH]; intros acc; simpl.
  - apply terminates_ret.
  - apply terminates_bind; auto.
Qed.

Lemma terminates_map_M {A B} (f : A -> M B) (xs : list A) :
  (forall x, terminates (f x)) -> terminates (Linalg.map_M f xs).
Proof.
  intros Hf. induction xs as [|x xs IH]; simpl.
  - apply terminates_ret.
  - apply terminates_bind; [apply Hf|]. intros y.
    apply terminates_bind; [apply IH|]. intros ys. apply terminates_ret.
Qed.

Lemma terminates_getitem {A} (xs : list A) (i : nat) : terminates (getitem xs i).
Proof. intros s. unfold getitem. destruct (xs !! i); discriminate. Qed.

Lemma terminates_dot_vv (u v : Np.arr) : terminates (Linalg.dot_vv u v).
Proof. intros s. unfold Linalg.dot_vv. destruct (decide _); discriminate. Qed.

Lemma terminates_dot_mv (A : Linalg.matrix) (v : Np.arr) :
  terminates (Linalg.dot_mv A v).
Proof. apply terminates_map_M. intros row. apply terminates_dot_vv. Qed.

Lemma terminates_dot_vm (v : Np.arr) (A : Linalg.matrix) : terminates (dot_vm v A).
Proof.
  unfold dot_vm. destruct (decide _);
    [apply terminates_dot_mv | apply terminates_raise].
Qed.

Lemma terminates_outside {A} (r : exn + A) : terminates (outside r).
Proof. intros s. destruct r; discriminate. Qed.

Lemma terminates_setitem_row (a : Linalg.matrix) (v : nat) (row : Np.arr) :
  terminates (setitem_row a v row).
Proof.
  unfold setitem_row. apply terminates_bind; [apply terminates_getitem|].
  intros old s. destruct row as [|x [|y row]]; try discriminate;
    destruct (decide _); discriminate.
Qed.

Lemma terminates_shape_from_end (a : ndarray) (k : nat) :
  terminates (shape_from_end a k).
Proof. intros s. unfold shape_from_end. destruct (_ !! _); discriminate. Qed.

Lemma terminates_slice_last (a : ndarray) (lo : nat) (hi : option nat) :
  terminates (slice_last a lo hi).
Proof. intros s. unfold slice_last. destruct (last _); discriminate. Qed.

Lemma terminates_np_reshape (a : ndarray) (sh : list nat) :
  terminates (np_reshape a sh).
Proof. intros s. unfold np_reshape. destruct (decide _); discriminate. Qed.

Lemma terminates_reshape_rows (a : ndarray) (w : nat) :
  terminates (reshape_rows a w).
Proof. intros s. unfold reshape_rows. destruct (decide _); discriminate. Qed.

Create HintDb terminates.

#[local] Hint Resolve terminates_ret terminates_raise terminates_getitem
  terminates_dot_vv terminates_dot_mv terminates_dot_vm terminates_outside
  terminates_setitem_row terminates_shape_from_end terminates_slice_last
  terminates_np_reshape terminates_reshape_rows : terminates.

Lemma never_returns_bind {A B} (m : M A) (k : A -> M B) :
  terminates m -> (forall a, never_returns (k a)) -> never_returns (m ≫= k).
Proof.
  intros Hm Hk s. unfold mbind, M_bind, Py.bind.
  specialize (Hm s). destruct (m s) as [[a|e|] s']; simpl in Hm.
  - apply Hk.
  - eexists _, _. reflexivity.
  - congruence.
Qed.

(** X16: [DKI_prediction] never returns.  Whatever the parameters, the
    gradient table and the two outside routines do, it ends in an
    exception: when no earlier statement raises, the last one adds an
    integer to the shape tuple, a [TypeError]. *)
Theorem DKI_prediction_never_returns
    (lower_triangular : float -> exn + Np.arr)
    (DKI_signal : gradient_table -> Np.arr -> Np.arr -> float
                  -> option float -> exn + Np.arr)
    (dki_params : ndarray) (gtab : gradient_table) (S0 : float)
    (snr : option float) (s : errstate) :
  exists e s',
    DKI_prediction lower_triangular DKI_signal dki_params gtab S0 snr s
    = (Raise e, s').
Proof.
  revert s. change (never_returns
    (DKI_prediction lower_triangular DKI_signal dki_params gtab S0 snr)).
  unfold DKI_prediction.
  do 10 (apply never_returns_bind; [auto with terminates | intros ?]).
  cbv zeta.
  apply never_returns_bind.
  - apply terminates_for_each. intros acc v.
    do 8 (apply terminates_bind; [auto with terminates | intros ?]).
    apply terminates_setitem_row.
  - intros pred_sig s. eexists _, _. reflexivity.
Qed.

(** ** The fits, voxel by voxel *)

Lemma bind_ret_inv {A B} (m : M A) (k : A -> M B) (b : B) (s s' : errstate) :
  (m ≫= k) s = (Ret b, s') ->
  exists a s1, m s = (Ret a, s1) /\ k a s1 = (Ret b, s').
Proof.
  unfold mbind, M_bind, Py.bind.
  destruct (m s) as [[a|e|] s1]; intros H; try discriminate.
  exists a, s1. split; [reflexivity|exact H].
Qed.

Lemma bind_assoc {A B C} (m : M A) (f : A -> M B) (g : B -> M C) (s : errstate) :
  ((m ≫= f) ≫= g) s = (m ≫= (fun a => f a ≫= g)) s.
Proof.
  unfold mbind, M_bind, Py.bind. destruct (m s) as [[a|e|] s1]; reflexivity.
Qed.

Lemma bind_ext {A B} (m : M A) (f g : A -> M B) (s : errstate) :
  (forall a s1, f a s1 = g a s1) -> (m ≫= f) s = (m ≫= g) s.
Proof.
  intros H. unfold mbind, M_bind, Py.bind.
  destruct (m s) as [[a|e|] s1]; [apply H | reflexivity | reflexivity].
Qed.

Lemma state_blind_ret {A} (a : A) : state_blind (mret a).
Proof. intros s s'. reflexivity. Qed.

Lemma state_blind_raise {A} (e : exn) : state_blind (raise e : M A).
Proof. intros s s'. reflexivity. Qed.

Lemma state_blind_bind {A B} (m : M A) (k : A -> M B) :
  state_blind m -> (forall a, state_blind (k a)) -> state_blind (m ≫= k).
Proof.
  intros Hm Hk s s'. unfold mbind, M_bind, Py.bind.
  specialize (Hm s s').
  destruct (m s) as [[a|e|] s1], (m s') as [[a'|e'|] s1']; simpl in Hm;
    try discriminate; try reflexivity.
  - injection Hm as ->. apply Hk.
  - injection Hm as ->. reflexivity.
Qed.

Lemma state_blind_warn (n : nat) : state_blind (warn_zero_divisors n).
Proof. intros s s'. reflexivity. Qed.

Lemma state_blind_div_scalar (a : Np.arr) (k : float) :
  state_blind (Np.div_scalar a k).
Proof. intros s s'. reflexivity. Qed.

Lemma state_blind_fdiv (x y : float) : state_blind (Np.fdiv x y).
Proof. intros s s'. reflexivity. Qed.

Lemma state_blind_min (a : Np.arr) : state_blind (Np.min a).
Proof. intros s s'. destruct a; reflexivity. Qed.

Lemma state_blind_getitem {A} (xs : list A) (i : nat) :
  state_blind (getitem xs i).
Proof. intros s s'. unfold getitem. destruct (xs !! i); reflexivity. Qed.

Lemma state_blind_external {A} (e : exn) (r : option A) :
  state_blind (external e r).
Proof. intros s s'. destruct r; reflexivity. Qed.

Lemma state_blind_for_each {A B} (xs : list A) (body : B -> A -> M B) :
  (forall acc x, state_blind (body acc x)) ->
  forall acc, state_blind (for_each xs body acc).
Proof.
  intros Hbody. induction xs as [|x xs IH]; intros acc; simpl.
  - apply state_blind_ret.
  - apply state_blind_bind; auto.
Qed.

Lemma state_blind_map_M {A B} (f : A -> M B) (xs : list A) :
  (forall x, state_blind (f x)) -> state_blind (Linalg.map_M f xs).
Proof.
  intros Hf. induction xs as [|x xs IH]; simpl.
  - apply state_blind_ret.
  - apply state_blind_bind; [apply Hf|]. intros y.
    apply state_blind_bind; [apply IH|]. intros ys. apply state_blind_ret.
Qed.

Lemma state_blind_dot_vv (u v : Np.arr) : state_blind (Linalg.dot_vv u v).
Proof. intros s s'. unfold Linalg.dot_vv. destruct (decide _); reflexivity. Qed.

Lemma state_blind_dot_mv (A : Linalg.matrix) (v : Np.arr) :
  state_blind (Linalg.dot_mv A v).
Proof. apply state_blind_map_M. intros row. apply state_blind_dot_vv. Qed.

Lemma state_blind_dot_mm (A B : Linalg.matrix) : state_blind (Linalg.dot_mm A B).
Proof. apply state_blind_map_M. intros row. apply state_blind_dot_mv. Qed.

Lemma state_blind_mean (a : Np.arr) : state_blind (Linalg.mean a).
Proof. apply state_blind_fdiv. Qed.

Lemma state_blind_store_row (P : Linalg.matrix) (row : Np.arr) :
  state_blind (store_row P row).
Proof.
  intros s s'. unfold store_row.
  destruct row as [|x [|y row]]; try reflexivity; destruct (decide _); reflexivity.
Qed.

Create HintDb state_blind.

#[local] Hint Resolve state_blind_ret state_blind_raise state_blind_warn
  state_blind_div_scalar state_blind_fdiv state_blind_min state_blind_getitem
  state_blind_external state_blind_dot_vv state_blind_dot_mv state_blind_dot_mm
  state_blind_mean state_blind_store_row : state_blind.

Ltac state_blind_steps :=
  repeat first
    [ progress auto with state_blind
    | apply state_blind_bind; [ | intros ? ]
    | match goal with
      | |- state_blind (let '(_, _) := ?p in _) => destruct p
      end ].

(** Storing a row at the end of a longer array. *)
Lemma store_row_app (P acc : Linalg.matrix) (row : Np.arr) (s : errstate) :
  store_row (P ++ acc) row s
  = match store_row acc row s with
    | (Ret Q, s') => (Ret (P ++ Q), s')
    | (Raise e, s') => (Raise e, s')
    | (OutOfFuel, s') => (OutOfFuel, s')
    end.
Proof.
  unfold store_row.
  destruct row as [|x [|y row]]; try destruct (decide _);
    unfold mret, M_ret, Py.ret, raise; rewrite <- ?app_assoc; reflexivity.
Qed.

Lemma store_row_ret (acc Q : Linalg.matrix) (row : Np.arr) (s s' : errstate) :
  store_row acc row s = (Ret Q, s') ->
  exists row', Q = acc ++ [row'] /\ length row' = 27%nat.
Proof.
  unfold store_row.
  destruct row as [|x [|y row]]; try destruct (decide _) as [E|E];
    unfold mret, M_ret, Py.ret, raise; intros H; try discriminate;
    injection H as <- _; eexists; (split; [reflexivity|]);
    [reflexivity | exact E].
Qed.

Section Loop.

Context (iter : Np.arr -> M Np.arr).

Lemma loop_shift (d : Linalg.matrix) :
  forall (acc P Q : Linalg.matrix) (s s' : errstate),
    for_each d (fun A sig => row ← iter sig; store_row A row) acc s = (Ret Q, s') ->
    for_each d (fun A sig => row ← iter sig; store_row A row) (P ++ acc) s
    = (Ret (P ++ Q), s').
Proof.
  induction d as [|sig d IH]; intros acc P Q s s' H; simpl in H; simpl.
  - injection H as <- <-. reflexivity.
  - apply bind_ret_inv in H as (acc' & s1 & H1 & H2).
    apply bind_ret_inv in H1 as (row & s2 & Hrow & Hst).
    erewrite bind_ret_eq; [apply (IH _ _ _ _ _ H2)|].
    erewrite bind_ret_eq by exact Hrow.
    rewrite store_row_app, Hst. reflexivity.
Qed.

Lemma loop_shape (d : Linalg.matrix) :
  forall (acc Q : Linalg.matrix) (s s' : errstate),
    for_each d (fun A sig => row ← iter sig; store_row A row) acc s = (Ret Q, s') ->
    exists R, Q = acc ++ R /\ length R = length d
              /\ Forall (fun row : Np.arr => length row = 27%nat) R.
Proof.
  induction d as [|sig d IH]; intros acc Q s s' H; simpl in H; simpl.
  - injection H as <- <-. exists []. rewrite app_nil_r. auto.
  - apply bind_ret_inv in H as (acc' & s1 & H1 & H2).
    apply bind_ret_inv in H1 as (row & s2 & Hrow & Hst).
    apply store_row_ret in Hst as (row' & -> & Hlen).
    apply IH in H2 as (R & -> & HR & Hall).
    exists (row' :: R). rewrite <- app_assoc. simpl.
    split; [reflexivity|]. split; [now rewrite HR|].
    apply List.Forall_cons; assumption.
Qed.

Lemma loop_app (d1 d2 : Linalg.matrix) :
  forall (acc : Linalg.matrix) (s : errstate),
    for_each (d1 ++ d2) (fun A sig => row ← iter sig; store_row A row) acc s
    = (A ← for_each d1 (fun A sig => row ← iter sig; store_row A row) acc;
       for_each d2 (fun A sig => row ← iter sig; store_row A row) A) s.
Proof.
  induction d1 as [|sig d1 IH]; intros acc s; simpl.
  - reflexivity.
  - etransitivity; [|symmetry; apply bind_assoc].
    apply bind_ext. intros acc' s1. apply IH.
Qed.

Hypothesis iter_blind : forall sig, state_blind (iter sig).

Lemma voxelwise_loop :
  voxelwise (fun d => for_each d (fun A sig => row ← iter sig; store_row A row) []).
Proof.
  intros d1 d2 P1 P2 s1 s1' s2 s2' s H1 H2.
  assert (Hb : forall d acc,
             state_blind (for_each d (fun A sig => row ← iter sig; store_row A row) acc)).
  { intros d acc. apply state_blind_for_each. intros A sig.
    apply state_blind_bind; [apply iter_blind|]. intros row.
    apply state_blind_store_row. }
  rewrite loop_app.
  pose proof (Hb d1 [] s s1) as E1. rewrite H1 in E1. simpl in E1.
  destruct (for_each d1 _ [] s) as [o t] eqn:Ed1. simpl in E1. subst o.
  erewrite bind_ret_eq by exact Ed1.
  pose proof (Hb d2 [] t s2) as E2. rewrite H2 in E2. simpl in E2.
  destruct (for_each d2 _ [] t) as [o t'] eqn:Ed2. simpl in E2. subst o.
  exists t'. rewrite <- (app_nil_r P1) at 1.
  apply loop_shift. exact Ed2.
Qed.

End Loop.

Lemma voxelwise_guard (c : bool) (e : exn)
    (F : Linalg.matrix -> M Linalg.matrix) :
  voxelwise F -> voxelwise (fun d => if c then raise e else F d).
Proof.
  intros HF d1 d2 P1 P2 s1 s1' s2 s2' s H1 H2.
  destruct c; [discriminate H1|]. eapply HF; eassumption.
Qed.

Lemma voxelwise_bind {A} (m : M A) (F : A -> Linalg.matrix -> M Linalg.matrix) :
  state_blind m -> (forall a, voxelwise (F a)) ->
  voxelwise (fun d => a ← m; F a d).
Proof.
  intros Hm HF d1 d2 P1 P2 s1 s1' s2 s2' s H1 H2.
  apply bind_ret_inv in H1 as (a1 & t1 & Hm1 & H1).
  apply bind_ret_inv in H2 as (a2 & t2 & Hm2 & H2).
  pose proof (Hm s1 s2) as E. rewrite Hm1, Hm2 in E. simpl in E.
  injection E as <-.
  pose proof (Hm s s1) as E. rewrite Hm1 in E. simpl in E.
  destruct (m s) as [o t] eqn:Em. simpl in E. subst o.
  destruct (HF a1 d1 d2 P1 P2 t1 s1' t2 s2' t H1 H2) as (s' & Hs').
  exists s'. erewrite bind_ret_eq by exact Em. exact Hs'.
Qed.

Section FitsVoxelByVoxel.

Import Linalg.

Context (L : libm).
Context (pinv : matrix -> option matrix).
Context (from_lower_triangular : Np.arr -> option matrix).
Context (decompose_tensor : matrix -> float -> option (Np.arr * matrix)).

Lemma state_blind_ols_iter (inv_design : matrix) (sig : Np.arr)
    (min_signal min_diffusivity : float) :
  state_blind (_ols_iter L from_lower_triangular decompose_tensor
                         inv_design sig min_signal min_diffusivity).
Proof. unfold _ols_iter. cbv zeta. state_blind_steps. Qed.

Lemma state_blind_wls_iter (design_matrix inv_design : matrix) (sig : Np.arr)
    (min_signal min_diffusivity : float) :
  state_blind (_wls_iter L pinv from_lower_triangular decompose_tensor
                         design_matrix inv_design sig min_signal min_diffusivity).
Proof. unfold _wls_iter. cbv zeta. state_blind_steps. Qed.

(** X17: both fits work voxel by voxel, and no warning recorded before or
    during the fit changes what they return: when a fit returns on two
    sets of voxels, it returns on the two put end to end, from any state,
    the rows of the first followed by the rows of the second. *)
Theorem fits_are_voxelwise (design_matrix : matrix) (min_signal : float) :
  voxelwise (fun data =>
    ols_fit_dki L pinv from_lower_triangular decompose_tensor
                design_matrix data min_signal)
  /\ voxelwise (fun data =>
       wls_fit_dki L pinv from_lower_triangular decompose_tensor
                   design_matrix data min_signal).
Proof.
  split.
  - unfold ols_fit_dki. cbv zeta.
    apply voxelwise_guard.
    do 3 (apply voxelwise_bind; [auto with state_blind | intros ?]).
    apply voxelwise_loop. intros sig. apply state_blind_ols_iter.
  - unfold wls_fit_dki. cbv zeta.
    apply voxelwise_guard.
    do 3 (apply voxelwise_bind; [auto with state_blind | intros ?]).
    apply voxelwise_loop. intros sig. apply state_blind_wls_iter.
Qed.

(** X18: whenever a fit returns, it returns one row per voxel, and every
    row has 27 entries. *)
Theorem fits_return_27_per_voxel (design_matrix data P : matrix)
    (min_signal : float) (s s' : errstate) :
  ols_fit_dki L pinv from_lower_triangular decompose_tensor
              design_matrix data min_signal s = (Ret P, s')
  \/ wls_fit_dki L pinv from_lower_triangular decompose_tensor
                 design_matrix data min_signal s = (Ret P, s') ->
  length P = length data
  /\ Forall (fun row : Np.arr => length row = 27%nat) P.
Proof.
  intros [H|H].
  - unfold ols_fit_dki in H. cbv zeta in H.
    destruct (min_signal <=? 0); [discriminate H|].
    do 3 (apply bind_ret_inv in H as (? & ? & _ & H)).
    apply loop_shape in H as (R & -> & HR & Hall). simpl. auto.
  - unfold wls_fit_dki in H. cbv zeta in H.
    destruct (min_signal <=? 0); [discriminate H|].
    do 3 (apply bind_ret_inv in H as (? & ? & _ & H)).
    apply (loop_shape (fun sig => _wls_iter _ _ _ _ _ _ sig _ _)) in H
      as (R & -> & HR & Hall). simpl. auto.
Qed.

Let other_than_min_error (e : exn) : Prop := e <> min_error.

#[local] Hint Extern 1 (other_than_min_error _) =>
  unfold other_than_min_error, min_error; discriminate : safe.

Lemma dot_vv_no_min_error (u v : Np.arr) :
  safe other_than_min_error (dot_vv u v).
Proof. unfold dot_vv, shape_error. destruct (decide _); auto with safe. Qed.

Lemma dot_mv_no_min_error (A : matrix) (v : Np.arr) :
  safe other_than_min_error (dot_mv A v).
Proof. apply safe_map_M. intros row. apply dot_vv_no_min_error. Qed.

Lemma dot_mm_no_min_error (A B : matrix) :
  safe other_than_min_error (dot_mm A B).
Proof. apply safe_map_M. intros row. apply dot_mv_no_min_error. Qed.

Lemma mean_no_min_error (a : Np.arr) : safe other_than_min_error (mean a).
Proof. apply safe_fdiv. Qed.

Lemma store_row_no_min_error (P : matrix) (row : Np.arr) :
  safe other_than_min_error (store_row P row).
Proof.
  unfold store_row. destruct row as [|x [|y row]]; simpl;
    try destruct (decide _); auto with safe.
Qed.

#[local] Hint Resolve dot_vv_no_min_error dot_mv_no_min_error
  dot_mm_no_min_error mean_no_min_error store_row_no_min_error : safe.

Lemma ols_iter_no_min_error inv_design sig min_signal min_diffusivity :
  safe other_than_min_error
    (_ols_iter L from_lower_triangular decompose_tensor
               inv_design sig min_signal min_diffusivity).
Proof. unfold _ols_iter. safe_steps. Qed.

Lemma wls_iter_no_min_error design_matrix inv_design sig min_signal
    min_diffusivity :
  safe other_than_min_error
    (_wls_iter L pinv from_lower_triangular decompose_tensor
               design_matrix inv_design sig min_signal min_diffusivity).
Proof. unfold _wls_iter. safe_steps. Qed.

(** X19: for data with the same number of signals, at least one, in
    every voxel (the arrays that [data.reshape((-1, data.shape[-1]))]
    accepts) and a [min_signal] that passes the guard, both fits raise the
    [ValueError] of [design_matrix.min()] exactly when the design matrix
    has no entry; they do so before the pseudo-inverse is asked for, and
    in no other case, whatever the outside routines do. *)
Theorem fits_min_error_exactly_on_empty_design (design_matrix data : matrix)
    (N : nat) (min_signal : float) (s : errstate) :
  (1 <= N)%nat -> Forall (fun sig : Np.arr => length sig = N) data ->
  (min_signal <=? 0) = false ->
  (concat design_matrix = [] ->
   ols_fit_dki L pinv from_lower_triangular decompose_tensor
               design_matrix data min_signal s = (Raise min_error, s)
   /\ wls_fit_dki L pinv from_lower_triangular decompose_tensor
                  design_matrix data min_signal s = (Raise min_error, s))
  /\ (concat design_matrix <> [] ->
      fst (ols_fit_dki L pinv from_lower_triangular decompose_tensor
                       design_matrix data min_signal s) <> Raise min_error
      /\ fst (wls_fit_dki L pinv from_lower_triangular decompose_tensor
                          design_matrix data min_signal s) <> Raise min_error).
Proof.
  intros _ _ Hms. split.
  - intros HB. unfold ols_fit_dki, wls_fit_dki. cbv zeta.
    rewrite Hms, HB. split; reflexivity.
  - intros HB.
    assert (Hols : safe other_than_min_error
              (ols_fit_dki L pinv from_lower_triangular decompose_tensor
                           design_matrix data min_signal)).
    { unfold ols_fit_dki. rewrite Hms. cbv zeta.
      destruct (concat design_matrix) as [|x a]; [congruence|].
      apply safe_bind; [apply safe_ret|]. intros m.
      apply safe_bind; [apply safe_fdiv|]. intros md.
      apply safe_bind; [apply safe_external; auto with safe|]. intros inv.
      apply safe_for_each. intros acc sig.
      apply safe_bind; [apply ols_iter_no_min_error|]. intros row.
      apply store_row_no_min_error. }
    assert (Hwls : safe other_than_min_error
              (wls_fit_dki L pinv from_lower_triangular decompose_tensor
                           design_matrix data min_signal)).
    { unfold wls_fit_dki. rewrite Hms. cbv zeta.
      destruct (concat design_matrix) as [|x a]; [congruence|].
      apply safe_bind; [apply safe_ret|]. intros m.
      apply safe_bind; [apply safe_fdiv|]. intros md.
      apply safe_bind; [apply safe_external; auto with safe|]. intros inv.
      apply safe_for_each. intros acc sig.
      apply safe_bind; [apply wls_iter_no_min_error|]. intros row.
      apply store_row_no_min_error. }
    specialize (Hols s). specialize (Hwls s). split.
    + intros E. rewrite E in Hols. apply Hols. reflexivity.
    + intros E. rewrite E in Hwls. apply Hwls. reflexivity.
Qed.

End FitsVoxelByVoxel.

Lemma fits_are_voxelwise_witness :
  exists P1 P2 s',
    ols_fit_dki example_libm Example.pinv Example.from_lower_triangular
                Example.decompose_tensor Example.design_matrix
                ([[2]] ++ [[3]]) 1 s0
    = (Ret (P1 ++ P2), s').
Proof.
  eexists _, _.
  eapply (proj1 (fits_are_voxelwise example_libm Example.pinv
                   Example.from_lower_triangular Example.decompose_tensor
                   Example.design_matrix 1)
            [[2]] [[3]] _ _ s0 _ s0 _ s0);
    vm_compute; reflexivity.
Defined.

Lemma fits_return_27_per_voxel_witness :
  exists P,
    ols_fit_dki example_libm Example.pinv Example.from_lower_triangular
                Example.decompose_tensor Example.design_matrix
                Example.data_flat 1 s0
    = (Ret P, ErrState 16)
    /\ length P = length Example.data_flat
    /\ Forall (fun row : Np.arr => length row = 27%nat) P.
Proof.
  eexists. split; [vm_compute; reflexivity|].
  apply (fits_return_27_per_voxel example_libm Example.pinv
           Example.from_lower_triangular Example.decompose_tensor
           Example.design_matrix Example.data_flat _ 1 s0 (ErrState 16)).
  left. vm_compute. reflexivity.
Defined.

Lemma example_data_flat_signals :
  Forall (fun sig : Np.arr => length sig = 1%nat) Example.data_flat.
Proof. apply List.Forall_cons; [reflexivity|apply List.Forall_nil]. Qed.

Lemma fits_min_error_exactly_on_empty_design_witness :
  (ols_fit_dki example_libm Example.pinv Example.from_lower_triangular
               Example.decompose_tensor [] Example.data_flat 1 s0
   = (Raise min_error, s0)
   /\ wls_fit_dki example_libm Example.pinv Example.from_lower_triangular
                  Example.decompose_tensor [] Example.data_flat 1 s0
      = (Raise min_error, s0))
  /\ (fst (ols_fit_dki example_libm Example.pinv Example.from_lower_triangular
                       Example.decompose_tensor Example.design_matrix
                       Example.data_flat 1 s0) <> Raise min_error
      /\ fst (wls_fit_dki example_libm Example.pinv
                          Example.from_lower_triangular
                          Example.decompose_tensor Example.design_matrix
                          Example.data_flat 1 s0) <> Raise min_error).
Proof.
  split.
  - apply (proj1 (fits_min_error_exactly_on_empty_design example_libm
                    Example.pinv Example.from_lower_triangular
                    Example.decompose_tensor [] Example.data_flat 1%nat 1 s0
                    (le_n 1) example_data_flat_signals eq_refl)).
    reflexivity.
  - apply (proj2 (fits_min_error_exactly_on_empty_design example_libm
                    Example.pinv Example.from_lower_triangular
                    Example.decompose_tensor Example.design_matrix
                    Example.data_flat 1%nat 1 s0
                    (le_n 1) example_data_flat_signals eq_refl)).
    discriminate.
Defined.

(** ** What the measures read of [Wrotat] *)

(** X20: of the six elements they unpack, [radial_kurtosis] uses those at
    positions 1 and 5 and [axial_kurtosis] the one at position 0: two
    arrays of rows of six that agree there give the same outcome,
    whatever they hold at the other positions. *)
Theorem kurtosis_measures_use_three_positions (evals : pyval)
    (evals' W W' : Linalg.matrix) (s : errstate) :
  forallb (fun row : Np.arr => 5 <? length row)%nat W = true ->
  forallb (fun row : Np.arr => 5 <? length row)%nat W' = true ->
  (map (fun row => nth 1 row 0) W = map (fun row => nth 1 row 0) W' ->
   map (fun row => nth 5 row 0) W = map (fun row => nth 5 row 0) W' ->
   radial_kurtosis evals (PMat W) s = radial_kurtosis evals (PMat W') s)
  /\ (map (fun row => nth 0 row 0) W = map (fun row => nth 0 row 0) W' ->
      axial_kurtosis evals' W s = axial_kurtosis evals' W' s).
Proof.
  intros HW HW'. split.
  - intros H1 H5. unfold radial_kurtosis.
    do 6 (erewrite (bind_ret_eq (py_col (PMat W) _))
            by (eapply py_col_ok; [|exact HW]; lia)).
    do 6 (erewrite (bind_ret_eq (py_col (PMat W') _))
            by (eapply py_col_ok; [|exact HW']; lia)).
    rewrite H1, H5. reflexivity.
  - intros H0. unfold axial_kurtosis.
    do 6 (erewrite (bind_ret_eq (py_col (PMat W) _))
            by (eapply py_col_ok; [|exact HW]; lia)).
    do 6 (erewrite (bind_ret_eq (py_col (PMat W') _))
            by (eapply py_col_ok; [|exact HW']; lia)).
    rewrite H0. reflexivity.
Qed.

Lemma kurtosis_measures_use_three_positions_witness :
  radial_kurtosis (PMat [[3; 2; 1]]) (PMat [[1; 2; 3; 4; 5; 6]]) s0
  = radial_kurtosis (PMat [[3; 2; 1]]) (PMat [[0; 2; 0; 0; 0; 6]]) s0
  /\ axial_kurtosis [[3; 2; 1]] [[1; 2; 3; 4; 5; 6]] s0
     = axial_kurtosis [[3; 2; 1]] [[1; 0; 0; 0; 0; 0]] s0.
Proof.
  split.
  - apply (proj1 (kurtosis_measures_use_three_positions (PMat [[3; 2; 1]])
                    [[3; 2; 1]] [[1; 2; 3; 4; 5; 6]] [[0; 2; 0; 0; 0; 6]] s0
                    eq_refl eq_refl)); reflexivity.
  - apply (proj2 (kurtosis_measures_use_three_positions (PMat [[3; 2; 1]])
                    [[3; 2; 1]] [[1; 2; 3; 4; 5; 6]] [[1; 0; 0; 0; 0; 0]] s0
                    eq_refl eq_refl)); reflexivity.
Defined.

(** ** Opposite gradient directions *)

(** The sign of a product, in binary64. *)
Lemma binary_round_aux_negb (sx : bool) (mx ex : Z) (lx : SpecFloat.location) :
  SpecFloat.binary_round_aux prec emax (negb sx) mx ex lx
  = SFopp (SpecFloat.binary_round_aux prec emax sx mx ex lx).
Proof.
  unfold SpecFloat.binary_round_aux.
  destruct (SpecFloat.shr_fexp prec emax mx ex lx) as [mrs' e'].
  destruct (SpecFloat.shr_fexp prec emax _ e' SpecFloat.loc_Exact) as [mrs'' e''].
  destruct (SpecFloat.shr_m mrs''); [|destruct (Z.leb _ _)|]; reflexivity.
Qed.

Lemma SFmul_opp_r (a b : spec_float) :
  SFmul prec emax a (SFopp b) = SFopp (SFmul prec emax a b).
Proof.
  destruct a as [sa|sa| |sa ma ea], b as [sb|sb| |sb mb eb]; simpl;
    rewrite <- ?Bool.negb_xorb_r, ?binary_round_aux_negb; reflexivity.
Qed.

Lemma SFmul_opp_l (a b : spec_float) :
  SFmul prec emax (SFopp a) b = SFopp (SFmul prec emax a b).
Proof.
  destruct a as [sa|sa| |sa ma ea], b as [sb|sb| |sb mb eb]; simpl;
    rewrite <- ?Bool.negb_xorb_l, ?binary_round_aux_negb; reflexivity.
Qed.

Lemma mul_opp_r (x y : float) : x * - y = - (x * y).
Proof.
  apply Prim2SF_inj. rewrite mul_spec, !opp_spec, mul_spec. apply SFmul_opp_r.
Qed.

Lemma mul_opp_l (x y : float) : - x * y = - (x * y).
Proof.
  apply Prim2SF_inj. rewrite mul_spec, !opp_spec, mul_spec. apply SFmul_opp_l.
Qed.

Lemma opp_involutive (x : float) : - - x = x.
Proof.
  apply Prim2SF_inj. rewrite !opp_spec.
  destruct (Prim2SF x); simpl; rewrite ?Bool.negb_involutive; reflexivity.
Qed.

Lemma design_row_antipode (L : libm) (m : measurement) :
  pow_sign_symmetric L (bvec0 m) -> pow_sign_symmetric L (bvec1 m) ->
  pow_sign_symmetric L (bvec2 m) ->
  design_row L (antipode m) = design_row L m.
Proof.
  intros [Hx3 Hx4] [Hy3 Hy4] [Hz3 Hz4].
  destruct m as [b x y z]. unfold design_row, antipode.
  simpl in Hx3, Hx4, Hy3, Hy4, Hz3, Hz4. simpl.
  rewrite Hx3, Hx4, Hy3, Hy4, Hz3, Hz4.
  repeat first [ rewrite mul_opp_r | rewrite mul_opp_l | rewrite opp_involutive ].
  reflexivity.
Qed.

(** X21: the design matrix does not see the sign of a gradient
    direction.  Where the C library's [pow] keeps the sign under the
    power 3 and drops it under the power 4, the table with every
    direction reversed has the same design matrix, entry for entry. *)
Theorem dki_design_matrix_antipodal (L : libm) (gtab : gradient_table)
    (s : errstate) :
  Forall (fun m => pow_sign_symmetric L (bvec0 m)
                   /\ pow_sign_symmetric L (bvec1 m)
                   /\ pow_sign_symmetric L (bvec2 m)) gtab ->
  dki_design_matrix L (map antipode gtab) s = dki_design_matrix L gtab s.
Proof.
  intros H. rewrite !dki_design_matrix_eq. f_equal. f_equal.
  rewrite List.map_map.
  induction H as [|m gtab (Hx & Hy & Hz) _ IH]; simpl; [reflexivity|].
  rewrite IH, (design_row_antipode L m Hx Hy Hz). reflexivity.
Qed.

Lemma dki_design_matrix_antipodal_witness :
  dki_design_matrix product_libm
    (map antipode [Measurement 1000 0.6 0.8 0; Measurement 2000 0 0.6 0.8]) s0
  = dki_design_matrix product_libm
      [Measurement 1000 0.6 0.8 0; Measurement 2000 0 0.6 0.8] s0.
Proof.
  apply (dki_design_matrix_antipodal product_libm
           [Measurement 1000 0.6 0.8 0; Measurement 2000 0 0.6 0.8] s0).
  repeat (apply List.Forall_cons;
          [repeat split; vm_compute; reflexivity|]).
  apply List.Forall_nil.
Defined.

(** ** The fits return *)

Lemma returns_with_ret {A} (a : A) (Q : A -> Prop) :
  Q a -> returns_with (mret a) Q.
Proof. intros H s. exists a, s. split; [reflexivity|exact H]. Qed.

Lemma returns_with_bind {A B} (m : M A) (k : A -> M B) (Q : A -> Prop)
    (R : B -> Prop) :
  returns_with m Q -> (forall a, Q a -> returns_with (k a) R) ->
  returns_with (m ≫= k) R.
Proof.
  intros Hm Hk s. destruct (Hm s) as (a & s1 & E & HQ).
  destruct (Hk a HQ s1) as (b & s2 & E2 & HR).
  exists b, s2. split; [|exact HR]. erewrite bind_ret_eq by exact E. exact E2.
Qed.

Lemma returns_with_weaken {A} (m : M A) (Q Q' : A -> Prop) :
  returns_with m Q -> (forall a, Q a -> Q' a) -> returns_with m Q'.
Proof.
  intros Hm HQ s. destruct (Hm s) as (a & s1 & E & Ha).
  exists a, s1. split; [exact E|apply HQ, Ha].
Qed.

Lemma returns_with_external {A} (e : exn) (r : option A) (a : A) :
  r = Some a -> returns_with (external e r) (fun x => x = a).
Proof. intros ->. apply returns_with_ret. reflexivity. Qed.

Lemma returns_with_fdiv (x y : float) : returns_with (Np.fdiv x y) (fun _ => True).
Proof. intros s. eexists _, _. split; [reflexivity|exact I]. Qed.

Lemma returns_with_div_scalar (a : Np.arr) (k : float) :
  returns_with (Np.div_scalar a k) (fun r => length r = length a).
Proof.
  intros s. eexists _, _. split; [reflexivity|]. apply List.length_map.
Qed.

Lemma returns_with_min (a : Np.arr) :
  a <> [] -> returns_with (Np.min a) (fun _ => True).
Proof.
  intros Ha. destruct a as [|x a]; [congruence|].
  apply returns_with_ret. exact I.
Qed.

Lemma returns_with_map_M {A B} (f : A -> M B) (Q : B -> Prop) (xs : list A) :
  Forall (fun x => returns_with (f x) Q) xs ->
  returns_with (Linalg.map_M f xs)
               (fun ys => length ys = length xs /\ Forall Q ys).
Proof.
  induction 1 as [|x xs Hx _ IH]; simpl.
  - apply returns_with_ret. split; [reflexivity|apply List.Forall_nil].
  - eapply returns_with_bind; [exact Hx|]. intros y Hy.
    eapply returns_with_bind; [exact IH|]. intros ys [Hl Hall].
    apply returns_with_ret. split; [simpl; now rewrite Hl|].
    apply List.Forall_cons; assumption.
Qed.

Lemma returns_with_dot_vv (u v : Np.arr) :
  length u = length v -> returns_with (Linalg.dot_vv u v) (fun _ => True).
Proof.
  intros H. unfold Linalg.dot_vv. destruct (decide _); [|contradiction].
  apply returns_with_ret. exact I.
Qed.

Lemma returns_with_dot_mv (A : Linalg.matrix) (v : Np.arr) :
  Forall (fun row : Np.arr => length row = length v) A ->
  returns_with (Linalg.dot_mv A v) (fun r => length r = length A).
Proof.
  intros H. unfold Linalg.dot_mv.
  eapply returns_with_weaken;
    [apply (returns_with_map_M _ (fun _ => True))|intros r [Hl _]; exact Hl].
  induction H as [|row A Hrow _ IH];
    [apply List.Forall_nil|apply List.Forall_cons; [|exact IH]].
  apply returns_with_dot_vv, Hrow.
Qed.

Lemma transpose_shaped (m k : nat) (A : Linalg.matrix) :
  (1 <= m)%nat -> shaped m k A -> shaped k m (Linalg.transpose A).
Proof.
  intros Hm [Hlen Hrows]. destruct A as [|r A]; [simpl in Hlen; lia|].
  unfold Linalg.transpose.
  assert (Hr : length r = k) by (inversion Hrows; assumption).
  rewrite Hr. split.
  - rewrite List.length_map, List.length_seq. reflexivity.
  - apply Forall_forall. intros row Hin.
    apply list_elem_of_In, List.in_map_iff in Hin as (j & <- & _).
    rewrite List.length_map. exact Hlen.
Qed.

Lemma diag_shaped (v : Np.arr) : shaped (length v) (length v) (Linalg.diag v).
Proof.
  unfold Linalg.diag. split.
  - apply length_imap.
  - apply Forall_lookup. intros i row Hi.
    rewrite list_lookup_imap in Hi.
    destruct (v !! i) as [x|]; [|discriminate Hi].
    simpl in Hi. injection Hi as <-.
    rewrite length_insert. apply length_replicate.
Qed.

Lemma returns_with_dot_mm (X Y : Linalg.matrix) (p q : nat) :
  (1 <= p)%nat -> shaped p q Y ->
  Forall (fun row : Np.arr => length row = p) X ->
  returns_with (Linalg.dot_mm X Y) (fun Z => shaped (length X) q Z).
Proof.
  intros Hp HY HX. unfold Linalg.dot_mm.
  destruct (transpose_shaped p q Y Hp HY) as [HTl HTr].
  apply (returns_with_map_M _ (fun r : Np.arr => length r = q)).
  induction HX as [|row X Hrow _ IH];
    [apply List.Forall_nil|apply List.Forall_cons; [|exact IH]].
  eapply returns_with_weaken;
    [apply returns_with_dot_mv|intros r Hr; now rewrite Hr].
  rewrite Hrow. exact HTr.
Qed.

Lemma length_slice {A} (i j : nat) (a : list A) :
  length (Linalg.slice i j a) = Nat.min (j - i) (length a - i).
Proof. unfold Linalg.slice. now rewrite length_take, length_drop. Qed.

Section FitsReturn.

Import Linalg.

Context (L : libm).
Context (pinv : matrix -> option matrix).
Context (from_lower_triangular : Np.arr -> option matrix).
Context (decompose_tensor : matrix -> float -> option (Np.arr * matrix)).

Hypothesis pinv_ok : pinv_well_shaped pinv.
Hypothesis decomposition_ok :
  decomposition_well_shaped from_lower_triangular decompose_tensor.

(** The statements after the solution, the same in both fits. *)
Lemma returns_with_params (result : Np.arr) (min_diffusivity : float) :
  length result = 22%nat ->
  returns_with
    (tensor ← external IndexError (from_lower_triangular (slice 0 6 result));
     '(evals, evecs) ← external LinAlgError
                         (decompose_tensor tensor min_diffusivity);
     m ← mean evals;
     let MD_square := pow L m 2 in
     KT_elements ← Np.div_scalar (slice 6 21 result) MD_square;
     evecs0 ← getitem evecs 0;
     evecs1 ← getitem evecs 1;
     evecs2 ← getitem evecs 2;
     let dki_params := evals ++ evecs0 ++ evecs1 ++ evecs2 ++ KT_elements in
     mret dki_params)
    (fun row => length row = 27%nat).
Proof.
  intros Hres.
  destruct (decomposition_ok (slice 0 6 result) min_diffusivity)
    as (T & l1 & l2 & l3 & v0 & v1 & v2 & Hflt & Hdt & H0 & H1 & H2).
  { rewrite length_slice, Hres. reflexivity. }
  eapply returns_with_bind; [apply (returns_with_external _ _ _ Hflt)|].
  intros ? ->.
  eapply returns_with_bind; [apply (returns_with_external _ _ _ Hdt)|].
  intros ? ->. cbv beta iota zeta.
  eapply returns_with_bind; [apply returns_with_fdiv|]. intros m _.
  eapply returns_with_bind; [apply returns_with_div_scalar|]. intros KT HKT.
  rewrite length_slice, Hres in HKT.
  change (getitem [v0; v1; v2] 0) with (mret v0 : M Np.arr).
  change (getitem [v0; v1; v2] 1) with (mret v1 : M Np.arr).
  change (getitem [v0; v1; v2] 2) with (mret v2 : M Np.arr).
  eapply returns_with_bind;
    [apply (returns_with_ret v0 (fun v => v = v0)); reflexivity|]; intros ? ->.
  eapply returns_with_bind;
    [apply (returns_with_ret v1 (fun v => v = v1)); reflexivity|]; intros ? ->.
  eapply returns_with_bind;
    [apply (returns_with_ret v2 (fun v => v = v2)); reflexivity|]; intros ? ->.
  apply returns_with_ret.
  rewrite !length_app, H0, H1, H2, HKT. reflexivity.
Qed.

Lemma returns_with_ols_iter (inv_design : matrix) (sig : Np.arr)
    (min_signal min_diffusivity : float) :
  shaped 22 (length sig) inv_design ->
  returns_with (_ols_iter L from_lower_triangular decompose_tensor
                          inv_design sig min_signal min_diffusivity)
               (fun row => length row = 27%nat).
Proof.
  intros [Hlen Hrows]. unfold _ols_iter. cbv zeta.
  eapply returns_with_bind.
  { apply returns_with_dot_mv. rewrite !List.length_map. exact Hrows. }
  intros result Hres. rewrite Hlen in Hres.
  apply returns_with_params. exact Hres.
Qed.

Lemma returns_with_wls_iter (design_matrix inv_design : matrix) (sig : Np.arr)
    (min_signal min_diffusivity : float) :
  (1 <= length sig)%nat ->
  shaped (length sig) 22 design_matrix ->
  shaped 22 (length sig) inv_design ->
  returns_with (_wls_iter L pinv from_lower_triangular decompose_tensor
                          design_matrix inv_design sig min_signal
                          min_diffusivity)
               (fun row => length row = 27%nat).
Proof.
  intros HM HA [Hlen Hrows]. unfold _wls_iter. cbv zeta.
  pose proof HA as [HAlen HArows].
  pose proof (transpose_shaped _ _ _ HM HA) as [HTlen HTrows].
  eapply returns_with_bind.
  { apply returns_with_dot_mv. rewrite !List.length_map. exact Hrows. }
  intros ols_result Hols. rewrite Hlen in Hols.
  eapply returns_with_bind.
  { apply returns_with_dot_mv. rewrite Hols. exact HArows. }
  intros y Hy. rewrite HAlen in Hy.
  assert (HW : shaped (length sig) (length sig)
                 (diag (map (exp L) (2 .* y)))).
  { pose proof (diag_shaped (map (exp L) (2 .* y))) as H.
    unfold Np.scale in H; unfold Np.scale. rewrite !List.length_map, Hy in H. exact H. }
  eapply returns_with_bind.
  { apply (returns_with_dot_mm _ _ (length sig) (length sig) HM HW HTrows). }
  intros ATW [HATWlen HATWrows]. rewrite HTlen in HATWlen.
  eapply returns_with_bind.
  { apply (returns_with_dot_mm _ _ (length sig) 22%nat HM HA HATWrows). }
  intros ATWA HATWA. rewrite HATWlen in HATWA.
  destruct (pinv_ok 22%nat 22%nat ATWA) as (inv' & Einv & [Hinvlen Hinvrows]);
    [lia | lia | exact HATWA |].
  eapply returns_with_bind; [apply (returns_with_external _ _ _ Einv)|].
  intros ? ->.
  eapply returns_with_bind.
  { apply (returns_with_dot_mm _ _ (length sig) (length sig) HM HW HTrows). }
  intros ATW' [HATWlen' HATWrows']. rewrite HTlen in HATWlen'.
  eapply returns_with_bind.
  { apply returns_with_dot_mv. rewrite !List.length_map. exact HATWrows'. }
  intros AT_W_LS HLS. rewrite HATWlen' in HLS.
  eapply returns_with_bind.
  { apply returns_with_dot_mv. rewrite HLS. exact Hinvrows. }
  intros wls_result Hres. rewrite Hinvlen in Hres.
  apply returns_with_params. exact Hres.
Qed.

Lemma returns_with_loop (iter : Np.arr -> M Np.arr) (d : matrix) :
  Forall (fun sig => returns_with (iter sig) (fun row => length row = 27%nat)) d ->
  forall acc : matrix,
    returns_with (for_each d (fun A sig => row ← iter sig; store_row A row) acc)
                 (fun _ => True).
Proof.
  induction 1 as [|sig d Hsig _ IH]; intros acc; simpl.
  - apply returns_with_ret. exact I.
  - apply (returns_with_bind _ _ (fun _ => True)); [|intros acc' _; apply IH].
    eapply returns_with_bind; [exact Hsig|]. intros row Hrow.
    unfold store_row. destruct row as [|x [|y row]]; try discriminate Hrow.
    destruct (decide _); [|contradiction].
    apply (returns_with_ret _ (fun _ => True)). exact I.
Qed.

Lemma design_matrix_shaped (gtab : gradient_table) :
  shaped (length gtab) 22 (map (design_row L) gtab).
Proof.
  split; [apply List.length_map|].
  apply List.Forall_map, Forall_forall. intros m _. reflexivity.
Qed.

Lemma design_matrix_has_entries (gtab : gradient_table) :
  gtab <> [] -> concat (map (design_row L) gtab) <> [].
Proof. destruct gtab as [|m g]; [congruence|]. intros _. discriminate. Qed.

(** X22: the fits return.  For a gradient table of at least one
    measurement, data with one signal per measurement in every voxel, a
    [min_signal] that passes the guard and outside routines that answer
    with the shapes they document, the design matrix of the table fitted
    to the data gives, with either fit, one row of 27 parameters per
    voxel; no exception is raised, whatever the values are. *)
Theorem fits_return_on_well_shaped_input (gtab : gradient_table)
    (data : matrix) (min_signal : float) (s : errstate) :
  gtab <> [] ->
  Forall (fun sig : Np.arr => length sig = length gtab) data ->
  (min_signal <=? 0) = false ->
  (exists P s',
     (B ← dki_design_matrix L gtab;
      ols_fit_dki L pinv from_lower_triangular decompose_tensor
                  B data min_signal) s = (Ret P, s')
     /\ shaped (length data) 27 P)
  /\ (exists P s',
        (B ← dki_design_matrix L gtab;
         wls_fit_dki L pinv from_lower_triangular decompose_tensor
                     B data min_signal) s = (Ret P, s')
        /\ shaped (length data) 27 P).
Proof.
  intros Hgtab Hdata Hms.
  assert (HM : (1 <= length gtab)%nat).
  { destruct gtab; [congruence|simpl; lia]. }
  pose proof (design_matrix_shaped gtab) as HB.
  destruct (pinv_ok _ _ _ HM (le_n_S _ _ (Nat.le_0_l 21)) HB)
    as (inv & Einv & Hinv).
  rewrite !(bind_ret_eq _ _ _ _ _ (dki_design_matrix_eq L gtab s)).
  split.
  - assert (H : returns_with
                  (ols_fit_dki L pinv from_lower_triangular decompose_tensor
                               (map (design_row L) gtab) data min_signal)
                  (fun _ => True)).
    { unfold ols_fit_dki. rewrite Hms. cbv zeta.
      eapply returns_with_bind;
        [apply returns_with_min, design_matrix_has_entries, Hgtab|].
      intros m _.
      eapply returns_with_bind; [apply returns_with_fdiv|]. intros md _.
      eapply returns_with_bind; [apply (returns_with_external _ _ _ Einv)|].
      intros ? ->.
      apply returns_with_loop.
      induction Hdata as [|sig data Hsig _ IH];
        [apply List.Forall_nil|apply List.Forall_cons; [|exact IH]].
      apply returns_with_ols_iter. rewrite Hsig. exact Hinv. }
    destruct (H s) as (P & s' & E & _). exists P, s'. split; [exact E|].
    unfold ols_fit_dki in E. rewrite Hms in E. cbv zeta in E.
    do 3 (apply bind_ret_inv in E as (? & ? & _ & E)).
    apply loop_shape in E as (R & -> & HR & Hall). split; assumption.
  - assert (H : returns_with
                  (wls_fit_dki L pinv from_lower_triangular decompose_tensor
                               (map (design_row L) gtab) data min_signal)
                  (fun _ => True)).
    { unfold wls_fit_dki. rewrite Hms. cbv zeta.
      eapply returns_with_bind;
        [apply returns_with_min, design_matrix_has_entries, Hgtab|].
      intros m _.
      eapply returns_with_bind; [apply returns_with_fdiv|]. intros md _.
      eapply returns_with_bind; [apply (returns_with_external _ _ _ Einv)|].
      intros ? ->.
      apply returns_with_loop.
      induction Hdata as [|sig data Hsig _ IH];
        [apply List.Forall_nil|apply List.Forall_cons; [|exact IH]].
      apply returns_with_wls_iter; rewrite Hsig; assumption. }
    destruct (H s) as (P & s' & E & _). exists P, s'. split; [exact E|].
    unfold wls_fit_dki in E. rewrite Hms in E. cbv zeta in E.
    do 3 (apply bind_ret_inv in E as (? & ? & _ & E)).
    apply (loop_shape (fun sig => _wls_iter _ _ _ _ _ _ sig _ _)) in E
      as (R & -> & HR & Hall). split; assumption.
Qed.

End FitsReturn.

Lemma example_pinv_well_shaped : pinv_well_shaped Example.pinv.
Proof.
  intros m k A Hm Hk HA. exists (Linalg.transpose A).
  split; [reflexivity|]. apply transpose_shaped; assumption.
Qed.

Lemma example_decomposition_well_shaped :
  decomposition_well_shaped Example.from_lower_triangular
                            Example.decompose_tensor.
Proof.
  intros D md HD.
  do 6 (destruct D as [|? D]; [discriminate HD|]).
  destruct D; [|discriminate HD].
  repeat eexists.
Qed.

Lemma fits_return_on_well_shaped_input_witness :
  (exists P s',
     (B ← dki_design_matrix example_libm
            [Measurement 0 1 0 0; Measurement 1000 0 1 0];
      ols_fit_dki example_libm Example.pinv Example.from_lower_triangular
                  Example.decompose_tensor B [[2; 1]; [3; 2]; [4; 3]] 1) s0
     = (Ret P, s')
     /\ shaped 3 27 P)
  /\ (exists P s',
        (B ← dki_design_matrix example_libm
               [Measurement 0 1 0 0; Measurement 1000 0 1 0];
         wls_fit_dki example_libm Example.pinv Example.from_lower_triangular
                     Example.decompose_tensor B [[2; 1]; [3; 2]; [4; 3]] 1) s0
        = (Ret P, s')
        /\ shaped 3 27 P).
Proof.
  apply (fits_return_on_well_shaped_input example_libm Example.pinv
           Example.from_lower_triangular Example.decompose_tensor
           example_pinv_well_shaped example_decomposition_well_shaped
           [Measurement 0 1 0 0; Measurement 1000 0 1 0]
           [[2; 1]; [3; 2]; [4; 3]] 1 s0).
  - discriminate.
  - repeat (apply List.Forall_cons; [reflexivity|]). apply List.Forall_nil.
  - reflexivity.
Defined.

(** ** The model class: fits with and without a mask *)

Lemma take_rows_nil {A} (mask : Np.mask) : take_rows mask ([] : list A) = [].
Proof. destruct mask as [|[|] mask]; reflexivity. Qed.

Lemma put_rows_spec {A} (mask : Np.mask) :
  forall a v : list A,
    length mask = length a -> length v = length (take_rows mask a) ->
    length (put_rows mask a v) = length a
    /\ take_rows mask (put_rows mask a v) = v
    /\ forall i, mask !! i = Some false -> put_rows mask a v !! i = a !! i.
Proof.
  induction mask as [|b mask IH]; intros [|x a] v Hm Hv; try discriminate Hm.
  - destruct v; [|discriminate Hv]. split; [reflexivity|]. split; [reflexivity|].
    intros i Hi. discriminate Hi.
  - injection Hm as Hm. destruct b; simpl in Hv.
    + destruct v as [|y v]; [discriminate Hv|]. injection Hv as Hv.
      destruct (IH a v Hm Hv) as (Hl & Ht & Hf). simpl.
      split; [now rewrite Hl|]. split; [now rewrite Ht|].
      intros [|i] Hi; [discriminate Hi|]. apply Hf, Hi.
    + destruct (IH a v Hm Hv) as (Hl & Ht & Hf). simpl.
      split; [now rewrite Hl|]. split; [exact Ht|].
      intros [|i] Hi; [reflexivity|]. apply Hf, Hi.
Qed.

Lemma broadcast_to_shaped (k : nat) (Q : Linalg.matrix) :
  shaped k 27 Q -> broadcast_to k 27 Q = Some Q.
Proof.
  intros [Hlen Hrows]. unfold broadcast_to.
  assert (E : mapM (broadcast_row 27) Q = Some Q).
  { clear Hlen. induction Hrows as [|row Q Hrow _ IH]; [reflexivity|].
    assert (Er : broadcast_row 27 row = Some row).
    { unfold broadcast_row.
      destruct (decide (length row = 27%nat)); [reflexivity|contradiction]. }
    simpl. rewrite Er. simpl. rewrite IH. reflexivity. }
  rewrite E. simpl.
  destruct (decide (length Q = k)); [reflexivity|contradiction].
Qed.

Lemma length_concat_shaped (n w : nat) (P : Linalg.matrix) :
  shaped n w P -> length (concat P) = (n * w)%nat.
Proof.
  intros [Hlen Hrows]. subst n.
  induction Hrows as [|row P Hrow _ IH]; [reflexivity|].
  simpl. rewrite length_app, Hrow, IH. reflexivity.
Qed.

Lemma chunks_concat (w : nat) (P : Linalg.matrix) :
  Forall (fun row : Np.arr => length row = w) P ->
  chunks (length P) w (concat P) = P.
Proof.
  induction 1 as [|row P Hrow _ IH]; [reflexivity|].
  subst w. simpl. rewrite take_app_length, drop_app_length, IH. reflexivity.
Qed.

Lemma store_row_any_state (acc A : Linalg.matrix) (row : Np.arr)
    (s s' t : errstate) :
  store_row acc row s = (Ret A, s') -> store_row acc row t = (Ret A, t).
Proof.
  unfold store_row.
  destruct row as [|x [|y row]]; try destruct (decide _);
    unfold mret, M_ret, Py.ret, raise; intros H; try discriminate H;
    injection H as <- _; reflexivity.
Qed.

Section LoopRestriction.

Context (iter : Np.arr -> M Np.arr).

Lemma loop_unshift (d : Linalg.matrix) :
  forall (acc P0 Q : Linalg.matrix) (s s' : errstate),
    for_each d (fun A sig => row ← iter sig; store_row A row) (P0 ++ acc) s
    = (Ret Q, s') ->
    exists Q', Q = P0 ++ Q'
               /\ for_each d (fun A sig => row ← iter sig; store_row A row) acc s
                  = (Ret Q', s').
Proof.
  induction d as [|sig d IH]; intros acc P0 Q s s' H; simpl in H; simpl.
  - injection H as <- <-. exists acc. split; reflexivity.
  - apply bind_ret_inv in H as (A & s1 & H1 & H2).
    apply bind_ret_inv in H1 as (row & s2 & Hrow & Hst).
    rewrite store_row_app in Hst.
    destruct (store_row acc row s2) as [[A'|e|] s3] eqn:Est;
      try discriminate Hst.
    injection Hst as <- <-.
    apply IH in H2 as (Q' & -> & H2). exists Q'. split; [reflexivity|].
    erewrite bind_ret_eq; [exact H2|].
    erewrite bind_ret_eq by exact Hrow. exact Est.
Qed.

Hypothesis iter_blind : forall sig, state_blind (iter sig).

Lemma restricts_loop :
  restricts (fun d => for_each d (fun A sig => row ← iter sig; store_row A row) []).
Proof.
  intros d. induction d as [|sig d IH]; intros P mask s s' t H.
  - simpl in H. injection H as <- <-. rewrite !take_rows_nil.
    exists t. reflexivity.
  - simpl in H.
    apply bind_ret_inv in H as (A & s1 & H1 & H2).
    apply bind_ret_inv in H1 as (row & s2 & Hrow & Hst).
    destruct (store_row_ret _ _ _ _ _ Hst) as (row' & -> & _).
    assert (Es : s1 = s2).
    { pose proof (store_row_any_state _ _ _ _ _ s2 Hst) as E.
      rewrite Hst in E. now injection E. }
    subst s1.
    apply (loop_unshift d [] [row']) in H2 as (P' & -> & H2).
    destruct mask as [|[|] mask].
    + exists t. reflexivity.
    + change (take_rows (true :: mask) (sig :: d))
        with (sig :: take_rows mask d).
      change (take_rows (true :: mask) ([] ++ [row'] ++ P'))
        with ([row'] ++ take_rows mask P').
      pose proof (iter_blind sig t s) as E. rewrite Hrow in E.
      destruct (iter sig t) as [o t1] eqn:Et. simpl in E. subst o.
      destruct (IH P' mask s2 s' t1 H2) as (t' & Ht').
      exists t'. simpl.
      erewrite (bind_ret_eq _ _ [row'] t t1).
      * exact (loop_shift iter _ [] [row'] _ _ _ Ht').
      * erewrite bind_ret_eq by exact Et.
        apply (store_row_any_state _ _ _ _ _ t1 Hst).
    + change (take_rows (false :: mask) (sig :: d)) with (take_rows mask d).
      change (take_rows (false :: mask) ([] ++ [row'] ++ P'))
        with (take_rows mask P').
      apply (IH P' mask s2 s' t H2).
Qed.

End LoopRestriction.

Lemma restricts_guard (c : bool) (e : exn)
    (F : Linalg.matrix -> M Linalg.matrix) :
  restricts F -> restricts (fun d => if c then raise e else F d).
Proof.
  intros HF d P mask s s' t H.
  destruct c; [discriminate H|]. eapply HF; eassumption.
Qed.

Lemma restricts_bind {A} (m : M A) (F : A -> Linalg.matrix -> M Linalg.matrix) :
  state_blind m -> (forall a, restricts (F a)) ->
  restricts (fun d => a ← m; F a d).
Proof.
  intros Hm HF d P mask s s' t H.
  apply bind_ret_inv in H as (a & s1 & Hm1 & H).
  pose proof (Hm t s) as E. rewrite Hm1 in E.
  destruct (m t) as [o t1] eqn:Em. simpl in E. subst o.
  destruct (HF a d P mask s1 s' t1 H) as (t' & Ht').
  exists t'. erewrite bind_ret_eq by exact Em. exact Ht'.
Qed.

Lemma DKIModel_fit_masked (fit_method : Linalg.matrix -> M Linalg.matrix)
    (data Q : Linalg.matrix) (mask : Np.mask) (s s' : errstate) :
  length mask = length data ->
  fit_method (take_rows mask data) s = (Ret Q, s') ->
  shaped (length (take_rows mask data)) 27 Q ->
  exists R,
    DKIModel_fit fit_method data (Some mask) s = (Ret R, s')
    /\ length R = length data
    /\ take_rows mask R = Q
    /\ forall i, mask !! i = Some false -> R !! i = Some (Np.zeros 27).
Proof.
  intros Hmask Hfit HQ. unfold DKIModel_fit, getitem_mask.
  destruct (decide (length mask = length data)) as [_|]; [|contradiction].
  erewrite bind_ret_eq by reflexivity.
  erewrite bind_ret_eq by exact Hfit.
  cbv zeta. unfold setitem_mask.
  rewrite length_replicate.
  destruct (decide (length mask = length data)) as [_|]; [|contradiction].
  assert (Hk : forall (a b : Linalg.matrix),
             length a = length b -> length mask = length a ->
             length (take_rows mask a) = length (take_rows mask b)).
  { clear. induction mask as [|[|] m IH]; intros [|x a] [|y b] Hab Hm;
      try discriminate; try reflexivity; simpl;
      injection Hab as Hab; injection Hm as Hm; [f_equal|]; now apply IH. }
  rewrite (Hk (replicate (length data) (Np.zeros 27)) data)
    by (rewrite ?length_replicate; congruence).
  rewrite (broadcast_to_shaped _ _ HQ).
  destruct HQ as [HQlen _].
  destruct (put_rows_spec mask (replicate (length data) (Np.zeros 27)) Q)
    as (Hl & Ht & Hf).
  { now rewrite length_replicate. }
  { rewrite HQlen. apply Hk; rewrite ?length_replicate; congruence. }
  eexists. split; [reflexivity|].
  split; [now rewrite Hl, length_replicate|]. split; [exact Ht|].
  intros i Hi. rewrite (Hf i Hi). apply lookup_replicate_2.
  rewrite <- Hmask. apply lookup_lt_is_Some. eauto.
Qed.

Lemma DKIModel_fit_unmasked (fit_method : Linalg.matrix -> M Linalg.matrix)
    (data P : Linalg.matrix) (s s' : errstate) :
  fit_method data s = (Ret P, s') ->
  shaped (length data) 27 P ->
  (data <> [] -> DKIModel_fit fit_method data None s = (Ret P, s'))
  /\ (data = [] ->
      DKIModel_fit fit_method data None s
      = (Raise (ValueError "cannot reshape array"), s')).
Proof.
  intros Hfit HP. unfold DKIModel_fit.
  erewrite bind_ret_eq by reflexivity.
  erewrite bind_ret_eq by exact Hfit.
  unfold reshape_first. cbv zeta.
  rewrite (length_concat_shaped _ _ _ HP). destruct HP as [HPlen HProws].
  split.
  - intros Hdata.
    assert (Hn : length data <> 0%nat) by (destruct data; [congruence|discriminate]).
    destruct (decide _) as [[H|H]|_].
    + contradiction.
    + rewrite Nat.mul_comm, Nat.Div0.mod_mul in H. congruence.
    + rewrite Nat.mul_comm, Nat.div_mul by exact Hn.
      rewrite <- HPlen, (chunks_concat 27 P HProws). reflexivity.
  - intros ->. reflexivity.
Qed.

Section ModelClass.

Import Linalg.

Context (L : libm).
Context (pinv : matrix -> option matrix).
Context (from_lower_triangular : Np.arr -> option matrix).
Context (decompose_tensor : matrix -> float -> option (Np.arr * matrix)).

Lemma common_fit_methods_cases (name : string)
    (fit_method : matrix -> matrix -> float -> M matrix) :
  common_fit_methods L pinv from_lower_triangular decompose_tensor !! name
  = Some fit_method ->
  fit_method = ols_fit_dki L pinv from_lower_triangular decompose_tensor
  \/ fit_method = wls_fit_dki L pinv from_lower_triangular decompose_tensor.
Proof.
  intros H. unfold common_fit_methods in H.
  apply elem_of_list_to_map_2 in H.
  repeat (apply elem_of_cons in H as [H|H];
          [injection H as _ ->; auto|]).
  apply elem_of_nil in H. contradiction.
Qed.

Lemma fit_method_shaped (name : string)
    (fit_method : matrix -> matrix -> float -> M matrix)
    (design_matrix data P : matrix) (min_signal : float) (s s' : errstate) :
  common_fit_methods L pinv from_lower_triangular decompose_tensor !! name
  = Some fit_method ->
  fit_method design_matrix data min_signal s = (Ret P, s') ->
  shaped (length data) 27 P.
Proof.
  intros Hname H. destruct (common_fit_methods_cases _ _ Hname) as [-> | ->].
  - unfold ols_fit_dki in H. cbv zeta in H.
    destruct (min_signal <=? 0); [discriminate H|].
    do 3 (apply bind_ret_inv in H as (? & ? & _ & H)).
    apply loop_shape in H as (R & -> & HR & Hall). split; assumption.
  - unfold wls_fit_dki in H. cbv zeta in H.
    destruct (min_signal <=? 0); [discriminate H|].
    do 3 (apply bind_ret_inv in H as (? & ? & _ & H)).
    apply (loop_shape (fun sig => _wls_iter _ _ _ _ _ _ sig _ _)) in H
      as (R & -> & HR & Hall). split; assumption.
Qed.

(** X23: [DKIModel.fit] with a mask.  With any of the fit methods the
    class selects by name and a mask with one entry per voxel, when the
    method returns on the selected voxels the parameters handed to
    [DKIFit] have one row per voxel: the rows of the selected voxels are
    the rows the method returned, in order, and every other row is 27
    zeros. *)
Theorem DKIModel_fit_with_mask (name : string)
    (fit_method : matrix -> matrix -> float -> M matrix)
    (design_matrix data Q : matrix) (min_signal : float) (mask : Np.mask)
    (s s' : errstate) :
  common_fit_methods L pinv from_lower_triangular decompose_tensor !! name
  = Some fit_method ->
  length mask = length data ->
  fit_method design_matrix (take_rows mask data) min_signal s = (Ret Q, s') ->
  exists R,
    DKIModel_fit (fun d => fit_method design_matrix d min_signal)
                 data (Some mask) s = (Ret R, s')
    /\ length R = length data
    /\ take_rows mask R = Q
    /\ forall i, mask !! i = Some false -> R !! i = Some (Np.zeros 27).
Proof.
  intros Hname Hmask Hfit.
  apply (DKIModel_fit_masked (fun d => fit_method design_matrix d min_signal));
    [exact Hmask | exact Hfit |].
  apply (fit_method_shaped name fit_method design_matrix _ Q min_signal s s');
    assumption.
Qed.

(** X24: [DKIModel.fit] without a mask.  When the selected fit method
    returns, the parameters handed to [DKIFit] are the rows it returned,
    unless there is no voxel: then the reshape to [(0, -1)] raises a
    [ValueError]. *)
Theorem DKIModel_fit_without_mask (name : string)
    (fit_method : matrix -> matrix -> float -> M matrix)
    (design_matrix data P : matrix) (min_signal : float) (s s' : errstate) :
  common_fit_methods L pinv from_lower_triangular decompose_tensor !! name
  = Some fit_method ->
  fit_method design_matrix data min_signal s = (Ret P, s') ->
  (data <> [] ->
   DKIModel_fit (fun d => fit_method design_matrix d min_signal) data None s
   = (Ret P, s'))
  /\ (data = [] ->
      DKIModel_fit (fun d => fit_method design_matrix d min_signal) data None s
      = (Raise (ValueError "cannot reshape array"), s')).
Proof.
  intros Hname Hfit.
  apply (DKIModel_fit_unmasked (fun d => fit_method design_matrix d min_signal));
    [exact Hfit|].
  apply (fit_method_shaped name fit_method design_matrix _ P min_signal s s');
    assumption.
Qed.

(** X25: a fit method the class selects by name, once it returns on a set
    of voxels, returns on any selection of them, from any state, and the
    rows are the selected rows: masking the data and masking the result
    agree. *)
Theorem fit_methods_restrict (name : string)
    (fit_method : matrix -> matrix -> float -> M matrix)
    (design_matrix : matrix) (min_signal : float) :
  common_fit_methods L pinv from_lower_triangular decompose_tensor !! name
  = Some fit_method ->
  restricts (fun data => fit_method design_matrix data min_signal).
Proof.
  intros Hname. destruct (common_fit_methods_cases _ _ Hname) as [-> | ->].
  - unfold ols_fit_dki. cbv zeta.
    apply restricts_guard.
    do 3 (apply restricts_bind; [auto with state_blind | intros ?]).
    apply restricts_loop. intros sig. apply state_blind_ols_iter.
  - unfold wls_fit_dki. cbv zeta.
    apply restricts_guard.
    do 3 (apply restricts_bind; [auto with state_blind | intros ?]).
    apply restricts_loop. intros sig. apply state_blind_wls_iter.
Qed.

End ModelClass.

Lemma example_fit_method_WLS :
  common_fit_methods example_libm Example.pinv Example.from_lower_triangular
                     Example.decompose_tensor !! "WLS"%string
  = Some (wls_fit_dki example_libm Example.pinv Example.from_lower_triangular
                      Example.decompose_tensor).
Proof. reflexivity. Qed.

Lemma example_fit_method_OLS_DKI :
  common_fit_methods example_libm Example.pinv Example.from_lower_triangular
                     Example.decompose_tensor !! "OLS_DKI"%string
  = Some (ols_fit_dki example_libm Example.pinv Example.from_lower_triangular
                      Example.decompose_tensor).
Proof. reflexivity. Qed.

Lemma DKIModel_fit_with_mask_witness :
  exists Q s' R,
    DKIModel_fit
      (fun d => wls_fit_dki example_libm Example.pinv
                            Example.from_lower_triangular
                            Example.decompose_tensor
                            Example.design_matrix d 1)
      [[2]; [3]; [4]] (Some [true; false; true]) s0
    = (Ret R, s')
    /\ length R = 3%nat
    /\ take_rows [true; false; true] R = Q
    /\ forall i, [true; false; true] !! i = Some false
                 -> R !! i = Some (Np.zeros 27).
Proof.
  eexists _, _.
  eapply (DKIModel_fit_with_mask example_libm Example.pinv
            Example.from_lower_triangular Example.decompose_tensor
            "WLS"%string _ Example.design_matrix [[2]; [3]; [4]] _ 1
            [true; false; true] s0 _ example_fit_method_WLS eq_refl).
  vm_compute. reflexivity.
Defined.

Lemma DKIModel_fit_without_mask_witness :
  exists P s',
    DKIModel_fit
      (fun d => ols_fit_dki example_libm Example.pinv
                            Example.from_lower_triangular
                            Example.decompose_tensor
                            Example.design_matrix d 1)
      [[2]; [3]] None s0
    = (Ret P, s').
Proof.
  eexists _, _.
  unshelve eapply (proj1 (DKIModel_fit_without_mask example_libm Example.pinv
                   Example.from_lower_triangular Example.decompose_tensor
                   "OLS_DKI"%string _ Example.design_matrix [[2]; [3]] _ 1
                   s0 _ example_fit_method_OLS_DKI _)).
  - vm_compute. reflexivity.
  - discriminate.
Defined.

Lemma fit_methods_restrict_witness :
  exists P t',
    ols_fit_dki example_libm Example.pinv Example.from_lower_triangular
                Example.decompose_tensor Example.design_matrix
                (take_rows [false; true; true] [[2]; [3]; [4]]) 1 s0
    = (Ret (take_rows [false; true; true] P), t').
Proof.
  eexists _.
  eapply (fit_methods_restrict example_libm Example.pinv
            Example.from_lower_triangular Example.decompose_tensor
            "OLS_DKI"%string _ Example.design_matrix 1
            example_fit_method_OLS_DKI
            [[2]; [3]; [4]] _ [false; true; true] s0 _ s0).
  vm_compute. reflexivity.
Defined.
